(** * Agent discovery and task routing of the A2A orchestrator

    Shallow embedding of
    [multi-agents-orchestrations/gh-copilot-a2a-orchestration/main.py]:
    the relevance scorer [AgentInfo.matches_task], the card decoding of
    [discover_agent], the registry construction of [discover_all_agents],
    and the routing of [select_agent] / [send_task].

    Conventions.
    - A Python [str] is a [string] of code points; the embedding covers the
      code points below 256, with Python's case mapping, white space and
      word classes on that range.
    - A Python [float] is an IEEE-754 binary64 number, embedded as a
      [spec_float] with the operations of [SpecFloat] at precision 53.
    - A [dict] is an association list in insertion order.
    - A raised exception is a value of [exn]; functions that may raise
      return a [result]. *)

From Stdlib Require Import ZArith NArith List String Ascii Bool Lia.
From Stdlib Require Import Permutation Sorted SpecFloat.
Import ListNotations.
Local Open Scope string_scope.
Local Open Scope list_scope.

Set Implicit Arguments.

(* ================================================================== *)
(** ** Python strings *)

Module PyStr.

Definition code (c : ascii) : N := N_of_ascii c.

Definition between (lo hi n : N) : bool := (lo <=? n)%N && (n <=? hi)%N.

(** [str.lower] on one code point. *)
Definition lower_char (c : ascii) : ascii :=
  let n := code c in
  if between 65 90 n || (between 192 222 n && negb (n =? 215)%N)
  then ascii_of_N (n + 32) else c.

(** [str.lower]. *)
Fixpoint lower (s : string) : string :=
  match s with
  | EmptyString => EmptyString
  | String c s' => String (lower_char c) (lower s')
  end.

(** [str.isspace] on one code point. *)
Definition is_space (c : ascii) : bool :=
  let n := code c in
  between 9 13 n || between 28 32 n || (n =? 133)%N || (n =? 160)%N.

(** The class [\w] of [re] on [str] patterns: alphanumeric or [_]. *)
Definition is_word (c : ascii) : bool :=
  let n := code c in
  between 48 57 n || between 65 90 n || between 97 122 n || (n =? 95)%N
  || (n =? 170)%N || (n =? 181)%N || (n =? 186)%N
  || between 178 179 n || (n =? 185)%N || between 188 190 n
  || (between 192 255 n && negb (n =? 215)%N && negb (n =? 247)%N).

(** [sub in s]: [sub] occurs as a contiguous substring of [s]. *)
Fixpoint contains (sub s : string) : bool :=
  prefix sub s
  || match s with
     | EmptyString => false
     | String _ s' => contains sub s'
     end.

(** [x in [..]] on a list of strings. *)
Definition mem (x : string) (l : list string) : bool :=
  existsb (String.eqb x) l.

Definition flush (cur : string) : list string :=
  match cur with EmptyString => [] | _ => [cur] end.

(** The maximal runs of characters of class [p], left to right; [cur] is
    the run being read. *)
Fixpoint runs_from (p : ascii -> bool) (cur s : string) : list string :=
  match s with
  | EmptyString => flush cur
  | String c s' =>
      if p c then runs_from p (cur ++ String c EmptyString) s'
      else flush cur ++ runs_from p EmptyString s'
  end.

Definition runs (p : ascii -> bool) (s : string) : list string :=
  runs_from p EmptyString s.

(** [s.split()]: the maximal runs of non-space characters. *)
Definition split (s : string) : list string :=
  runs (fun c => negb (is_space c)) s.

(** [re.findall(r'\b\w+\b', s)]: the maximal runs of word characters. *)
Definition findall_words (s : string) : list string := runs is_word s.

(** [s.replace(a, b)] for single characters [a] and [b]. *)
Fixpoint replace (a b : ascii) (s : string) : string :=
  match s with
  | EmptyString => EmptyString
  | String c s' => String (if Ascii.eqb c a then b else c) (replace a b s')
  end.

(** [s.split(sep)] on a class of one-character separators: the fields
    between consecutive separators, empty fields included. *)
Fixpoint fields_from (sep : ascii -> bool) (cur s : string) : list string :=
  match s with
  | EmptyString => [cur]
  | String c s' =>
      if sep c then cur :: fields_from sep EmptyString s'
      else fields_from sep (cur ++ String c EmptyString) s'
  end.

Definition fields (sep : ascii -> bool) (s : string) : list string :=
  fields_from sep EmptyString s.

(** [s.strip()]. *)
Fixpoint lstrip (s : string) : string :=
  match s with
  | String c s' => if is_space c then lstrip s' else s
  | EmptyString => EmptyString
  end.

Fixpoint rstrip (s : string) : string :=
  match s with
  | EmptyString => EmptyString
  | String c s' =>
      match rstrip s' with
      | EmptyString => if is_space c then EmptyString else String c EmptyString
      | r => String c r
      end
  end.

Definition strip (s : string) : string := rstrip (lstrip s).

(** [sep.join(l)]. *)
Fixpoint join (sep : string) (l : list string) : string :=
  match l with
  | [] => EmptyString
  | [x] => x
  | x :: l' => x ++ sep ++ join sep l'
  end.

(** Truth value of a [str]: non-empty. *)
Definition truthy (s : string) : bool :=
  match s with EmptyString => false | _ => true end.

End PyStr.

(* ================================================================== *)
(** ** Python floats *)

Module PyFloat.

Definition float := spec_float.

Definition prec : Z := 53.
Definition emax : Z := 1024.

Definition add (x y : float) : float := SFadd prec emax x y.
Definition sub (x y : float) : float := SFsub prec emax x y.
Definition opp (x : float) : float := SFopp x.
Definition ltb (x y : float) : bool := SFltb x y.
Definition leb (x y : float) : bool := SFleb x y.

(** [x > y] is [y < x]. *)
Definition gtb (x y : float) : bool := SFltb y x.

Definition of_pos (n : positive) : float :=
  binary_normalize prec emax (Zpos n) 0 false.

(** The decimal literal [n / d] for integers [n], [d] that binary64
    represents exactly: the correctly rounded quotient, which is the
    double Python reads the literal as. *)
Definition literal (n d : positive) : float :=
  SFdiv prec emax (of_pos n) (of_pos d).

Definition f0_0 : float := S754_zero false.
Definition f1_0 : float := Eval vm_compute in literal 1 1.
Definition f0_5 : float := Eval vm_compute in literal 5 10.
Definition f0_3 : float := Eval vm_compute in literal 3 10.
Definition f0_2 : float := Eval vm_compute in literal 2 10.
Definition f0_15 : float := Eval vm_compute in literal 15 100.
Definition f0_25 : float := Eval vm_compute in literal 25 100.
Definition f0_1 : float := Eval vm_compute in literal 1 10.

(** The builtin [max(a, b)]: [b] when [b > a], else [a]. *)
Definition py_max (a b : float) : float := if gtb b a then b else a.

(** The builtin [min(a, b)]: [b] when [b < a], else [a]. *)
Definition py_min (a b : float) : float := if ltb b a then b else a.

Definition is_nan (x : float) : bool :=
  match x with S754_nan => true | _ => false end.

End PyFloat.

(* ================================================================== *)
(** ** Exceptions and results *)

(** A raised Python exception: its class and its message. *)
Inductive exn : Type :=
| PyExc (cls : string) (msg : string).

Definition exn_class (e : exn) : string := let 'PyExc c _ := e in c.

Definition ValueError (msg : string) : exn := PyExc "ValueError" msg.
Definition KeyError (key : string) : exn := PyExc "KeyError" key.

Inductive result (A : Type) : Type :=
| Return (a : A)
| Raise (e : exn).

Arguments Return {A} a.
Arguments Raise {A} e.

(* ================================================================== *)
(** ** Dictionaries in insertion order *)

Module Dict.

Definition dict (V : Type) : Type := list (string * V).

Fixpoint get {V} (k : string) (d : dict V) : option V :=
  match d with
  | [] => None
  | (k', v) :: d' => if String.eqb k k' then Some v else get k d'
  end.

(** [k in d]. *)
Definition has {V} (k : string) (d : dict V) : bool :=
  match get k d with Some _ => true | None => false end.

(** [d[k] = v]: an existing key keeps its position, a new key is
    appended. *)
Fixpoint set {V} (k : string) (v : V) (d : dict V) : dict V :=
  match d with
  | [] => [(k, v)]
  | (k', v') :: d' =>
      if String.eqb k k' then (k, v) :: d' else (k', v') :: set k v d'
  end.

Definition keys {V} (d : dict V) : list string := map fst d.

(** Truth value of a [dict]: non-empty. *)
Definition truthy {V} (d : dict V) : bool :=
  match d with [] => false | _ => true end.

End Dict.

(* ================================================================== *)
(** ** [AgentInfo] and the relevance scorer *)

(** A skill dictionary built by [discover_agent]: each key is optional. *)
Record Skill : Type := mkSkill {
  skill_id : option string;
  skill_name : option string;
  skill_description : option string;
  skill_tags : option (list string);
  skill_examples : option (list string)
}.

(** The [A2AAgent] handle: what [discover_agent] constructs it from. *)
Record A2AAgent : Type := mkA2AAgent {
  a2a_name : string;
  a2a_description : option string;
  a2a_url : string
}.

Record AgentInfo : Type := mkAgentInfo {
  agent : A2AAgent;
  host : string;
  name : string;
  description : string;
  skills : list Skill;
  tags : list string;
  examples : list string;
  primary_keywords : list string
}.

Import PyFloat.

Definition generic_tags : list string :=
  ["technical"; "tutorial"; "guide"; "code"; "examples"].

Definition name_stop_words : list string := ["agent"; "the"; "a"].

(** [skill.get('id', '')]. *)
Definition skill_get_id (skill : Skill) : string :=
  match skill_id skill with Some i => i | None => EmptyString end.

(** [AgentInfo.matches_task]: the five loops update [score] in turn. *)
Definition matches_task (self : AgentInfo) (task : string)
    (all_agents_keywords : option (Dict.dict (list string))) : float :=
  let task_lower := PyStr.lower task in
  let score := f0_0 in
  (* primary keywords *)
  let score :=
    fold_left
      (fun score keyword =>
         if PyStr.contains (PyStr.lower keyword) task_lower
         then add score f0_5 else score)
      (primary_keywords self) score in
  (* keywords of the other agents *)
  let score :=
    match all_agents_keywords with
    | Some d =>
        if Dict.truthy d then
          fold_left
            (fun score (item : string * list string) =>
               let (other_agent, other_keywords) := item in
               if negb (String.eqb other_agent (name self)) then
                 fold_left
                   (fun score keyword =>
                      if PyStr.contains (PyStr.lower keyword) task_lower
                      then sub score f0_3 else score)
                   other_keywords score
               else score)
            d score
        else score
    | None => score
    end in
  (* tags *)
  let score :=
    fold_left
      (fun score tag =>
         let tag_lower := PyStr.lower tag in
         if PyStr.mem tag_lower generic_tags then score
         else if PyStr.contains tag_lower task_lower
              then add score f0_2 else score)
      (tags self) score in
  (* skill ids *)
  let score :=
    fold_left
      (fun score skill =>
         let skill_id := PyStr.lower (skill_get_id skill) in
         if PyStr.truthy skill_id then
           let skill_keywords :=
             PyStr.split (PyStr.replace "_"%char " "%char skill_id) in
           fold_left
             (fun score kw =>
                if (3 <? String.length kw)%nat && PyStr.contains kw task_lower
                then add score f0_15 else score)
             skill_keywords score
         else score)
      (skills self) score in
  (* agent name *)
  let agent_name_lower := PyStr.lower (name self) in
  let name_parts := PyStr.findall_words agent_name_lower in
  let score :=
    fold_left
      (fun score part =>
         if negb (PyStr.mem part name_stop_words)
            && PyStr.contains part task_lower
         then add score f0_25 else score)
      name_parts score in
  py_max f0_0 (py_min score f1_0).

(* ================================================================== *)
(** ** Sorting: [list.sort(key=..., reverse=True)] *)

Section ListSort.

Variable A : Type.
Variable key : A -> float.

(** Stable insertion on keys compared with [<] only, as [list.sort] does:
    [x], which comes before every element of [l] in the input, is put in
    front of the first element whose key is not smaller than its own. *)
Fixpoint insert_asc (x : A) (l : list A) : list A :=
  match l with
  | [] => [x]
  | y :: r =>
      if ltb (key y) (key x) then y :: insert_asc x r else x :: y :: r
  end.

Fixpoint sort_asc (l : list A) : list A :=
  match l with
  | [] => []
  | x :: r => insert_asc x (sort_asc r)
  end.

(** With [reverse=True] the list is reversed, sorted stably in ascending
    order, and reversed again.  The sorting algorithm does not matter:
    the result is the only rearrangement in descending order that keeps
    the order of equal keys ([list_sort_reverse_unique]). *)
Definition list_sort_reverse (l : list A) : list A :=
  rev (sort_asc (rev l)).

(** Keys that compare: not NaN. *)
Definition comparable (a : A) : Prop := is_nan (key a) = false.

(** The key of [b] equals [v]: neither is smaller under [<]. *)
Definition tied (v : float) (b : A) : bool :=
  negb (ltb v (key b)) && negb (ltb (key b) v).

Definition ascending (a b : A) : Prop := ltb (key b) (key a) = false.
Definition descending (a b : A) : Prop := ltb (key a) (key b) = false.

End ListSort.

(* ================================================================== *)
(** ** Agent cards and discovery *)

(** An attribute of a duck-typed object: absent, present and [None], or
    present with a value. *)
Inductive attr (A : Type) : Type :=
| NoAttr
| AttrNone
| Attr (a : A).

Arguments NoAttr {A}.
Arguments AttrNone {A}.
Arguments Attr {A} a.

(** [hasattr(o, f) and o.f] for a list-valued attribute; the list when the
    test succeeds. *)
Definition attr_list {A} (a : attr (list A)) : option (list A) :=
  match a with
  | Attr (x :: l) => Some (x :: l)
  | _ => None
  end.

(** [hasattr(o, f) and o.f] for a dict-valued attribute. *)
Definition attr_dict {V} (a : attr (Dict.dict V)) : option (Dict.dict V) :=
  match a with
  | Attr (x :: l) => Some (x :: l)
  | _ => None
  end.

Record CardSkill : Type := mkCardSkill {
  cs_id : option string;
  cs_name : option string;
  cs_description : option string;
  cs_tags : attr (list string);
  cs_examples : attr (list string)
}.

Record AgentCard : Type := mkAgentCard {
  card_name : string;
  card_description : option string;
  card_skills : attr (list CardSkill);
  card_primary_keywords : attr (list string);
  card_primaryKeywords : attr (list string);
  card_model_extra : attr (Dict.dict (list string));
  card_dict : option (Dict.dict (list string))
}.

(** The skill dictionary built from one card skill. *)
Definition skill_dict_of (skill : CardSkill) : Skill :=
  {| skill_id := cs_id skill;
     skill_name := cs_name skill;
     skill_description := cs_description skill;
     skill_tags := attr_list (cs_tags skill);
     skill_examples := attr_list (cs_examples skill) |}.

Definition opt_list {A} (o : option (list A)) : list A :=
  match o with Some l => l | None => [] end.

(** The loop over [agent_card.skills]: the skill dictionaries, and the
    tags and examples of all skills in order. *)
Definition extract_skills (agent_card : AgentCard)
  : list Skill * list string * list string :=
  match attr_list (card_skills agent_card) with
  | Some card_skills =>
      (map skill_dict_of card_skills,
       flat_map (fun skill => opt_list (attr_list (cs_tags skill)))
         card_skills,
       flat_map (fun skill => opt_list (attr_list (cs_examples skill)))
         card_skills)
  | None => ([], [], [])
  end.

(** The [if]/[elif] chain that reads the routing keywords of a card. *)
Definition extract_primary_keywords (agent_card : AgentCard) : list string :=
  match attr_list (card_primary_keywords agent_card) with
  | Some kws => kws
  | None =>
      match attr_list (card_primaryKeywords agent_card) with
      | Some kws => kws
      | None =>
          match attr_dict (card_model_extra agent_card) with
          | Some extra =>
              match Dict.get "primaryKeywords" extra with
              | Some kws => kws
              | None => []
              end
          | None =>
              match card_dict agent_card with
              | Some d =>
                  match Dict.get "primaryKeywords" d with
                  | Some kws => kws
                  | None => []
                  end
              | None => []
              end
          end
      end
  end.

(** [list(set(tags))]: one copy of each tag.  Python leaves the order of
    a set unspecified; the scorer adds the same weight for every tag, so
    the order does not reach the score ([matches_task_tags_order]). *)
Definition list_set (l : list string) : list string := nodup string_dec l.

(** An agent with its tags replaced. *)
Definition with_tags (info : AgentInfo) (tags' : list string) : AgentInfo :=
  {| agent := agent info;
     host := host info;
     name := name info;
     description := description info;
     skills := skills info;
     tags := tags';
     examples := examples info;
     primary_keywords := primary_keywords info |}.

(** A record written with [logger.error]. *)
Inductive log_record : Type :=
| FailedToDiscover (agent_host : string) (e : exn)
| DiscoveryError (e : exn).

(** What [asyncio.gather(..., return_exceptions=True)] holds for one
    awaitable of [discover_agent]. *)
Inductive gathered : Type :=
| GInfo (info : AgentInfo)
| GNone
| GExc (e : exn).

Record MultiAgentOrchestrator : Type := mkOrchestrator {
  agents : Dict.dict AgentInfo;
  default_agent : option string
}.

(** [MultiAgentOrchestrator.__init__]. *)
Definition init : MultiAgentOrchestrator :=
  {| agents := []; default_agent := None |}.

(** A message of an agent response: its [text], when it has one. *)
Record Message : Type := mkMessage { text : option string }.

Definition newline : string := String (ascii_of_nat 10) EmptyString.

Definition no_agent_msg : string := "No suitable agent found for the task".

(** [d[k]]. *)
Definition subscript {V} (d : Dict.dict V) (k : string) : result V :=
  match Dict.get k d with
  | Some v => Return v
  | None => Raise (KeyError k)
  end.

Definition bind {A B} (m : result A) (f : A -> result B) : result B :=
  match m with
  | Return a => f a
  | Raise e => Raise e
  end.

Notation "x <- m ;; f" := (bind m (fun x => f))
  (at level 61, m at next level, right associativity).

Section Orchestrator.

(** The remote side: the card served under a base URL (or the exception
    of the fetch), and the run of a task on an agent. *)
Variable get_agent_card : string -> result AgentCard.
Variable run : A2AAgent -> string -> result (list Message).

(** [discover_agent]: every exception is caught, logged, and turned into
    [None]. *)
Definition discover_agent (agent_host : string)
  : list log_record * option AgentInfo :=
  let agent_host := PyStr.strip agent_host in
  match get_agent_card agent_host with
  | Raise e => ([FailedToDiscover agent_host e], None)
  | Return agent_card =>
      let agent :=
        {| a2a_name := card_name agent_card;
           a2a_description := card_description agent_card;
           a2a_url := agent_host |} in
      let '(skills, tags, examples) := extract_skills agent_card in
      let primary_keywords := extract_primary_keywords agent_card in
      ([], Some {| agent := agent;
                   host := agent_host;
                   name := card_name agent_card;
                   description :=
                     match card_description agent_card with
                     | Some (String c d) => String c d
                     | _ => EmptyString
                     end;
                   skills := skills;
                   tags := list_set tags;
                   examples := examples;
                   primary_keywords := primary_keywords |})
  end.

(** The awaitable of [discover_agent] never raises: it settles with an
    [AgentInfo] or with [None]. *)
Definition settle (r : list log_record * option AgentInfo)
  : list log_record * gathered :=
  match r with
  | (log, Some info) => (log, GInfo info)
  | (log, None) => (log, GNone)
  end.

(** [asyncio.gather]: one result per awaitable, in the order of the
    awaitables. *)
Definition gather (agent_hosts : list string)
  : list log_record * list gathered :=
  let settled :=
    map (fun host => settle (discover_agent host)) agent_hosts in
  (flat_map fst settled, map snd settled).

(** One turn of the loop over [results]. *)
Definition register (st : MultiAgentOrchestrator * list log_record)
    (result : gathered) : MultiAgentOrchestrator * list log_record :=
  let (self, log) := st in
  match result with
  | GInfo info =>
      ({| agents := Dict.set (name info) info (agents self);
          default_agent :=
            match default_agent self with
            | None => Some (name info)
            | Some d => Some d
            end |}, log)
  | GExc e => (self, log ++ [DiscoveryError e])
  | GNone => (self, log)
  end.

(** [discover_all_agents]: the orchestrator after the batch, the records
    logged, and the value returned. *)
Definition discover_all_agents (self : MultiAgentOrchestrator)
    (agent_hosts : list string)
  : MultiAgentOrchestrator * list log_record * nat :=
  let (log, results) := gather agent_hosts in
  let (self, log) := fold_left register results (self, log) in
  (self, log, List.length (agents self)).

(** The agents the hosts of a batch yield, in the order of the hosts, and
    the records their failures log. *)
Definition discovered (agent_hosts : list string) : list AgentInfo :=
  flat_map
    (fun host =>
       match snd (discover_agent host) with
       | Some info => [info]
       | None => []
       end)
    agent_hosts.

Definition failures (agent_hosts : list string) : list log_record :=
  flat_map (fun host => fst (discover_agent host)) agent_hosts.

(** The dict comprehension of [select_agent]: the primary keywords of
    every registered agent, by name. *)
Definition all_agents_keywords_of (self : MultiAgentOrchestrator)
  : Dict.dict (list string) :=
  fold_left
    (fun d (item : string * AgentInfo) =>
       let (name, info) := item in Dict.set name (primary_keywords info) d)
    (agents self) [].

(** The score [select_agent] computes for one registered agent. *)
Definition score_of (self : MultiAgentOrchestrator) (task : string)
    (agent_info : AgentInfo) : float :=
  matches_task agent_info task (Some (all_agents_keywords_of self)).

(** The scores of [select_agent] before they are sorted, in the order of
    [self.agents.items()]. *)
Definition compute_scores (self : MultiAgentOrchestrator) (task : string)
  : list (string * float) :=
  let all_agents_keywords := all_agents_keywords_of self in
  map (fun item : string * AgentInfo =>
         let (name, agent_info) := item in
         (name, matches_task agent_info task (Some all_agents_keywords)))
      (agents self).

(** The scores after [scores.sort(key=lambda x: x[1], reverse=True)]. *)
Definition ranked_scores (self : MultiAgentOrchestrator) (task : string)
  : list (string * float) :=
  list_sort_reverse snd (compute_scores self task).

(** [select_agent]. *)
Definition select_agent (self : MultiAgentOrchestrator) (task : string)
  : result (option AgentInfo) :=
  if negb (Dict.truthy (agents self)) then Return None
  else
    match ranked_scores self task with
    | [] => Raise (PyExc "IndexError" "list index out of range")
    | (best_agent, best_score) :: _ =>
        if gtb best_score f0_1 then
          info <- subscript (agents self) best_agent ;; Return (Some info)
        else
          match default_agent self with
          | Some d =>
              if PyStr.truthy d then
                info <- subscript (agents self) d ;; Return (Some info)
              else Return None
          | None => Return None
          end
    end.

(** The text of a response: the non-empty [text] fields joined by a
    newline. *)
Definition response_text (messages : list Message) : string :=
  PyStr.join newline
    (flat_map
       (fun message =>
          match text message with
          | Some (String c t) => [String c t]
          | _ => []
          end)
       messages).

(** The run of a task on a chosen agent, as [send_task] returns it. *)
Definition invoke (agent_info : AgentInfo) (task : string)
  : result (string * string) :=
  match run (agent agent_info) task with
  | Raise e => Raise e
  | Return messages => Return (response_text messages, name agent_info)
  end.

(** [send_task]: the response text and the name of the agent used. *)
Definition send_task (self : MultiAgentOrchestrator) (task : string)
    (agent_name : option string) : result (string * string) :=
  agent_info <-
    (match agent_name with
     | Some n =>
         if PyStr.truthy n && Dict.has n (agents self)
         then info <- subscript (agents self) n ;; Return (Some info)
         else select_agent self task
     | None => select_agent self task
     end) ;;
  match agent_info with
  | None => Raise (ValueError no_agent_msg)
  | Some agent_info => invoke agent_info task
  end.

End Orchestrator.

(** Writing a list of agents into a registry, each under its name. *)
Definition insert_all (l : list AgentInfo) (d : Dict.dict AgentInfo)
  : Dict.dict AgentInfo :=
  fold_left (fun d info => Dict.set (name info) info d) l d.

(** The default agent after a batch that found the agents [found]. *)
Definition default_after (self : MultiAgentOrchestrator)
    (found : list AgentInfo) : option string :=
  match default_agent self with
  | Some d => Some d
  | None => option_map name (hd_error found)
  end.

(** A registry dictionary with distinct keys that stores every agent
    under its name. *)
Definition dict_ok (d : Dict.dict AgentInfo) : Prop :=
  NoDup (Dict.keys d) /\ (forall k info, In (k, info) d -> name info = k).

(** What every registry built by discovery satisfies: the keys are
    distinct, every agent is stored under its name, and the default
    agent is registered. *)
Definition registry_ok (self : MultiAgentOrchestrator) : Prop :=
  NoDup (Dict.keys (agents self))
  /\ (forall k info, In (k, info) (agents self) -> name info = k)
  /\ (forall d, default_agent self = Some d ->
                Dict.has d (agents self) = true).

(* ================================================================== *)
(** ** The scorer and the discovery as the specification words them *)

Module Spec.

(** A word occurs in the task: case-insensitive substring matching
    against the lower-cased task. *)
Definition occurs (task : string) (w : string) : bool :=
  PyStr.contains (PyStr.lower w) (PyStr.lower task).

(** A token taken from a lower-cased text occurs in the task. *)
Definition occurs_token (task : string) (tok : string) : bool :=
  PyStr.contains tok (PyStr.lower task).

Definition count {A} (p : A -> bool) (l : list A) : nat :=
  List.length (filter p l).

(** The keywords of every agent of the mapping other than the candidate. *)
Definition sibling_keywords (candidate : string)
    (mapping : option (Dict.dict (list string))) : list string :=
  match mapping with
  | Some d =>
      flat_map
        (fun item : string * list string =>
           if String.eqb (fst item) candidate then [] else snd item)
        d
  | None => []
  end.

Definition is_underscore (c : ascii) : bool := Ascii.eqb c "_"%char.

Definition is_underscore_or_space (c : ascii) : bool :=
  Ascii.eqb c "_"%char || PyStr.is_space c.

(** The tokens of the skill ids, for a given class of separators. *)
Definition skill_tokens (sep : ascii -> bool) (self : AgentInfo)
  : list string :=
  flat_map
    (fun skill => PyStr.fields sep (PyStr.lower (skill_get_id skill)))
    (skills self).

(** The contributions, in the order of the five rules. *)
Definition contributions (sep : ascii -> bool) (self : AgentInfo)
    (task : string) (mapping : option (Dict.dict (list string)))
  : list float :=
  repeat f0_5 (count (occurs task) (primary_keywords self))
  ++ repeat (opp f0_3)
       (count (occurs task) (sibling_keywords (name self) mapping))
  ++ repeat f0_2
       (count (fun tag => negb (PyStr.mem (PyStr.lower tag) generic_tags)
                          && occurs task tag)
              (tags self))
  ++ repeat f0_15
       (count (fun tok => (3 <? String.length tok)%nat
                          && occurs_token task tok)
              (skill_tokens sep self))
  ++ repeat f0_25
       (count (fun tok => negb (PyStr.mem tok name_stop_words)
                          && occurs_token task tok)
              (PyStr.findall_words (PyStr.lower (name self)))).

(** The sum of a list of floats, left to right from [0.0]. *)
Definition fsum (l : list float) : float := fold_left add l f0_0.

Definition clamp01 (x : float) : float := py_max f0_0 (py_min x f1_0).

(** The score with skill ids split on underscores only. *)
Definition score_underscore (self : AgentInfo) (task : string)
    (mapping : option (Dict.dict (list string))) : float :=
  clamp01 (fsum (contributions is_underscore self task mapping)).

(** The score with skill ids split on underscores and white space. *)
Definition score (self : AgentInfo) (task : string)
    (mapping : option (Dict.dict (list string))) : float :=
  clamp01 (fsum (contributions is_underscore_or_space self task mapping)).

(** Discovery by completion order: each host settles at some tick; the
    first success is the one with the least tick. *)
Fixpoint earliest (l : list (nat * option AgentInfo))
  : option (nat * AgentInfo) :=
  match l with
  | [] => None
  | (t, Some info) :: r =>
      match earliest r with
      | Some (t', info') =>
          if (t' <? t)%nat then Some (t', info') else Some (t, info)
      | None => Some (t, info)
      end
  | (_, None) :: r => earliest r
  end.

Definition first_by_completion (ticks : list nat)
    (outcomes : list (option AgentInfo)) : option string :=
  option_map (fun p => name (snd p)) (earliest (combine ticks outcomes)).

(** The two spellings of the routing keywords that a card carries. *)
Definition snake_keywords (card : AgentCard) : list string :=
  opt_list (attr_list (card_primary_keywords card)).

Definition camel_keywords (card : AgentCard) : list string :=
  opt_list (attr_list (card_primaryKeywords card)).

End Spec.

(* ================================================================== *)
(** ** Sample agents, cards and registries *)

Module Sample.

Definition handle (n url : string) : A2AAgent :=
  {| a2a_name := n; a2a_description := None; a2a_url := url |}.

(** An agent with the given name, primary keywords and skill ids. *)
Definition mk (n : string) (kws : list string) (ids : list string)
  : AgentInfo :=
  {| agent := handle n ("http://" ++ n);
     host := "http://" ++ n;
     name := n;
     description := EmptyString;
     skills := map (fun i => mkSkill (Some i) None None None None) ids;
     tags := [];
     examples := [];
     primary_keywords := kws |}.

(** A skill id with a blank in it. *)
Definition deck_agent : AgentInfo := mk "helper" [] ["create slides"].

(** A card with routing keywords under [primaryKeywords] and skills with
    the given ids. *)
Definition card (n : string) (kws ids : list string) : AgentCard :=
  {| card_name := n;
     card_description := None;
     card_skills :=
       Attr (map (fun i => mkCardSkill (Some i) None None NoAttr NoAttr) ids);
     card_primary_keywords := NoAttr;
     card_primaryKeywords := Attr kws;
     card_model_extra := NoAttr;
     card_dict := None |}.

(** A card that carries both spellings, with different keywords. *)
Definition card_both : AgentCard :=
  {| card_name := "blog_agent";
     card_description := None;
     card_skills := NoAttr;
     card_primary_keywords := Attr ["blog"];
     card_primaryKeywords := Attr ["article"];
     card_model_extra := NoAttr;
     card_dict := None |}.

Definition unreachable : exn := PyExc "ConnectError" "unreachable".

(** A network: which card each base URL serves. *)
Definition net (url : string) : result AgentCard :=
  if String.eqb url "http://h1" then
    Return (card "blog_agent" ["blog"; "article"] [])
  else if String.eqb url "http://h3" then
    Return (card "ppt_agent" ["ppt"; "slides"] [])
  else if String.eqb url "http://w1" then
    Return (card "writer" ["blog"] [])
  else if String.eqb url "http://w2" then
    Return (card "writer" ["article"] [])
  else if String.eqb url "http://anon" then
    Return (card "" [] [])
  else if String.eqb url "http://one" then
    Return (card "one" ["alpha"] [])
  else if String.eqb url "http://two" then
    Return (card "two" ["beta"] ["data"])
  else if String.eqb url "http://three" then
    Return (card "three" ["gamma"] ["data"])
  else Raise unreachable.

(** Agents that answer every task with one message. *)
Definition run (a : A2AAgent) (task : string) : result (list Message) :=
  Return [mkMessage (Some ("done by " ++ a2a_name a)%string)].

(** Agents whose run raises a [ValueError]. *)
Definition failing_run (a : A2AAgent) (task : string)
  : result (list Message) :=
  Raise (ValueError no_agent_msg).

(** The orchestrator after one batch on a fresh registry. *)
Definition after (hosts : list string) : MultiAgentOrchestrator :=
  fst (fst (discover_all_agents net init hosts)).

Definition two_agents : MultiAgentOrchestrator :=
  after ["http://h1"; "http://h2"; "http://h3"].

Definition anon_first : MultiAgentOrchestrator :=
  after ["http://anon"; "http://h1"].

Definition three_agents : MultiAgentOrchestrator :=
  after ["http://one"; "http://two"; "http://three"].

End Sample.

(* ================================================================== *)
(** ** Registry after a batch, and the driver's host list *)

(** The last agent of a list that carries a given name. *)
Definition last_named (n : string) (l : list AgentInfo) : option AgentInfo :=
  find (fun info => String.eqb (name info) n) (rev l).

(** The names of [l] that are not in [seen], each once, in the order of
    their first occurrence. *)
Fixpoint fresh_names (seen : list string) (l : list string) : list string :=
  match l with
  | [] => []
  | n :: r =>
      if PyStr.mem n seen then fresh_names seen r
      else n :: fresh_names (n :: seen) r
  end.

(** The mapping without the entry of a given agent. *)
Definition without (n : string) (d : Dict.dict (list string))
  : Dict.dict (list string) :=
  filter (fun item : string * list string => negb (String.eqb (fst item) n)) d.

(** Two agents that differ at most in the letter case of their primary
    keywords, tags and skill ids. *)
Definition same_up_to_case (a b : AgentInfo) : Prop :=
  name a = name b
  /\ map PyStr.lower (primary_keywords a) = map PyStr.lower (primary_keywords b)
  /\ map PyStr.lower (tags a) = map PyStr.lower (tags b)
  /\ map (fun s => PyStr.lower (skill_get_id s)) (skills a)
     = map (fun s => PyStr.lower (skill_get_id s)) (skills b).

Definition is_comma (c : ascii) : bool := Ascii.eqb c ","%char.

(** [[host.strip() for host in s.split(",") if host.strip()]] of [main]
    and [interactive_mode]. *)
Definition parse_hosts (a2a_agent_hosts_str : string) : list string :=
  flat_map
    (fun host =>
       if PyStr.truthy (PyStr.strip host) then [PyStr.strip host] else [])
    (PyStr.fields is_comma a2a_agent_hosts_str).

(** The messages of the [ValueError] that [interactive_mode] and [main]
    raise when [A2A_AGENT_HOST] is not set. *)
Definition interactive_not_set_msg : string :=
  "A2A_AGENT_HOST environment variable is not set.".

Definition main_not_set_msg : string :=
  ("A2A_AGENT_HOST environment variable is not set. "
   ++ "Please set it in .env file with comma-separated URLs "
   ++ "(e.g., A2A_AGENT_HOST=https://ppt-agent.example.com,"
   ++ "https://blog-agent.example.com)")%string.

(** What [main] and [interactive_mode] do before the first task: read
    [A2A_AGENT_HOST] ([os.getenv] with default [""]), parse it, discover
    the agents on a new orchestrator, and return without routing when
    none was found. *)
Definition startup (not_set_msg : string)
    (get_agent_card : string -> result AgentCard)
    (env : option string) : result (option MultiAgentOrchestrator) :=
  let a2a_agent_hosts_str :=
    match env with Some s => s | None => EmptyString end in
  if negb (PyStr.truthy a2a_agent_hosts_str) then
    Raise (ValueError not_set_msg)
  else
    let agent_hosts := parse_hosts a2a_agent_hosts_str in
    let '(orchestrator, _, discovered_count) :=
      discover_all_agents get_agent_card init agent_hosts in
    if (discovered_count =? 0)%nat then Return None
    else Return (Some orchestrator).

(** No character of [s] is a comma. *)
Definition comma_free (s : string) : Prop :=
  forall c, In c (list_ascii_of_string s) -> is_comma c = false.

Module Sample2.

(** Agents whose run times out. *)
Definition timing_out_run (a : A2AAgent) (task : string)
  : result (list Message) :=
  Raise (PyExc "TimeoutError" "timed out").

End Sample2.

(* ================================================================== *)
(** ** The agent services: files

    Embedding of the file endpoints of [gh-cli-ppt-agent/main.py] and
    [gh-cli-blog-agent/main.py].  The folder of an agent is taken as a
    snapshot: whether it exists, and its entries in the order in which
    the operating system lists them, each with the [st_mtime] and
    [st_size] of its [stat].  A [filename] is a path parameter of the
    route: it is not empty and contains no [/].  Paths behave as
    [pathlib] does on POSIX up to Python 3.13. *)

Module AgentFiles.

(** What an endpoint returns, or the [HTTPException] it raises. *)
Inductive http (A : Type) : Type :=
| Ok (a : A)
| HTTPException (status_code : nat) (detail : string).

Arguments Ok {A} a.
Arguments HTTPException {A} status_code detail.

Record file : Type := mkFile {
  file_name : string;
  st_mtime : float;
  st_size : N
}.

Record folder : Type := mkFolder {
  folder_path : string;
  folder_exists : bool;
  entries : list file
}.

(** [name.rfind('.')], when there is a dot. *)
Fixpoint rfind_dot (name : string) : option nat :=
  match name with
  | EmptyString => None
  | String c r =>
      match rfind_dot r with
      | Some i => Some (S i)
      | None => if Ascii.eqb c "."%char then Some 0 else None
      end
  end.

(** [PurePath.suffix] of a path whose final component is [name]:
    [name[i:]] for [i = name.rfind('.')] when [0 < i < len(name) - 1],
    and the empty string otherwise. *)
Definition suffix (name : string) : string :=
  match rfind_dot name with
  | Some i =>
      if (0 <? i)%nat && (i <? String.length name - 1)%nat
      then substring i (String.length name - i) name
      else EmptyString
  | None => EmptyString
  end.

(** [s.endswith(suf)]. *)
Definition ends_with (suf s : string) : bool :=
  (String.length suf <=? String.length s)%nat
  && String.eqb
       (substring (String.length s - String.length suf) (String.length suf) s)
       suf.

(** A name matches the pattern [pre*suf]: it starts with [pre] and what
    follows ends with [suf]. *)
Definition matches_pattern (pre suf name : string) : bool :=
  prefix pre name
  && ends_with suf
       (substring (String.length pre)
          (String.length name - String.length pre) name).

(** [Path(folder).glob(pre*suf)]: the matching entries, hidden files and
    directories included; nothing when the folder does not exist. *)
Definition glob (d : folder) (pre suf : string) : list file :=
  if folder_exists d
  then filter (fun f => matches_pattern pre suf (file_name f)) (entries d)
  else [].

(** [(Path(folder) / filename).exists()]. *)
Definition path_exists (d : folder) (filename : string) : bool :=
  if String.eqb filename "." || String.eqb filename ".."
  then folder_exists d
  else folder_exists d
       && existsb (fun f => String.eqb (file_name f) filename) (entries d).

(** The final component of [Path(folder) / filename]; [folder_name] is
    the final component of the folder. *)
Definition path_name (folder_name filename : string) : string :=
  if String.eqb filename "." then folder_name else filename.

(** [str(Path(folder) / filename)]. *)
Definition path_str (d : folder) (filename : string) : string :=
  if String.eqb filename "." then folder_path d
  else (folder_path d ++ "/" ++ filename)%string.

Record FileResponse : Type := mkFileResponse {
  fr_path : string;
  fr_filename : string;
  fr_media_type : string
}.

Definition allowed_extensions : list string :=
  [".pptx"; ".ppt"; ".pdf"; ".md"].

Definition media_types : Dict.dict string :=
  [(".pptx",
    "application/vnd.openxmlformats-officedocument.presentationml.presentation");
   (".ppt", "application/vnd.ms-powerpoint");
   (".pdf", "application/pdf");
   (".md", "text/markdown")].

(** [d.get(k, default)]. *)
Definition get_default {V} (d : Dict.dict V) (k : string) (default : V) : V :=
  match Dict.get k d with Some v => v | None => default end.

(** [download_ppt] of the PPT agent. *)
Definition download_ppt (d : folder) (filename : string)
  : http FileResponse :=
  if negb (path_exists d filename) then
    HTTPException 404 ("PPT file '" ++ filename ++ "' not found")%string
  else
    let suffix_lower := PyStr.lower (suffix (path_name "ppt" filename)) in
    if negb (PyStr.mem suffix_lower allowed_extensions) then
      HTTPException 400 "Only presentation files are allowed"
    else
      Ok {| fr_path := path_str d filename;
            fr_filename := filename;
            fr_media_type :=
              get_default media_types suffix_lower
                "application/octet-stream" |}.

(** [download_blog] of the blog agent. *)
Definition download_blog (d : folder) (filename : string)
  : http FileResponse :=
  if negb (path_exists d filename) then
    HTTPException 404 ("Blog file '" ++ filename ++ "' not found")%string
  else if negb (String.eqb (suffix (path_name "blog" filename)) ".md") then
    HTTPException 400 "Only .md files are allowed"
  else
    Ok {| fr_path := path_str d filename;
          fr_filename := filename;
          fr_media_type := "text/markdown" |}.

(** One entry of a listing. *)
Record listed : Type := mkListed {
  l_filename : string;
  l_download_url : string;
  l_size : N;
  l_modified : string
}.

Record listing : Type := mkListing {
  items : list listed;
  total : nat
}.

(** The files that [list_ppts] and [execute_task] of the PPT agent look
    at: the four patterns in turn. *)
Definition ppt_files (d : folder) : list file :=
  flat_map (fun ext => glob d EmptyString ext) allowed_extensions.

(** [sorted(l, reverse=True)] on elements compared with [<]: reversed,
    sorted stably in ascending order, reversed again. *)
Section SortedBy.

Variable A : Type.
Variable lt : A -> A -> bool.

Fixpoint insert_by (x : A) (l : list A) : list A :=
  match l with
  | [] => [x]
  | y :: r => if lt y x then y :: insert_by x r else x :: y :: r
  end.

Fixpoint sort_by (l : list A) : list A :=
  match l with
  | [] => []
  | x :: r => insert_by x (sort_by r)
  end.

Definition sorted_reverse (l : list A) : list A := rev (sort_by (rev l)).

End SortedBy.

(** Paths of one folder compare as their final components do, and
    these as [str] does: by code points, a proper prefix first. *)
Definition path_lt (f g : file) : bool :=
  String.ltb (file_name f) (file_name g).

Section Listings.

(** [datetime.fromtimestamp(t).isoformat()]. *)
Variable isoformat : float -> string.

(** [list_ppts]: the most recently modified first.  The snapshot is
    consistent, so that no [stat] fails and the [except] branch, which
    turns a failure into the status 500, is not taken. *)
Definition list_ppts (d : folder) : http listing :=
  let ppts :=
    map (fun ppt_file =>
           {| l_filename := file_name ppt_file;
              l_download_url := ("/ppt/" ++ file_name ppt_file)%string;
              l_size := st_size ppt_file;
              l_modified := isoformat (st_mtime ppt_file) |})
        (list_sort_reverse st_mtime (ppt_files d)) in
  Ok {| items := ppts; total := List.length ppts |}.

(** [list_blogs]: the names in descending order. *)
Definition list_blogs (d : folder) : http listing :=
  let blogs :=
    map (fun blog_file =>
           {| l_filename := file_name blog_file;
              l_download_url := ("/blog/" ++ file_name blog_file)%string;
              l_size := st_size blog_file;
              l_modified := isoformat (st_mtime blog_file) |})
        (sorted_reverse path_lt (glob d "blog-" ".md")) in
  Ok {| items := blogs; total := List.length blogs |}.

End Listings.

(** [max(files, key=lambda p: p.stat().st_mtime)]: the first file among
    those that none exceeds. *)
Fixpoint max_by_mtime (best : file) (l : list file) : file :=
  match l with
  | [] => best
  | f :: r =>
      if gtb (st_mtime f) (st_mtime best) then max_by_mtime f r
      else max_by_mtime best r
  end.

End AgentFiles.

Module SampleFiles.

Import AgentFiles.

Definition at_time (seconds : positive) : float := PyFloat.of_pos seconds.

(** A PPT folder: a deck with an upper-case extension, two decks, notes,
    and a file whose whole name is an extension. *)
Definition ppt_folder : folder :=
  {| folder_path := "/app/ppt";
     folder_exists := true;
     entries :=
       [ mkFile "intro.pptx" (at_time 100) 2048;
         mkFile "OLD.PPTX" (at_time 50) 1024;
         mkFile ".md" (at_time 300) 7;
         mkFile "k8s.pdf" (at_time 200) 4096;
         mkFile "notes.txt" (at_time 400) 12 ] |}.

Definition blog_folder : folder :=
  {| folder_path := "/app/blog";
     folder_exists := true;
     entries :=
       [ mkFile "blog-2026-01-30.md" (at_time 100) 900;
         mkFile "README.MD" (at_time 50) 10;
         mkFile "blog-2026-02-02.md" (at_time 300) 1200;
         mkFile "draft.md" (at_time 200) 300 ] |}.

(** A clock that prints every time as the same text. *)
Definition isoformat (t : float) : string := "1970-01-01T00:00:00".

End SampleFiles.

(* ================================================================== *)
(** ** The agent services: the A2A endpoint and the task endpoint

    Embedding of [process_a2a_message_streaming], [process_a2a_message],
    [generate_sse_response], [a2a_jsonrpc_endpoint] and [execute_task] of
    [gh-cli-ppt-agent/main.py] and [gh-cli-blog-agent/main.py].  The two
    files differ, in these functions, in the texts of [agent_texts] and
    in the files that [execute_task] looks at.

    - A request body is the value that [json.loads] gives: a [json].
    - The Copilot SDK is the environment: [create_session], with the
      registration of the handler, gives a session or raises, and a
      session maps the prompt to its [Run].  A [delta_content] is a
      [str], and what the SDK raises is an [Exception]; [msg] of an
      exception is its [str].
    - [uuid4 i] is what the [i]-th call of [uuid.uuid4] returns while
      one request is served, as a [str].
    - An asynchronous generator is the list of what it yields, with
      the exception that ends it when it raises. *)

From Stdlib Require Import DecimalString.

Module A2AService.

Import AgentFiles.
Local Open Scope string_scope.

#[warning="-register-all"]
Inductive json : Type :=
| JNull
| JBool (b : bool)
| JInt (z : Z)
| JFloat (f : float)
| JStr (s : string)
| JArr (l : list json)
| JObj (d : list (string * json)).

(** [type(v).__name__]. *)
Definition type_name (v : json) : string :=
  match v with
  | JNull => "NoneType"
  | JBool _ => "bool"
  | JInt _ => "int"
  | JFloat _ => "float"
  | JStr _ => "str"
  | JArr _ => "list"
  | JObj _ => "dict"
  end.

(** [bool(v)]. *)
Definition truthy (v : json) : bool :=
  match v with
  | JNull => false
  | JBool b => b
  | JInt z => negb (z =? 0)%Z
  | JFloat f => match f with S754_zero _ => false | _ => true end
  | JStr s => PyStr.truthy s
  | JArr l => match l with [] => false | _ => true end
  | JObj d => Dict.truthy d
  end.

(** [v == s] for a [str] [s]. *)
Definition eq_str (v : json) (s : string) : bool :=
  match v with JStr t => String.eqb t s | _ => false end.

(** [v in l] for a list [l] of [str]. *)
Definition in_strs (v : json) (l : list string) : bool :=
  existsb (eq_str v) l.

Definition AttributeError (msg : string) : exn := PyExc "AttributeError" msg.
Definition TypeError (msg : string) : exn := PyExc "TypeError" msg.
Definition NameError (msg : string) : exn := PyExc "NameError" msg.

Definition dquote : string := String (ascii_of_nat 34) EmptyString.

(** [v.get(k, default)]. *)
Definition get (v : json) (k : string) (default : json) : result json :=
  match v with
  | JObj d =>
      Return (match Dict.get k d with Some x => x | None => default end)
  | _ =>
      Raise (AttributeError
               ("'" ++ type_name v ++ "' object has no attribute 'get'"))
  end.

(** The items of [for part in v]. *)
Definition iter (v : json) : result (list json) :=
  match v with
  | JArr l => Return l
  | JObj d => Return (map JStr (Dict.keys d))
  | JStr s =>
      Return (map (fun c => JStr (String c EmptyString))
                (list_ascii_of_string s))
  | _ =>
      Raise (TypeError ("'" ++ type_name v ++ "' object is not iterable"))
  end.

(** [s += v] for a [str] [s]. *)
Definition add_str (s : string) (v : json) : result string :=
  match v with
  | JStr t => Return (s ++ t)
  | _ =>
      Raise (TypeError
               ("can only concatenate str (not " ++ dquote ++ type_name v
                ++ dquote ++ ") to str"))
  end.

(** [str(e)]. *)
Definition exn_str (e : exn) : string := let 'PyExc _ m := e in m.

(** [str(n)] for a natural number. *)
Definition str_nat (n : nat) : string :=
  NilEmpty.string_of_uint (Nat.to_uint n).

(** What happens between the creation of the task of [send_and_wait]
    and its end: the number of chunks received at each check of the
    heartbeat loop, the [delta_content] of the
    [ASSISTANT_MESSAGE_DELTA] events in order, and the exception that
    [send_and_wait] raises, if any. *)
Record Run : Type := mkRun {
  beats : list nat;
  chunks : list string;
  raised : option exn
}.

(** A session: the run of a prompt. *)
Definition Session : Type := string -> Run.

(** An initialised client: the session that [create_session] gives and
    [session.on] accepts, or what one of them raises. *)
Definition CopilotClient : Type := result Session.

(** The texts in which the two agents differ. *)
Record agent_texts : Type := mkTexts {
  processing : string;
  still : string;
  completed : string
}.

Definition ppt_texts : agent_texts :=
  {| processing := "Processing your PPT request...";
     still := "Still generating PPT... (";
     completed := "PPT generation completed successfully." |}.

Definition blog_texts : agent_texts :=
  {| processing := "Processing your request...";
     still := "Still processing... (";
     completed := "Task completed successfully." |}.

(** [[{"kind": "text", "text": text}]]. *)
Definition text_parts (text : string) : json :=
  JArr [JObj [("kind", JStr "text"); ("text", JStr text)]].

(** A status event with a message. *)
Definition status_update (jsonrpc request_id context_id task_id : json)
    (final : bool) (state message_id text : string) : json :=
  JObj
    [("jsonrpc", jsonrpc);
     ("id", request_id);
     ("result",
      JObj
        [("contextId", context_id);
         ("taskId", task_id);
         ("final", JBool final);
         ("status",
          JObj
            [("state", JStr state);
             ("message",
              JObj
                [("messageId", JStr message_id);
                 ("role", JStr "agent");
                 ("parts", text_parts text)])]);
         ("kind", JStr "status-update")])].

(** An artifact event. *)
Definition artifact_update (jsonrpc request_id context_id task_id : json)
    (artifact_id text : string) : json :=
  JObj
    [("jsonrpc", jsonrpc);
     ("id", request_id);
     ("result",
      JObj
        [("contextId", context_id);
         ("taskId", task_id);
         ("artifact",
          JObj
            [("artifactId", JStr artifact_id);
             ("parts", text_parts text)]);
         ("kind", JStr "artifact-update")])].

(** The status event of [tasks/get]: no message. *)
Definition task_status (jsonrpc request_id context_id task_id : json) : json :=
  JObj
    [("jsonrpc", jsonrpc);
     ("id", request_id);
     ("result",
      JObj
        [("contextId", context_id);
         ("taskId", task_id);
         ("final", JBool true);
         ("status", JObj [("state", JStr "completed")]);
         ("kind", JStr "status-update")])].

(** A JSON-RPC error event. *)
Definition error_event (jsonrpc request_id : json) (code : Z)
    (message : string) : json :=
  JObj
    [("jsonrpc", jsonrpc);
     ("id", request_id);
     ("error", JObj [("code", JInt code); ("message", JStr message)])].

(** The text that the heartbeat number [heartbeat_count] carries. *)
Definition heartbeat_text (t : agent_texts)
    (heartbeat_count received : nat) : string :=
  still t ++ str_nat (heartbeat_count * 5) ++ "s elapsed, "
  ++ str_nat received ++ " chunks received)".

(** [''.join(response_chunks)], or the text of the agent when that is
    empty. *)
Definition response_text (t : agent_texts) (r : Run) : string :=
  let response_text := PyStr.join EmptyString (chunks r) in
  if PyStr.truthy response_text then response_text else completed t.

(** Where an object of nested dictionaries holds a value. *)
Fixpoint at_path (path : list string) (v : json) : option json :=
  match path with
  | [] => Some v
  | k :: rest =>
      match v with
      | JObj d =>
          match Dict.get k d with
          | Some x => at_path rest x
          | None => None
          end
      | _ => None
      end
  end.

(** An event that closes a task: [result.final] is [True]. *)
Definition is_final (ev : json) : bool :=
  match at_path ["result"; "final"] ev with
  | Some (JBool true) => true
  | _ => false
  end.

(** A JSON-RPC error: the event has the key [error]. *)
Definition is_error (ev : json) : bool :=
  match ev with JObj d => Dict.has "error" d | _ => false end.

Definition state_of (ev : json) : option json :=
  at_path ["result"; "status"; "state"] ev.

(** The parts of the message of a status event. *)
Definition status_parts (ev : json) : option json :=
  at_path ["result"; "status"; "message"; "parts"] ev.

(** The parts of the artifact of an artifact event. *)
Definition artifact_parts (ev : json) : option json :=
  at_path ["result"; "artifact"; "parts"] ev.

Section Service.

(** [json.dumps], [repr] of a value that is not a [str], and
    [uuid.uuid4]. *)
Variable dumps : json -> string.
Variable repr : json -> string.
Variable uuid4 : nat -> string.

(** [str(v)]. *)
Definition py_str (v : json) : string :=
  match v with JStr s => s | _ => repr v end.

(** What a generator yields for an event. *)
Definition sse (ev : json) : string :=
  "data: " ++ dumps ev ++ newline ++ newline.

(** The heartbeat loop: one event for each check that finds the task
    not done; [n] calls of [uuid4] and [heartbeat_count] heartbeats
    precede. *)
Fixpoint heartbeats (t : agent_texts)
    (jsonrpc request_id task_id context_id : json)
    (n heartbeat_count : nat) (received : list nat) : list json :=
  match received with
  | [] => []
  | len_response_chunks :: rest =>
      let heartbeat_count := S heartbeat_count in
      status_update jsonrpc request_id context_id task_id false "working"
        (uuid4 n) (heartbeat_text t heartbeat_count len_response_chunks)
      :: heartbeats t jsonrpc request_id task_id context_id (S n)
           heartbeat_count rest
  end.

(** The events of [process_a2a_message_streaming]; [n] calls of [uuid4]
    precede. *)
Definition streaming_events (t : agent_texts)
    (copilot_client : option CopilotClient) (message_text : string)
    (jsonrpc request_id task_id context_id : json) (n : nat) : list json :=
  let message_id_working := uuid4 n in
  let message_id_complete := uuid4 (n + 1) in
  let artifact_id := uuid4 (n + 2) in
  let status_event :=
    status_update jsonrpc request_id context_id task_id false "working"
      message_id_working (processing t) in
  status_event ::
  match copilot_client with
  | None =>
      [status_update jsonrpc request_id context_id task_id true "failed"
         (uuid4 (n + 3)) "Agent not initialized"]
  | Some (Raise e) =>
      [status_update jsonrpc request_id context_id task_id true "failed"
         (uuid4 (n + 3)) ("Error: " ++ exn_str e)]
  | Some (Return session) =>
      let r := session message_text in
      (heartbeats t jsonrpc request_id task_id context_id (n + 3) 0 (beats r)
       ++ match raised r with
          | Some e =>
              [status_update jsonrpc request_id context_id task_id true
                 "failed" (uuid4 (n + 3 + List.length (beats r)))
                 ("Error: " ++ exn_str e)]
          | None =>
              let response_text := response_text t r in
              [artifact_update jsonrpc request_id context_id task_id
                 artifact_id response_text;
               status_update jsonrpc request_id context_id task_id true
                 "completed" message_id_complete response_text]
          end)%list
  end.

(** [process_a2a_message_streaming]. *)
Definition process_a2a_message_streaming (t : agent_texts)
    (copilot_client : option CopilotClient) (message_text : string)
    (jsonrpc request_id task_id context_id : json) (n : nat) : list string :=
  map sse
    (streaming_events t copilot_client message_text jsonrpc request_id
       task_id context_id n).

(** [process_a2a_message]. *)
Definition process_a2a_message (t : agent_texts)
    (copilot_client : option CopilotClient) (message_text : string) : string :=
  match copilot_client with
  | None => "Agent not initialized"
  | Some (Raise e) => "Error: " ++ exn_str e
  | Some (Return session) =>
      let r := session message_text in
      match raised r with
      | Some e => "Error: " ++ exn_str e
      | None => response_text t r
      end
  end.

(** The events of [generate_sse_response]. *)
Definition sse_response_events (t : agent_texts)
    (jsonrpc request_id task_id context_id : json) (result_text : string)
    (n : nat) : list json :=
  let message_id_working := uuid4 n in
  let message_id_complete := uuid4 (n + 1) in
  let artifact_id := uuid4 (n + 2) in
  [status_update jsonrpc request_id context_id task_id false "working"
     message_id_working (processing t);
   artifact_update jsonrpc request_id context_id task_id artifact_id
     result_text;
   status_update jsonrpc request_id context_id task_id true "completed"
     message_id_complete result_text].

(** [generate_sse_response]. *)
Definition generate_sse_response (t : agent_texts)
    (jsonrpc request_id task_id context_id : json) (result_text : string)
    (n : nat) : list string :=
  map sse
    (sse_response_events t jsonrpc request_id task_id context_id
       result_text n).

(** The loop of [a2a_jsonrpc_endpoint] over the parts: the text of
    every part that has the kind [text] or the key [text]. *)
Fixpoint extract_text (message_text : string) (parts : list json)
  : result string :=
  match parts with
  | [] => Return message_text
  | part :: rest =>
      kind <- get part "kind" JNull ;;
      message_text <-
        (if eq_str kind "text"
            || match part with JObj d => Dict.has "text" d | _ => false end
         then
           text <- get part "text" (JStr EmptyString) ;;
           add_str message_text text
         else Return message_text) ;;
      extract_text message_text rest
  end.

(** The [text] of a part: that of an object whose key [text] holds a
    [str]. *)
Definition part_text (part : json) : option string :=
  match part with
  | JObj d =>
      match Dict.get "text" d with Some (JStr s) => Some s | _ => None end
  | _ => None
  end.

(** The texts of the parts, in order. *)
Definition part_texts (parts : list json) : list string :=
  flat_map
    (fun part => match part_text part with Some s => [s] | None => [] end)
    parts.

(** A part is an object, and its [text], if it has one, is a [str]. *)
Definition part_ok (part : json) : bool :=
  match part with
  | JObj d =>
      match Dict.get "text" d with
      | Some (JStr _) | None => true
      | Some _ => false
      end
  | _ => false
  end.

(** A [StreamingResponse]: what its generator yields, and the exception
    that the generator raises after that, if any. *)
Record StreamingResponse : Type := mkStreamingResponse {
  content : list string;
  raises : option exn;
  media_type : string;
  headers : list (string * string)
}.

Definition streaming_methods : list string :=
  ["message/send"; "message/stream"; "tasks/send"; "tasks/sendSubscribe"].

(** [value or str(uuid.uuid4())]: the value and the number of calls of
    [uuid4] so far. *)
Definition or_uuid4 (value : json) (n : nat) : json * nat :=
  if truthy value then (value, n) else (JStr (uuid4 n), S n).

(** The body of the [try] of [a2a_jsonrpc_endpoint]. *)
Definition a2a_dispatch (t : agent_texts)
    (copilot_client : option CopilotClient) (request_json : result json)
  : result StreamingResponse :=
  body <- request_json ;;
  _ <- get body "method" (JStr "unknown") ;;
  jsonrpc <- get body "jsonrpc" (JStr "2.0") ;;
  request_id <- get body "id" JNull ;;
  method <- get body "method" (JStr EmptyString) ;;
  params <- get body "params" (JObj []) ;;
  if in_strs method streaming_methods then
    message <- get params "message" (JObj []) ;;
    parts <- get message "parts" (JArr []) ;;
    parts <- iter parts ;;
    message_text <- extract_text EmptyString parts ;;
    let message_text :=
      if PyStr.truthy message_text then message_text else py_str params in
    id <- get params "id" JNull ;;
    let '(task_id, n) := or_uuid4 id 0 in
    contextId <- get params "contextId" JNull ;;
    let '(context_id, n) := or_uuid4 contextId n in
    Return
      {| content :=
           process_a2a_message_streaming t copilot_client message_text
             jsonrpc request_id task_id context_id n;
         raises := None;
         media_type := "text/event-stream";
         headers :=
           [("Cache-Control", "no-cache");
            ("Connection", "keep-alive");
            ("X-Accel-Buffering", "no")] |}
  else if eq_str method "tasks/get" then
    task_id <- get params "id" (JStr "unknown") ;;
    contextId <- get params "contextId" JNull ;;
    let '(context_id, _) := or_uuid4 contextId 0 in
    Return
      {| content := [sse (task_status jsonrpc request_id context_id task_id)];
         raises := None;
         media_type := "text/event-stream";
         headers := [] |}
  else
    Return
      {| content :=
           [sse (error_event jsonrpc request_id (-32601)
                   ("Method not found: " ++ py_str method))];
         raises := None;
         media_type := "text/event-stream";
         headers := [] |}.

(** What the free variable [e] of [exception_sse] raises when it is
    read after the [except] clause that bound it has ended (the text is
    that of Python 3.11 and later). *)
Definition unbound_e : exn :=
  NameError
    ("cannot access free variable 'e' where it is not associated with a "
     ++ "value in enclosing scope").

(** [a2a_jsonrpc_endpoint]; [request_json] is what [request.json()]
    gives or raises.  The [except] clause returns the generator
    [exception_sse] without running it; the generator refers to the
    exception [e] of the clause, which Python unbinds when the clause
    ends.  So its first step, which builds the event of code -32603
    from [str(e)], raises a [NameError], and it yields nothing. *)
Definition a2a_jsonrpc_endpoint (t : agent_texts)
    (copilot_client : option CopilotClient) (request_json : result json)
  : StreamingResponse :=
  match a2a_dispatch t copilot_client request_json with
  | Return response => response
  | Raise e =>
      {| content := [];
         raises := Some unbound_e;
         media_type := "text/event-stream";
         headers := [] |}
  end.

End Service.

(** The response of [execute_task]; [file_path] is [ppt_path] in the
    one agent and [blog_path] in the other. *)
Record TaskResponse : Type := mkTaskResponse {
  result_text : string;
  agent_name : string;
  file_path : option string;
  download_url : option string
}.

(** What distinguishes [execute_task] of the two agents: the name, the
    prompt made of the task, the files looked at, the route of the
    downloads, and the text of an empty response. *)
Record task_agent : Type := mkTaskAgent {
  ta_name : string;
  enhanced_prompt : string -> string;
  generated_files : folder -> list file;
  route : string;
  generated : string
}.

Definition ppt_prompt (task : string) : string :=
  newline ++ task ++ newline ++ newline
  ++ "Please follow the PPT Skill guidelines:" ++ newline
  ++ "1. Research the topic thoroughly" ++ newline
  ++ "2. Create well-structured presentation slides" ++ newline
  ++ "3. Include practical code examples where relevant" ++ newline
  ++ "4. Save the presentation in the ppt folder" ++ newline
  ++ "5. Follow all the requirements specified in the skill documentation"
  ++ newline ++ "        ".

(** [today] is [datetime.now().strftime('%Y-%m-%d')]. *)
Definition blog_prompt (today : string) (task : string) : string :=
  newline ++ task ++ newline ++ newline
  ++ "Please follow the Blog Skill guidelines:" ++ newline
  ++ "1. Use DeepSearch to research each section thoroughly" ++ newline
  ++ "2. Write from a technical evangelist perspective - be engaging, "
  ++ "inspiring, and enthusiastic" ++ newline
  ++ "3. Include practical code examples" ++ newline
  ++ "4. Save the blog as blog-" ++ today ++ ".md in the blog folder"
  ++ newline
  ++ "5. Include proper metadata, SEO optimization, and citations"
  ++ newline ++ "        ".

Definition ppt_task_agent : task_agent :=
  {| ta_name := "ppt_agent";
     enhanced_prompt := ppt_prompt;
     generated_files := ppt_files;
     route := "/ppt/";
     generated := "PPT generated successfully. Check the ppt folder." |}.

Definition blog_task_agent (today : string) : task_agent :=
  {| ta_name := "blog_agent";
     enhanced_prompt := blog_prompt today;
     generated_files := fun d => glob d "blog-" ".md";
     route := "/blog/";
     generated := "Blog post generated successfully. Check the blog folder." |}.

(** [execute_task]; [d] is the folder of the agent as it is when
    [send_and_wait] returns, a consistent snapshot with an absolute
    path. *)
Definition execute_task (a : task_agent)
    (copilot_client : option CopilotClient) (d : folder) (task : string)
  : http TaskResponse :=
  match copilot_client with
  | None => HTTPException 503 "Agent not initialized"
  | Some (Raise e) =>
      HTTPException 500 ("Error executing task: " ++ exn_str e)
  | Some (Return session) =>
      let r := session (enhanced_prompt a task) in
      match raised r with
      | Some e => HTTPException 500 ("Error executing task: " ++ exn_str e)
      | None =>
          let response_text := PyStr.join EmptyString (chunks r) in
          let latest :=
            match generated_files a d with
            | [] => None
            | f :: rest => Some (max_by_mtime f rest)
            end in
          Ok {| result_text :=
                  if PyStr.truthy response_text then response_text
                  else generated a;
                agent_name := ta_name a;
                file_path :=
                  option_map
                    (fun latest =>
                       (folder_path d ++ "/" ++ file_name latest)%string)
                    latest;
                download_url :=
                  option_map
                    (fun latest => (route a ++ file_name latest)%string)
                    latest |}
      end
  end.

End A2AService.

Module SampleService.

Import A2AService.
Local Open Scope string_scope.

(** A session that answers in two chunks, seen by two heartbeats. *)
Definition answering_session : Session :=
  fun prompt =>
    {| beats := [0; 1]; chunks := ["Slides "; "ready"]; raised := None |}.

(** A session that times out after one heartbeat. *)
Definition timing_out_session : Session :=
  fun prompt =>
    {| beats := [0]; chunks := ["Sli"];
       raised := Some (PyExc "TimeoutError" "Timeout after 600s") |}.

(** A session that answers without text. *)
Definition silent_session : Session :=
  fun prompt => {| beats := [0]; chunks := []; raised := None |}.

Definition answering : CopilotClient := Return answering_session.
Definition timing_out : CopilotClient := Return timing_out_session.
Definition silent : CopilotClient := Return silent_session.

Definition uuid4 (i : nat) : string := "uuid-" ++ str_nat i.

(** Stand-ins for the printers, which no statement looks into. *)
Definition dumps (v : json) : string := type_name v.
Definition repr (v : json) : string := type_name v.

Definition request (method : string) (params : json) : json :=
  JObj [("jsonrpc", JStr "2.0"); ("id", JStr "req-1");
        ("method", JStr method); ("params", params)].

Definition message_of (parts : list json) : json :=
  JObj [("message", JObj [("role", JStr "user"); ("parts", JArr parts)])].

End SampleService.

(* ================================================================== *)
(** * Properties *)

(** ** Floats: literals, order and clamping *)

(** The literals are the doubles of Python: sign, 53-bit mantissa and
    exponent of [0x3FD3333333333333] (0.3), [0x3FC999999999999A] (0.2),
    [0x3FC3333333333333] (0.15) and [0x3FB999999999999A] (0.1); 0.5, 0.25
    and 1.0 are powers of two. *)
Example literals_are_doubles :
  f0_3 = S754_finite false 0x13333333333333 (-54)
  /\ f0_2 = S754_finite false 0x1999999999999A (-55)
  /\ f0_15 = S754_finite false 0x13333333333333 (-55)
  /\ f0_1 = S754_finite false 0x1999999999999A (-56)
  /\ f0_5 = S754_finite false (2 ^ 52) (-53)
  /\ f0_25 = S754_finite false (2 ^ 52) (-54)
  /\ f1_0 = S754_finite false (2 ^ 52) (-52).
Proof. repeat split. Qed.

(** [0.5 - 0.3 - 0.3 + 0.2] is [0.10000000000000003], above the
    threshold; [0.5 - 0.3 - 0.3 + 0.15] is [0.05000000000000002]. *)
Example sums_round :
  add (sub (sub (add f0_0 f0_5) f0_3) f0_3) f0_2
  = S754_finite false 0x1999999999999C (-56)
  /\ add (sub (sub (add f0_0 f0_5) f0_3) f0_3) f0_15
     = S754_finite false 0x1999999999999C (-57).
Proof. split; vm_compute; reflexivity. Qed.

Lemma sub_add_opp (x y : float) : sub x y = add x (opp y).
Proof.
  unfold sub, add, opp.
  destruct x as [sx| sx| |sx mx ex], y as [sy| sy| |sy my ey];
    simpl; try reflexivity;
    try (destruct sx, sy; reflexivity).
Qed.

Lemma compare_antisym (x y : float) (c : comparison) :
  SFcompare x y = Some c -> SFcompare y x = Some (CompOpp c).
Proof.
  destruct x as [sx| sx| |sx mx ex], y as [sy| sy| |sy my ey];
    simpl; try discriminate; intros [= <-];
    try reflexivity;
    try (destruct sx; reflexivity);
    try (destruct sy; reflexivity);
    try (destruct sx, sy; reflexivity).
  f_equal.
  change (Pos.compare_cont Eq mx my) with (Pos.compare mx my).
  change (Pos.compare_cont Eq my mx) with (Pos.compare my mx).
  rewrite (Z.compare_antisym ex ey), (Pos.compare_antisym mx my).
  destruct sx, sy; simpl; try reflexivity;
    destruct (ex ?= ey)%Z; simpl; try reflexivity;
    rewrite ?CompOpp_involutive; reflexivity.
Qed.

Lemma ltb_irrefl (x : float) : ltb x x = false.
Proof.
  unfold ltb, SFltb.
  destruct x as [sx| sx| |sx mx ex]; simpl; try reflexivity.
  - destruct sx; reflexivity.
  - rewrite Z.compare_refl, Pos.compare_cont_refl. destruct sx; reflexivity.
Qed.

Ltac split_compares :=
  repeat match goal with
    | |- context [Pos.compare_cont Eq ?a ?b] =>
        change (Pos.compare_cont Eq a b) with (Pos.compare a b)
    end;
  repeat match goal with
    | |- context [(?a ?= ?b)%Z] => destruct (Z.compare_spec a b)
    | |- context [(?a ?= ?b)%positive] => destruct (Pos.compare_spec a b)
    end.

Ltac order_cases x y z :=
  unfold ltb, SFltb, is_nan;
  destruct x as [[|]|[|]| |[|] ? ?], y as [[|]|[|]| |[|] ? ?],
    z as [[|]|[|]| |[|] ? ?];
  simpl; try (intros; (reflexivity || discriminate));
  split_compares; simpl; intros;
  try (reflexivity || discriminate); subst; lia.

Lemma ltb_trans (x y z : float) :
  ltb x y = true -> ltb y z = true -> ltb x z = true.
Proof. order_cases x y z. Qed.

Lemma ltb_negtrans (x y z : float) :
  is_nan x = false -> is_nan y = false -> is_nan z = false ->
  ltb x y = false -> ltb y z = false -> ltb x z = false.
Proof. order_cases x y z. Qed.

Lemma leb_not_ltb (x y : float) :
  is_nan x = false -> is_nan y = false ->
  leb x y = negb (ltb y x).
Proof.
  intros Hx Hy. unfold leb, ltb, SFleb, SFltb.
  destruct (SFcompare x y) as [c|] eqn:E.
  - rewrite (compare_antisym _ _ E). destruct c; reflexivity.
  - destruct x, y; simpl in *; discriminate.
Qed.

Lemma ltb_leb (x y : float) : ltb x y = true -> leb x y = true.
Proof.
  unfold ltb, leb, SFltb, SFleb.
  destruct (SFcompare x y) as [[| |]|]; intros; (reflexivity || discriminate).
Qed.

Lemma ltb_not_nan_r (x y : float) : ltb x y = true -> is_nan y = false.
Proof.
  unfold ltb, SFltb.
  destruct x, y; simpl; intros; (reflexivity || discriminate).
Qed.

Lemma clamp01_not_nan (x : float) : is_nan (Spec.clamp01 x) = false.
Proof.
  unfold Spec.clamp01, py_max, py_min, gtb.
  destruct (ltb f1_0 x) eqn:H1.
  - reflexivity.
  - destruct (SFltb f0_0 x) eqn:H0.
    + apply (ltb_not_nan_r _ _ H0).
    + reflexivity.
Qed.

Lemma clamp01_bounds (x : float) :
  leb f0_0 (Spec.clamp01 x) = true /\ leb (Spec.clamp01 x) f1_0 = true.
Proof.
  unfold Spec.clamp01, py_max, py_min, gtb.
  destruct (ltb f1_0 x) eqn:H1.
  - split; reflexivity.
  - destruct (SFltb f0_0 x) eqn:H0.
    + split.
      * apply ltb_leb, H0.
      * rewrite leb_not_ltb.
        -- now rewrite H1.
        -- apply (ltb_not_nan_r _ _ H0).
        -- reflexivity.
    + split; reflexivity.
Qed.

(** ** Loops as sums *)

Lemma fold_hits {A} (w : float) (p : A -> bool) (l : list A) (s : float) :
  fold_left (fun score x => if p x then add score w else score) l s
  = fold_left add (repeat w (Spec.count p l)) s.
Proof.
  unfold Spec.count. revert s.
  induction l as [|x l IH]; intros s; simpl.
  - reflexivity.
  - destruct (p x); simpl; apply IH.
Qed.

Lemma fold_misses {A} (w : float) (p : A -> bool) (l : list A) (s : float) :
  fold_left (fun score x => if p x then sub score w else score) l s
  = fold_left add (repeat (opp w) (Spec.count p l)) s.
Proof.
  rewrite <- fold_hits. revert s.
  induction l as [|x l IH]; intros s; simpl.
  - reflexivity.
  - rewrite IH. now rewrite sub_add_opp.
Qed.

Lemma fold_flat_map {A B S} (f : S -> B -> S) (g : A -> list B)
    (l : list A) (s : S) :
  fold_left f (flat_map g l) s
  = fold_left (fun s x => fold_left f (g x) s) l s.
Proof.
  revert s. induction l as [|x l IH]; intros s; simpl.
  - reflexivity.
  - now rewrite fold_left_app, IH.
Qed.

Lemma fold_ext {A S} (f g : S -> A -> S) (l : list A) (s : S) :
  (forall s x, f s x = g s x) -> fold_left f l s = fold_left g l s.
Proof.
  intros H. revert s. induction l as [|x l IH]; intros s; simpl.
  - reflexivity.
  - now rewrite H, IH.
Qed.

Lemma repeat_count_app {A} (w : float) (p : A -> bool) (l1 l2 : list A) :
  repeat w (Spec.count p (l1 ++ l2))
  = repeat w (Spec.count p l1) ++ repeat w (Spec.count p l2).
Proof.
  unfold Spec.count. now rewrite filter_app, length_app, repeat_app.
Qed.

(** ** Tokens of a skill id *)

Lemma flush_filter (cur : string) (l : list string) :
  PyStr.flush cur ++ filter PyStr.truthy l = filter PyStr.truthy (cur :: l).
Proof. destruct cur; reflexivity. Qed.

Lemma is_space_blank : PyStr.is_space " "%char = true.
Proof. reflexivity. Qed.

Lemma split_replace_from (cur s : string) :
  PyStr.runs_from (fun c => negb (PyStr.is_space c)) cur
    (PyStr.replace "_"%char " "%char s)
  = filter PyStr.truthy
      (PyStr.fields_from Spec.is_underscore_or_space cur s).
Proof.
  revert cur. induction s as [|c s IH]; intros cur.
  - simpl. destruct cur; reflexivity.
  - cbn [PyStr.replace PyStr.runs_from PyStr.fields_from].
    unfold Spec.is_underscore_or_space at 1.
    destruct (Ascii.eqb c "_"%char) eqn:Hu.
    + rewrite is_space_blank. cbn [negb orb].
      rewrite IH. apply flush_filter.
    + cbn [orb]. destruct (PyStr.is_space c); cbn [negb].
      * rewrite IH. apply flush_filter.
      * apply IH.
Qed.

Lemma split_replace (s : string) :
  PyStr.split (PyStr.replace "_"%char " "%char s)
  = filter PyStr.truthy (PyStr.fields Spec.is_underscore_or_space s).
Proof. apply split_replace_from. Qed.

Lemma count_filter_implied {A} (p q : A -> bool) (l : list A) :
  (forall x, p x = true -> q x = true) ->
  Spec.count p (filter q l) = Spec.count p l.
Proof.
  intros H. unfold Spec.count. induction l as [|x l IH]; simpl.
  - reflexivity.
  - destruct (q x) eqn:Hq; simpl.
    + destruct (p x); simpl; now rewrite IH.
    + destruct (p x) eqn:Hp.
      * rewrite (H _ Hp) in Hq. discriminate.
      * exact IH.
Qed.

Lemma long_token_truthy (task_lower x : string) :
  (3 <? String.length x)%nat && PyStr.contains x task_lower = true ->
  PyStr.truthy x = true.
Proof. destruct x; simpl; [discriminate | reflexivity]. Qed.

(** ** The five loops of [matches_task] *)

Section Stages.

Variables (self : AgentInfo) (task : string).

Let task_lower := PyStr.lower task.

Lemma stage_keywords (s : float) :
  fold_left
    (fun score keyword =>
       if PyStr.contains (PyStr.lower keyword) task_lower
       then add score f0_5 else score)
    (primary_keywords self) s
  = fold_left add
      (repeat f0_5 (Spec.count (Spec.occurs task) (primary_keywords self))) s.
Proof. exact (fold_hits f0_5 (Spec.occurs task) _ s). Qed.

Lemma stage_siblings (d : Dict.dict (list string)) (s : float) :
  fold_left
    (fun score (item : string * list string) =>
       let (other_agent, other_keywords) := item in
       if negb (String.eqb other_agent (name self)) then
         fold_left
           (fun score keyword =>
              if PyStr.contains (PyStr.lower keyword) task_lower
              then sub score f0_3 else score)
           other_keywords score
       else score)
    d s
  = fold_left add
      (repeat (opp f0_3)
         (Spec.count (Spec.occurs task)
            (Spec.sibling_keywords (name self) (Some d)))) s.
Proof.
  rewrite <- fold_misses. unfold Spec.sibling_keywords.
  rewrite fold_flat_map. apply fold_ext.
  intros s' [other kws]; simpl.
  destruct (String.eqb other (name self)); reflexivity.
Qed.

Lemma stage_tags (s : float) :
  fold_left
    (fun score tag =>
       let tag_lower := PyStr.lower tag in
       if PyStr.mem tag_lower generic_tags then score
       else if PyStr.contains tag_lower task_lower
            then add score f0_2 else score)
    (tags self) s
  = fold_left add
      (repeat f0_2
         (Spec.count
            (fun tag => negb (PyStr.mem (PyStr.lower tag) generic_tags)
                        && Spec.occurs task tag)
            (tags self))) s.
Proof.
  rewrite <- fold_hits. apply fold_ext.
  intros s' tag; cbv zeta.
  destruct (PyStr.mem (PyStr.lower tag) generic_tags); reflexivity.
Qed.

Lemma stage_one_skill (skill : Skill) (s : float) :
  (let skill_id := PyStr.lower (skill_get_id skill) in
   if PyStr.truthy skill_id then
     fold_left
       (fun score kw =>
          if (3 <? String.length kw)%nat && PyStr.contains kw task_lower
          then add score f0_15 else score)
       (PyStr.split (PyStr.replace "_"%char " "%char skill_id)) s
   else s)
  = fold_left
      (fun score kw =>
         if (3 <? String.length kw)%nat && Spec.occurs_token task kw
         then add score f0_15 else score)
      (PyStr.fields Spec.is_underscore_or_space
         (PyStr.lower (skill_get_id skill))) s.
Proof.
  cbv zeta. unfold Spec.occurs_token. fold task_lower.
  destruct (PyStr.lower (skill_get_id skill)) as [|c sid] eqn:E.
  - reflexivity.
  - cbn [PyStr.truthy].
    rewrite 2 (fold_hits f0_15
      (fun kw => (3 <? String.length kw)%nat && PyStr.contains kw task_lower)).
    rewrite split_replace, count_filter_implied.
    + reflexivity.
    + apply long_token_truthy.
Qed.

Lemma stage_skills (s : float) :
  fold_left
    (fun score skill =>
       let skill_id := PyStr.lower (skill_get_id skill) in
       if PyStr.truthy skill_id then
         let skill_keywords :=
           PyStr.split (PyStr.replace "_"%char " "%char skill_id) in
         fold_left
           (fun score kw =>
              if (3 <? String.length kw)%nat && PyStr.contains kw task_lower
              then add score f0_15 else score)
           skill_keywords score
       else score)
    (skills self) s
  = fold_left add
      (repeat f0_15
         (Spec.count
            (fun tok => (3 <? String.length tok)%nat
                        && Spec.occurs_token task tok)
            (Spec.skill_tokens Spec.is_underscore_or_space self))) s.
Proof.
  rewrite <- fold_hits. unfold Spec.skill_tokens.
  rewrite fold_flat_map. apply fold_ext.
  intros s' skill. apply stage_one_skill.
Qed.

Lemma stage_name (s : float) :
  fold_left
    (fun score part =>
       if negb (PyStr.mem part name_stop_words)
          && PyStr.contains part task_lower
       then add score f0_25 else score)
    (PyStr.findall_words (PyStr.lower (name self))) s
  = fold_left add
      (repeat f0_25
         (Spec.count
            (fun tok => negb (PyStr.mem tok name_stop_words)
                        && Spec.occurs_token task tok)
            (PyStr.findall_words (PyStr.lower (name self))))) s.
Proof.
  exact (fold_hits f0_25
           (fun tok => negb (PyStr.mem tok name_stop_words)
                       && Spec.occurs_token task tok) _ s).
Qed.

End Stages.

(** The score is the clamped sum of the contributions, with the skill ids
    split on underscores and white space. *)
Lemma matches_task_contributions (self : AgentInfo) (task : string)
    (mapping : option (Dict.dict (list string))) :
  matches_task self task mapping = Spec.score self task mapping.
Proof.
  unfold matches_task, Spec.score, Spec.contributions, Spec.fsum.
  rewrite !fold_left_app.
  rewrite stage_name, stage_skills, stage_tags.
  unfold Spec.clamp01. do 4 f_equal.
  destruct mapping as [[|item d]|].
  - cbn [Dict.truthy]. rewrite stage_keywords. reflexivity.
  - cbn [Dict.truthy]. rewrite stage_siblings, stage_keywords. reflexivity.
  - rewrite stage_keywords. reflexivity.
Qed.


Lemma count_perm {A} (p : A -> bool) (l l' : list A) :
  Permutation l l' -> Spec.count p l = Spec.count p l'.
Proof.
  unfold Spec.count. induction 1 as [|x l l' _ IH|x y l|l l' l'' _ IH1 _ IH2];
    simpl.
  - reflexivity.
  - destruct (p x); simpl; now rewrite IH.
  - destruct (p x), (p y); reflexivity.
  - now rewrite IH1.
Qed.

(** The score does not depend on the order of the tags. *)
Lemma matches_task_tags_order (info : AgentInfo) (tags' : list string)
    (task : string) (mapping : option (Dict.dict (list string))) :
  Permutation (tags info) tags' ->
  matches_task (with_tags info tags') task mapping
  = matches_task info task mapping.
Proof.
  intros H. rewrite !matches_task_contributions.
  unfold Spec.score, Spec.contributions, Spec.skill_tokens. cbn [with_tags
    primary_keywords name tags skills].
  now rewrite (count_perm _ H).
Qed.
(** ** The stable descending sort *)

Section SortFacts.

Variable A : Type.
Variable key : A -> float.

Local Abbreviation comparable := (comparable key).
Local Abbreviation tied := (tied key).
Local Abbreviation ascending := (ascending key).
Local Abbreviation descending := (descending key).

Lemma insert_asc_perm (x : A) (l : list A) :
  Permutation (insert_asc key x l) (x :: l).
Proof.
  induction l as [|y r IH]; simpl.
  - reflexivity.
  - destruct (ltb (key y) (key x)).
    + rewrite IH. apply perm_swap.
    + reflexivity.
Qed.

Lemma sort_asc_perm (l : list A) : Permutation (sort_asc key l) l.
Proof.
  induction l as [|x r IH]; simpl.
  - reflexivity.
  - rewrite insert_asc_perm. now constructor.
Qed.

Lemma list_sort_reverse_perm (l : list A) :
  Permutation (list_sort_reverse key l) l.
Proof.
  unfold list_sort_reverse.
  rewrite <- Permutation_rev, sort_asc_perm. symmetry. apply Permutation_rev.
Qed.

Lemma ltb_asym (x y : float) : ltb x y = true -> ltb y x = false.
Proof.
  intros H. destruct (ltb y x) eqn:E; [|reflexivity].
  rewrite <- (ltb_irrefl x). symmetry. exact (ltb_trans _ _ _ H E).
Qed.

Lemma insert_asc_sorted (x : A) (l : list A) :
  comparable x -> Forall comparable l ->
  StronglySorted ascending l ->
  StronglySorted ascending (insert_asc key x l).
Proof.
  intros Hx Hl Hs. induction Hs as [|y r Hr IH Hy]; simpl.
  - repeat constructor.
  - inversion Hl as [|? ? Hcy Hcr]; subst.
    destruct (ltb (key y) (key x)) eqn:E.
    + constructor; [now apply IH|].
      eapply Permutation_Forall; [symmetry; apply insert_asc_perm|].
      constructor; [|exact Hy].
      apply ltb_asym, E.
    + constructor; [now constructor|].
      constructor; [exact E|].
      rewrite Forall_forall in Hy, Hcr |- *. intros b Hb.
      apply (ltb_negtrans (key b) (key y) (key x));
        auto; try apply Hcr; try apply Hy; auto.
Qed.

Lemma sort_asc_comparable (l : list A) :
  Forall comparable l -> Forall comparable (sort_asc key l).
Proof.
  intros H. eapply Permutation_Forall; [symmetry; apply sort_asc_perm|exact H].
Qed.

Lemma sort_asc_sorted (l : list A) :
  Forall comparable l -> StronglySorted ascending (sort_asc key l).
Proof.
  induction 1 as [|x r Hx Hr IH]; simpl.
  - constructor.
  - apply insert_asc_sorted; auto using sort_asc_comparable.
Qed.

Lemma StronglySorted_snoc (R : A -> A -> Prop) (l : list A) (x : A) :
  StronglySorted R l -> Forall (fun a => R a x) l ->
  StronglySorted R (l ++ [x]).
Proof.
  induction 1 as [|y r Hr IH Hy]; simpl; intros Hx.
  - repeat constructor.
  - inversion Hx; subst. constructor; [now apply IH|].
    apply Forall_app. split; [exact Hy|]. now repeat constructor.
Qed.

Lemma StronglySorted_rev_flip (R : A -> A -> Prop) (l : list A) :
  StronglySorted R l -> StronglySorted (fun a b => R b a) (rev l).
Proof.
  induction 1 as [|y r Hr IH Hy]; simpl.
  - constructor.
  - apply StronglySorted_snoc; [exact IH|].
    now apply Forall_rev.
Qed.

Lemma list_sort_reverse_sorted (l : list A) :
  Forall comparable l ->
  StronglySorted descending (list_sort_reverse key l).
Proof.
  intros Hl. unfold list_sort_reverse.
  apply (StronglySorted_rev_flip (R := ascending)).
  apply sort_asc_sorted. now apply Forall_rev.
Qed.

Lemma insert_asc_stable (v : float) (x : A) (l : list A) :
  is_nan v = false -> comparable x -> Forall comparable l ->
  filter (tied v) (insert_asc key x l) = filter (tied v) (x :: l).
Proof.
  intros Ha Hx Hl. induction Hl as [|y r Hy Hr IH].
  - reflexivity.
  - cbn [insert_asc]. destruct (ltb (key y) (key x)) eqn:E; [|reflexivity].
    cbn [filter] in *. rewrite IH.
    destruct (tied v y) eqn:Ty; [|reflexivity].
    destruct (tied v x) eqn:Tx; [|reflexivity].
    exfalso. unfold tied in Ty, Tx.
    apply andb_prop in Ty as [_ Ty], Tx as [Tx _].
    apply negb_true_iff in Ty, Tx.
    rewrite (ltb_negtrans (key y) v (key x)) in E; auto; discriminate.
Qed.

Lemma sort_asc_stable (v : float) (l : list A) :
  is_nan v = false -> Forall comparable l ->
  filter (tied v) (sort_asc key l) = filter (tied v) l.
Proof.
  intros Ha Hl. induction Hl as [|x r Hx Hr IH]; simpl.
  - reflexivity.
  - rewrite insert_asc_stable; auto using sort_asc_comparable.
    simpl. now rewrite IH.
Qed.

(** Elements with equal keys keep their order. *)
Lemma list_sort_reverse_stable (v : float) (l : list A) :
  is_nan v = false -> Forall comparable l ->
  filter (tied v) (list_sort_reverse key l) = filter (tied v) l.
Proof.
  intros Ha Hl. unfold list_sort_reverse.
  rewrite filter_rev, sort_asc_stable, filter_rev, rev_involutive;
    auto using Forall_rev.
Qed.

Lemma filter_head_split (p : A -> bool) (l : list A) (x : A) (t : list A) :
  filter p l = x :: t ->
  exists l1 l2, l = l1 ++ x :: l2 /\ Forall (fun a => p a = false) l1.
Proof.
  induction l as [|y r IH]; simpl; [discriminate|].
  destruct (p y) eqn:E.
  - intros [= -> <-]. exists [], r. split; [reflexivity|constructor].
  - intros H. destruct (IH H) as (l1 & l2 & -> & Hl1).
    exists (y :: l1), l2. split; [reflexivity|now constructor].
Qed.

Lemma tied_refl (a : A) : tied (key a) a = true.
Proof. unfold tied. now rewrite ltb_irrefl. Qed.

(** The head of the sorted list is the first element of the input with
    the greatest key: what comes before it is strictly smaller, nothing
    is greater. *)
Lemma list_sort_reverse_head (l : list A) (b : A) (r : list A) :
  Forall comparable l ->
  list_sort_reverse key l = b :: r ->
  exists l1 l2,
    l = l1 ++ b :: l2
    /\ Forall (fun a => ltb (key a) (key b) = true) l1
    /\ Forall (fun a => ltb (key b) (key a) = false) l2.
Proof.
  intros Hl Hs.
  assert (Hperm := list_sort_reverse_perm l).
  assert (Hsorted := list_sort_reverse_sorted Hl).
  rewrite Hs in Hperm, Hsorted.
  assert (Hb : comparable b).
  { rewrite Forall_forall in Hl. apply Hl.
    apply (Permutation_in _ Hperm). now left. }
  assert (Hmax : Forall (fun a => ltb (key b) (key a) = false) l).
  { eapply Permutation_Forall; [exact Hperm|]. constructor.
    - apply ltb_irrefl.
    - apply StronglySorted_inv in Hsorted. apply Hsorted. }
  assert (Hst := @list_sort_reverse_stable (key b) l Hb Hl).
  rewrite Hs in Hst. cbn [filter] in Hst. rewrite tied_refl in Hst.
  symmetry in Hst. apply filter_head_split in Hst as (l1 & l2 & -> & H1).
  exists l1, l2. split; [reflexivity|].
  apply Forall_app in Hmax as [M1 M2]. split.
  - rewrite Forall_forall in H1, M1 |- *. intros a Ha.
    specialize (H1 a Ha). specialize (M1 a Ha).
    unfold tied in H1. rewrite M1 in H1. cbn in H1.
    now destruct (ltb (key a) (key b)).
  - now inversion M2.
Qed.

(** A sorted, stable rearrangement is unique: whatever algorithm
    [list.sort] runs, a result that is in descending order of key and
    keeps the order of equal keys is [list_sort_reverse]. *)
Lemma stable_sorted_unique (l1 l2 : list A) :
  Forall comparable l1 ->
  Permutation l1 l2 ->
  StronglySorted descending l1 ->
  StronglySorted descending l2 ->
  (forall v, is_nan v = false -> filter (tied v) l1 = filter (tied v) l2) ->
  l1 = l2.
Proof.
  revert l2. induction l1 as [|x r1 IH]; intros l2 Hc Hp H1 H2 Hst.
  - now apply Permutation_nil in Hp.
  - destruct l2 as [|y r2].
    { symmetry in Hp. now apply Permutation_nil in Hp. }
    inversion Hc as [|? ? Hx Hr]; subst.
    apply StronglySorted_inv in H1 as [S1 M1].
    apply StronglySorted_inv in H2 as [S2 M2].
    assert (Hyx : ltb (key x) (key y) = false).
    { assert (Hi : In y (x :: r1))
        by (apply (Permutation_in y (Permutation_sym Hp)); now left).
      destruct Hi as [->|Hi]; [apply ltb_irrefl|].
      rewrite Forall_forall in M1.
      exact (M1 y Hi). }
    assert (Hxy : ltb (key y) (key x) = false).
    { assert (Hi : In x (y :: r2))
        by (apply (Permutation_in x Hp); now left).
      destruct Hi as [->|Hi]; [apply ltb_irrefl|].
      rewrite Forall_forall in M2. exact (M2 x Hi). }
    assert (E := Hst (key x) Hx). cbn [filter] in E.
    rewrite tied_refl in E. unfold tied at 2 in E.
    rewrite Hxy, Hyx in E. cbn [negb andb] in E.
    injection E as -> E. f_equal.
    apply IH; auto.
    + now apply Permutation_cons_inv in Hp.
    + intros v Hv. specialize (Hst v Hv). cbn [filter] in Hst.
      destruct (tied v y); [now injection Hst|exact Hst].
Qed.

Lemma list_sort_reverse_unique (l l' : list A) :
  Forall comparable l ->
  Permutation l' l ->
  StronglySorted descending l' ->
  (forall v, is_nan v = false -> filter (tied v) l' = filter (tied v) l) ->
  l' = list_sort_reverse key l.
Proof.
  intros Hc Hp Hs Hst. apply stable_sorted_unique; auto.
  - eapply Permutation_Forall; [symmetry; exact Hp|exact Hc].
  - rewrite Hp. symmetry. apply list_sort_reverse_perm.
  - now apply list_sort_reverse_sorted.
  - intros v Hv. rewrite Hst, list_sort_reverse_stable; auto.
Qed.

End SortFacts.

(** ** Dictionaries *)

Lemma get_set_eq {V} (k : string) (v : V) (d : Dict.dict V) :
  Dict.get k (Dict.set k v d) = Some v.
Proof.
  induction d as [|[k' v'] d IH]; simpl.
  - now rewrite String.eqb_refl.
  - destruct (String.eqb k k') eqn:E; simpl; rewrite ?E, ?String.eqb_refl;
      auto.
Qed.

Lemma get_set_neq {V} (k k' : string) (v : V) (d : Dict.dict V) :
  k' <> k -> Dict.get k' (Dict.set k v d) = Dict.get k' d.
Proof.
  intros Hn. induction d as [|[k0 v0] d IH]; simpl.
  - apply String.eqb_neq in Hn. now rewrite Hn.
  - destruct (String.eqb k k0) eqn:E; simpl.
    + apply String.eqb_eq in E. subst k0.
      apply String.eqb_neq in Hn. now rewrite Hn.
    + now rewrite IH.
Qed.

Lemma has_In {V} (k : string) (d : Dict.dict V) :
  Dict.has k d = true <-> In k (Dict.keys d).
Proof.
  unfold Dict.has. induction d as [|[k' v'] d IH]; simpl.
  - split; [discriminate|tauto].
  - destruct (String.eqb k k') eqn:E.
    + apply String.eqb_eq in E. subst. split; auto.
    + apply String.eqb_neq in E. rewrite IH. split; [auto|].
      intros [H|H]; [congruence|exact H].
Qed.

Lemma has_false_In {V} (k : string) (d : Dict.dict V) :
  Dict.has k d = false <-> ~ In k (Dict.keys d).
Proof.
  rewrite <- has_In. destruct (Dict.has k d); split; congruence.
Qed.

Lemma keys_set {V} (k : string) (v : V) (d : Dict.dict V) :
  Dict.keys (Dict.set k v d)
  = if Dict.has k d then Dict.keys d else Dict.keys d ++ [k].
Proof.
  unfold Dict.has. induction d as [|[k' v'] d IH]; simpl.
  - reflexivity.
  - destruct (String.eqb k k') eqn:E; simpl.
    + apply String.eqb_eq in E. now subst.
    + rewrite IH. now destruct (Dict.get k d).
Qed.


Lemma keys_set_NoDup {V} (k : string) (v : V) (d : Dict.dict V) :
  NoDup (Dict.keys d) -> NoDup (Dict.keys (Dict.set k v d)).
Proof.
  intros Hd. rewrite keys_set. destruct (Dict.has k d) eqn:E; [exact Hd|].
  apply has_false_In in E.
  apply (Permutation_NoDup (l := k :: Dict.keys d)).
  - apply Permutation_cons_append.
  - now constructor.
Qed.

Lemma In_set {V} (k k' : string) (v v' : V) (d : Dict.dict V) :
  In (k', v') (Dict.set k v d) -> (k' = k /\ v' = v) \/ In (k', v') d.
Proof.
  induction d as [|[k0 v0] d IH]; simpl.
  - intros [[= <- <-]|[]]. now left.
  - destruct (String.eqb k k0); simpl.
    + intros [[= <- <-]|H]; auto.
    + intros [H|H]; auto. destruct (IH H); auto.
Qed.

Lemma get_In {V} (k : string) (v : V) (d : Dict.dict V) :
  Dict.get k d = Some v -> In (k, v) d.
Proof.
  induction d as [|[k' v'] d IH]; simpl; [discriminate|].
  destruct (String.eqb k k') eqn:E.
  - apply String.eqb_eq in E. intros [= ->]. subst. now left.
  - auto.
Qed.

Lemma In_get {V} (k : string) (v : V) (d : Dict.dict V) :
  NoDup (Dict.keys d) -> In (k, v) d -> Dict.get k d = Some v.
Proof.
  induction d as [|[k' v'] d IH]; simpl; [tauto|].
  intros Hd [[= -> ->]|H].
  - now rewrite String.eqb_refl.
  - inversion Hd as [|? ? Hk Hd']; subst.
    destruct (String.eqb k k') eqn:E.
    + apply String.eqb_eq in E. subst. exfalso. apply Hk.
      apply (in_map fst) in H. exact H.
    + auto.
Qed.

(** ** Discovery *)

Section DiscoveryFacts.

Variable net : string -> result AgentCard.


Lemma discover_agent_success (host : string) (card : AgentCard) :
  net (PyStr.strip host) = Return card ->
  exists info,
    discover_agent net host = ([], Some info)
    /\ name info = card_name card
    /\ primary_keywords info = extract_primary_keywords card.
Proof.
  intros H. unfold discover_agent. rewrite H.
  destruct (extract_skills card) as [[sk tg] ex].
  eexists. split; [reflexivity|]. simpl. auto.
Qed.

Lemma gather_eq (hosts : list string) :
  gather net hosts
  = (failures net hosts,
     map (fun host => snd (settle (discover_agent net host))) hosts).
Proof.
  unfold gather, failures. f_equal.
  - rewrite flat_map_concat_map, map_map, <- flat_map_concat_map.
    apply flat_map_ext. intros h.
    now destruct (discover_agent net h) as [lg [i|]].
  - now rewrite map_map.
Qed.

Lemma fold_register_hosts (hosts : list string)
    (self : MultiAgentOrchestrator) (log : list log_record) :
  fold_left register
    (map (fun host => snd (settle (discover_agent net host))) hosts) (self, log)
  = ({| agents := insert_all (discovered net hosts) (agents self);
        default_agent := default_after self (discovered net hosts) |}, log).
Proof.
  revert self. induction hosts as [|h r IH]; intros self.
  - simpl. unfold default_after. simpl. destruct self as [ag [d|]]; reflexivity.
  - cbn [map fold_left]. unfold discovered. cbn [flat_map].
    destruct (discover_agent net h) as [lg [info|]]; cbn [settle snd register].
    + rewrite IH. cbn [agents default_agent app]. f_equal. f_equal.
      unfold default_after. cbn [default_agent hd_error option_map].
      now destruct (default_agent self).
    + rewrite IH. reflexivity.
Qed.

(** [discover_all_agents] in closed form. *)
Lemma discover_all_agents_eq (self : MultiAgentOrchestrator)
    (hosts : list string) :
  discover_all_agents net self hosts
  = ({| agents := insert_all (discovered net hosts) (agents self);
        default_agent := default_after self (discovered net hosts) |},
     failures net hosts,
     List.length (insert_all (discovered net hosts) (agents self))).
Proof.
  unfold discover_all_agents.
  rewrite gather_eq, fold_register_hosts. reflexivity.
Qed.

Lemma discovered_app (hosts1 hosts2 : list string) :
  discovered net (hosts1 ++ hosts2)
  = discovered net hosts1 ++ discovered net hosts2.
Proof. apply flat_map_app. Qed.


End DiscoveryFacts.

(** ** Registries built by insertion *)


Lemma insert_all_ok (l : list AgentInfo) (d : Dict.dict AgentInfo) :
  dict_ok d -> dict_ok (insert_all l d).
Proof.
  revert d. induction l as [|i l IH]; intros d [Hn Hk]; simpl.
  - now split.
  - apply IH. split.
    + now apply keys_set_NoDup.
    + intros k info H. apply In_set in H as [[-> ->]|H]; auto.
Qed.

Lemma insert_all_keeps (l : list AgentInfo) (d : Dict.dict AgentInfo)
    (k : string) :
  Dict.has k d = true -> Dict.has k (insert_all l d) = true.
Proof.
  revert d. induction l as [|i l IH]; intros d H; simpl.
  - exact H.
  - apply IH. apply has_In. rewrite keys_set.
    apply has_In in H. destruct (Dict.has (name i) d); [exact H|].
    apply in_or_app. now left.
Qed.

Lemma insert_all_has_head (i : AgentInfo) (l : list AgentInfo)
    (d : Dict.dict AgentInfo) :
  Dict.has (name i) (insert_all (i :: l) d) = true.
Proof.
  simpl. apply insert_all_keeps. unfold Dict.has. now rewrite get_set_eq.
Qed.

Lemma init_ok : registry_ok init.
Proof.
  repeat split; simpl.
  - constructor.
  - intros k info [].
  - discriminate.
Qed.

(** Discovery keeps the registry well formed. *)
Lemma discover_all_agents_ok (net : string -> result AgentCard)
    (self : MultiAgentOrchestrator) (hosts : list string) :
  registry_ok self ->
  registry_ok (fst (fst (discover_all_agents net self hosts))).
Proof.
  intros (Hn & Hk & Hd). rewrite discover_all_agents_eq. cbn [fst].
  destruct (insert_all_ok (discovered net hosts)
              (conj Hn Hk)) as [Hn' Hk'].
  repeat split; cbn [agents default_agent]; auto.
  intros d. unfold default_after.
  destruct (default_agent self) as [d0|] eqn:E.
  - intros [= <-]. now apply insert_all_keeps, Hd.
  - destruct (discovered net hosts) as [|i l]; [discriminate|].
    intros [= <-]. apply insert_all_has_head.
Qed.

(** ** Selection *)

Lemma compute_scores_eq (self : MultiAgentOrchestrator) (task : string) :
  compute_scores self task
  = map (fun item : string * AgentInfo =>
           (fst item, score_of self task (snd item)))
        (agents self).
Proof.
  unfold compute_scores. apply map_ext. now intros [n i].
Qed.

Lemma score_of_not_nan (self : MultiAgentOrchestrator) (task : string)
    (info : AgentInfo) :
  is_nan (score_of self task info) = false.
Proof. unfold score_of, matches_task. apply clamp01_not_nan. Qed.

Lemma scores_comparable (self : MultiAgentOrchestrator) (task : string) :
  Forall (comparable snd) (compute_scores self task).
Proof.
  rewrite compute_scores_eq. apply Forall_map, Forall_forall.
  intros [n i] _. apply score_of_not_nan.
Qed.

(** The head of the ranking is the first registered agent with the
    greatest score. *)
Lemma ranking_head (self : MultiAgentOrchestrator) (task : string) :
  agents self <> [] ->
  exists before best_name best after rest,
    agents self = before ++ (best_name, best) :: after
    /\ ranked_scores self task
       = (best_name, score_of self task best) :: rest
    /\ Forall (fun e : string * AgentInfo =>
                 ltb (score_of self task (snd e)) (score_of self task best)
                 = true) before
    /\ Forall (fun e : string * AgentInfo =>
                 ltb (score_of self task best) (score_of self task (snd e))
                 = false) after.
Proof.
  intros Hne. unfold ranked_scores.
  destruct (list_sort_reverse snd (compute_scores self task))
    as [|[bn bs] rest] eqn:E.
  - exfalso.
    assert (P := list_sort_reverse_perm snd (compute_scores self task)).
    rewrite E in P. apply Permutation_nil in P.
    rewrite compute_scores_eq in P. apply map_eq_nil in P. contradiction.
  - destruct (list_sort_reverse_head (scores_comparable self task) E)
      as (l1 & l2 & Hl & H1 & H2).
    rewrite compute_scores_eq in Hl.
    apply map_eq_app in Hl as (a1 & a2 & Ha & <- & Hm).
    apply map_eq_cons in Hm as ([n best] & after & -> & [= <- <-] & <-).
    exists a1, n, best, after, rest. cbn [fst snd] in *.
    repeat split; auto.
    + now apply Forall_map in H1.
    + now apply Forall_map in H2.
Qed.

Lemma select_agent_ranked (self : MultiAgentOrchestrator) (task : string)
    (best_agent : string) (best_score : float)
    (rest : list (string * float)) :
  agents self <> [] ->
  ranked_scores self task = (best_agent, best_score) :: rest ->
  select_agent self task
  = if gtb best_score f0_1 then
      info <- subscript (agents self) best_agent ;; Return (Some info)
    else
      match default_agent self with
      | Some d =>
          if PyStr.truthy d then
            info <- subscript (agents self) d ;; Return (Some info)
          else Return None
      | None => Return None
      end.
Proof.
  intros Hne Hr. unfold select_agent. rewrite Hr.
  destruct (agents self); [contradiction|reflexivity].
Qed.

Lemma subscript_In {V} (d : Dict.dict V) (k : string) (v : V) :
  NoDup (Dict.keys d) -> In (k, v) d -> subscript d k = Return v.
Proof. intros Hn Hi. unfold subscript. erewrite In_get; eauto. Qed.

Lemma truthy_nonempty (s : string) :
  s <> EmptyString -> PyStr.truthy s = true.
Proof. destruct s; [contradiction|reflexivity]. Qed.

Lemma select_agent_empty (self : MultiAgentOrchestrator) (task : string) :
  agents self = [] -> select_agent self task = Return None.
Proof. intros H. unfold select_agent. now rewrite H. Qed.

Lemma tied_eqb (v w : float) :
  is_nan v = false -> is_nan w = false ->
  negb (ltb v w) && negb (ltb w v) = SFeqb w v.
Proof.
  intros Hv Hw. unfold ltb, SFltb, SFeqb.
  destruct (SFcompare w v) as [c|] eqn:E.
  - rewrite (compare_antisym _ _ E). now destruct c.
  - destruct v, w; simpl in *; discriminate.
Qed.

Lemma send_task_unknown_name
    (run : A2AAgent -> string -> result (list Message))
    (self : MultiAgentOrchestrator) (task : string) (X : string) :
  Dict.has X (agents self) = false ->
  send_task run self task (Some X) = send_task run self task None.
Proof.
  intros H. unfold send_task. rewrite H, andb_false_r. reflexivity.
Qed.

Lemma StronglySorted_weaken {A} (R R' : A -> A -> Prop) (l : list A) :
  (forall a b, In a l -> In b l -> R a b -> R' a b) ->
  StronglySorted R l -> StronglySorted R' l.
Proof.
  intros H Hs. induction Hs as [|x r Hr IH Hx].
  - constructor.
  - constructor.
    + apply IH. intros a b Ha Hb. apply H; now right.
    + rewrite Forall_forall in Hx |- *. intros b Hb.
      apply H; [now left|now right|now apply Hx].
Qed.

Lemma ranked_perm (self : MultiAgentOrchestrator) (task : string) :
  Permutation (ranked_scores self task) (compute_scores self task).
Proof. apply list_sort_reverse_perm. Qed.

Lemma ranked_comparable (self : MultiAgentOrchestrator) (task : string) :
  Forall (comparable snd) (ranked_scores self task).
Proof.
  eapply Permutation_Forall; [symmetry; apply ranked_perm|].
  apply scores_comparable.
Qed.

(** The ranking is in descending order of score. *)
Lemma ranked_sorted (self : MultiAgentOrchestrator) (task : string) :
  StronglySorted (fun a b : string * float => leb (snd b) (snd a) = true)
    (ranked_scores self task).
Proof.
  apply (StronglySorted_weaken (R := descending snd)).
  - intros a b Ha Hb Hd.
    assert (Hc := ranked_comparable self task).
    rewrite Forall_forall in Hc.
    rewrite leb_not_ltb; [|now apply Hc|now apply Hc].
    unfold descending in Hd. now rewrite Hd.
  - apply list_sort_reverse_sorted, scores_comparable.
Qed.

(** Entries with equal scores are ranked in the order of the registry. *)
Lemma ranked_stable (self : MultiAgentOrchestrator) (task : string)
    (v : float) :
  filter (fun e : string * float => SFeqb (snd e) v)
    (ranked_scores self task)
  = filter (fun e : string * float => SFeqb (snd e) v)
      (compute_scores self task).
Proof.
  destruct (is_nan v) eqn:Hv.
  - destruct v; try discriminate.
    assert (E : forall l : list (string * float),
               filter (fun e => SFeqb (snd e) S754_nan) l = []).
    { induction l as [|[n s] l IH]; [reflexivity|].
      simpl. unfold SFeqb. destruct s; simpl; exact IH. }
    now rewrite !E.
  - assert (E : forall l : list (string * float),
               Forall (comparable snd) l ->
               filter (fun e => SFeqb (snd e) v) l = filter (tied snd v) l).
    { intros l Hl. apply filter_ext_in. intros e He.
      rewrite Forall_forall in Hl. unfold tied.
      symmetry. apply tied_eqb; [exact Hv|now apply Hl]. }
    rewrite !E by (apply ranked_comparable || apply scores_comparable).
    apply list_sort_reverse_stable; [exact Hv|apply scores_comparable].
Qed.

(** Selection on a well-formed, non-empty registry: the first agent with
    the greatest score, and what [select_agent] returns from it. *)
Lemma select_agent_best (self : MultiAgentOrchestrator) (task : string) :
  registry_ok self ->
  agents self <> [] ->
  exists before best after rest,
    agents self = before ++ (name best, best) :: after
    /\ ranked_scores self task
       = (name best, score_of self task best) :: rest
    /\ Forall (fun e : string * AgentInfo =>
                 ltb (score_of self task (snd e)) (score_of self task best)
                 = true) before
    /\ Forall (fun e : string * AgentInfo =>
                 leb (score_of self task (snd e)) (score_of self task best)
                 = true) after
    /\ select_agent self task
       = if gtb (score_of self task best) f0_1 then Return (Some best)
         else
           match default_agent self with
           | Some d =>
               if PyStr.truthy d then
                 info <- subscript (agents self) d ;; Return (Some info)
               else Return None
           | None => Return None
           end.
Proof.
  intros (Hn & Hk & Hd) Hne.
  destruct (ranking_head self task Hne)
    as (before & bn & best & after & rest & Ha & Hr & Hb & Haf).
  assert (Hin : In (bn, best) (agents self)).
  { rewrite Ha. apply in_or_app. right. now left. }
  assert (Hbn : name best = bn) by now apply Hk.
  subst bn.
  exists before, best, after, rest.
  split; [exact Ha|]. split; [exact Hr|]. split; [exact Hb|]. split.
  - rewrite Forall_forall in Haf |- *. intros e He.
    rewrite leb_not_ltb by apply score_of_not_nan.
    now rewrite (Haf e He).
  - rewrite (@select_agent_ranked self task _ _ rest Hne Hr).
    now rewrite (@subscript_In _ (agents self) (name best) best Hn Hin).
Qed.

Lemma ranked_head_in_scores (self : MultiAgentOrchestrator) (task : string)
    (e : string * float) (rest : list (string * float)) :
  ranked_scores self task = e :: rest -> In e (compute_scores self task).
Proof.
  intros H. apply (Permutation_in (l := ranked_scores self task)).
  - apply list_sort_reverse_perm.
  - rewrite H. now left.
Qed.

Lemma registry_ok_after (hosts : list string) :
  registry_ok (Sample.after hosts).
Proof. apply discover_all_agents_ok, init_ok. Qed.
(** ** Claims on the scorer *)

(** C1, as stated, fails: with the skill id [create slides] and the task
    [make slides] the scorer adds 0.15 for the token [slides], which
    splitting on underscores alone never produces. *)
Lemma C1_counterexample :
  matches_task Sample.deck_agent "make slides" None = f0_15
  /\ Spec.score_underscore Sample.deck_agent "make slides" None = f0_0
  /\ matches_task Sample.deck_agent "make slides" None
     <> Spec.score_underscore Sample.deck_agent "make slides" None.
Proof.
  assert (H1 : matches_task Sample.deck_agent "make slides" None = f0_15)
    by (vm_compute; reflexivity).
  assert (H2 : Spec.score_underscore Sample.deck_agent "make slides" None
               = f0_0) by (vm_compute; reflexivity).
  repeat split; trivial.
  rewrite H1, H2. discriminate.
Qed.

(** C1, amended: for every task, candidate and sibling mapping, the
    relevance score is the clamp to [0.0, 1.0] of the sum, taken in the
    order of the rules, of +0.5 per primary keyword occurring in the
    lower-cased task, -0.3 per occurring keyword of every other agent of
    the mapping, +0.2 per occurring tag outside the stop-set, +0.15 per
    occurring token longer than 3 obtained by splitting a lower-cased
    skill id on underscores and white space, and +0.25 per occurring word
    token of the lower-cased name other than agent, the, a. *)
Theorem C1_score_is_clamped_sum (self : AgentInfo) (task : string)
    (mapping : option (Dict.dict (list string))) :
  matches_task self task mapping
  = Spec.clamp01
      (Spec.fsum
         (Spec.contributions Spec.is_underscore_or_space self task mapping)).
Proof. apply matches_task_contributions. Qed.

(** C2: for every task, candidate and sibling mapping, the relevance
    score is at least 0.0 and at most 1.0. *)
Theorem C2_score_in_unit_interval (self : AgentInfo) (task : string)
    (mapping : option (Dict.dict (list string))) :
  leb f0_0 (matches_task self task mapping) = true
  /\ leb (matches_task self task mapping) f1_0 = true.
Proof. unfold matches_task. apply clamp01_bounds. Qed.

(** ** Claims on discovery *)

(** C6: at the hosts [w1, h2, w2], where [h2] is unreachable and [w1]
    and [w2] both serve a card named [writer], [discover_all_agents]
    does not fail the batch and logs the failure of [h2]; two agents
    are successfully discovered, and the value returned is 1, the number
    of entries of the registry, where the claim, as the docstring of
    the function, says the number of successfully discovered agents,
    2. *)
Theorem C6_count_is_the_registry_size_at_equal_names :
  List.length
    (discovered Sample.net ["http://w1"; "http://h2"; "http://w2"]) = 2
  /\ snd (fst (discover_all_agents Sample.net init
                 ["http://w1"; "http://h2"; "http://w2"]))
     = [FailedToDiscover "http://h2" Sample.unreachable]
  /\ Dict.keys
       (agents
          (fst (fst (discover_all_agents Sample.net init
                       ["http://w1"; "http://h2"; "http://w2"]))))
     = ["writer"]
  /\ snd (discover_all_agents Sample.net init
            ["http://w1"; "http://h2"; "http://w2"]) = 1.
Proof. repeat split; vm_compute; reflexivity. Qed.

(** C7, as stated, fails: when the second host of the list settles
    first, the default agent is still the agent of the first host. *)
Lemma C7_counterexample :
  Spec.first_by_completion [2; 1]
    (map (fun host => snd (discover_agent Sample.net host))
         ["http://h1"; "http://h3"]) = Some "ppt_agent"
  /\ default_agent
       (fst (fst (discover_all_agents Sample.net init
                    ["http://h1"; "http://h3"]))) = Some "blog_agent".
Proof. split; vm_compute; reflexivity. Qed.

(** C7, amended: for every batch on a registry with no default agent,
    the default agent after the batch is the name of the first
    successfully discovered agent in the order of the host list (and
    stays unset when every host failed); once a prefix of the batch has
    set it, the rest of the batch does not change it. *)
Theorem C7_default_is_first_in_host_order
    (net : string -> result AgentCard) (self : MultiAgentOrchestrator)
    (hosts : list string) :
  default_agent self = None ->
  default_agent (fst (fst (discover_all_agents net self hosts)))
  = option_map name (hd_error (discovered net hosts))
  /\ (discovered net hosts = [] ->
      default_agent (fst (fst (discover_all_agents net self hosts))) = None)
  /\ (forall hosts1 hosts2 d,
        hosts = hosts1 ++ hosts2 ->
        default_agent (fst (fst (discover_all_agents net self hosts1)))
        = Some d ->
        default_agent (fst (fst (discover_all_agents net self hosts)))
        = Some d).
Proof.
  intros Hd. rewrite discover_all_agents_eq. cbn [fst default_agent].
  unfold default_after. rewrite Hd. split; [reflexivity|]. split.
  - now intros ->.
  - intros h1 h2 d ->. rewrite discover_all_agents_eq.
    cbn [fst default_agent]. unfold default_after. rewrite Hd.
    rewrite discovered_app.
    destruct (discovered net h1); [discriminate|auto].
Qed.

Lemma C7_witness :
  default_agent init = None
  /\ default_agent
       (fst (fst (discover_all_agents Sample.net init
                    ["http://h2"; "http://h1"; "http://h3"])))
     = Some "blog_agent".
Proof.
  split; [reflexivity|].
  destruct (C7_default_is_first_in_host_order Sample.net init
              ["http://h2"; "http://h1"; "http://h3"] eq_refl) as [H _].
  rewrite H. reflexivity.
Defined.

(** C8, as stated, fails: a card that carries [blog] under
    [primary_keywords] and [article] under [primaryKeywords] yields
    [blog] alone. *)
Lemma C8_counterexample :
  In "article" (Spec.camel_keywords Sample.card_both)
  /\ extract_primary_keywords Sample.card_both = ["blog"]
  /\ ~ In "article" (extract_primary_keywords Sample.card_both).
Proof.
  split; [now left|]. split; [reflexivity|].
  simpl. intuition discriminate.
Qed.

(** C8, amended: the keywords of a card are those under
    [primary_keywords] when that variant is non-empty, whatever
    [primaryKeywords] holds, and otherwise those under [primaryKeywords]
    when that variant is non-empty; the two variants are not merged; a
    card carrying keywords under one variant only yields exactly those
    keywords; and the discovered agent has these keywords as its
    primary keywords. *)
Theorem C8_first_nonempty_variant_wins (card : AgentCard) :
  (Spec.snake_keywords card <> [] ->
   extract_primary_keywords card = Spec.snake_keywords card)
  /\ (Spec.snake_keywords card = [] -> Spec.camel_keywords card <> [] ->
      extract_primary_keywords card = Spec.camel_keywords card)
  /\ (forall net host,
        net (PyStr.strip host) = Return card ->
        exists info,
          snd (discover_agent net host) = Some info
          /\ primary_keywords info = extract_primary_keywords card).
Proof.
  unfold Spec.snake_keywords, Spec.camel_keywords, extract_primary_keywords.
  split; [|split].
  - destruct (attr_list (card_primary_keywords card)); simpl; congruence.
  - destruct (card_primary_keywords card) as [| |[|k l]]; simpl;
      try discriminate;
      destruct (attr_list (card_primaryKeywords card)); simpl; congruence.
  - intros net host H.
    destruct (discover_agent_success net host H) as (info & Hi & _ & Hk).
    exists info. rewrite Hi. split; [reflexivity|exact Hk].
Qed.

Lemma C8_witness :
  Spec.snake_keywords Sample.card_both <> []
  /\ extract_primary_keywords Sample.card_both = ["blog"]
  /\ extract_primary_keywords (Sample.card "ppt_agent" ["ppt"; "slides"] [])
     = ["ppt"; "slides"].
Proof.
  assert (H1 : Spec.snake_keywords Sample.card_both <> []) by discriminate.
  assert (H2 : Spec.camel_keywords
                 (Sample.card "ppt_agent" ["ppt"; "slides"] []) <> [])
    by discriminate.
  split; [exact H1|]. split.
  - destruct (C8_first_nonempty_variant_wins Sample.card_both) as [H _].
    rewrite (H H1). reflexivity.
  - destruct (C8_first_nonempty_variant_wins
                (Sample.card "ppt_agent" ["ppt"; "slides"] []))
      as (_ & H & _).
    rewrite (H eq_refl H2). reflexivity.
Defined.

(** ** Claims on routing *)

(** C3, as stated, fails: an agent whose name is the empty string is a
    key of the registry, yet routing with that name as the explicit
    agent goes through the scorer and uses another agent. *)
Lemma C3_counterexample :
  Dict.has "" (agents Sample.anon_first) = true
  /\ send_task Sample.run Sample.anon_first "write a blog" (Some "")
     = Return ("done by blog_agent", "blog_agent").
Proof. split; vm_compute; reflexivity. Qed.

(** C3, amended: for every task and every non-empty agent name X that is
    a key of the registry, routing with X as the explicit agent runs the
    task on the agent registered under X and returns X as the agent
    used, whatever the scores are. *)
Theorem C3_explicit_agent_selected
    (run : A2AAgent -> string -> result (list Message))
    (self : MultiAgentOrchestrator) (task : string)
    (X : string) (info : AgentInfo) :
  registry_ok self ->
  X <> EmptyString ->
  Dict.get X (agents self) = Some info ->
  send_task run self task (Some X) = invoke run info task
  /\ name info = X.
Proof.
  intros (_ & Hk & _) Hx Hg. split.
  - unfold send_task, Dict.has, subscript.
    rewrite (truthy_nonempty Hx), Hg. reflexivity.
  - apply Hk, get_In, Hg.
Qed.

(** The explicit agent is used although its score for the task is 0. *)
Lemma C3_witness :
  exists info,
    registry_ok Sample.two_agents
    /\ "ppt_agent" <> EmptyString
    /\ Dict.get "ppt_agent" (agents Sample.two_agents) = Some info
    /\ score_of Sample.two_agents "hello" info = f0_0
    /\ send_task Sample.run Sample.two_agents "hello" (Some "ppt_agent")
       = Return ("done by ppt_agent", "ppt_agent").
Proof.
  eexists.
  assert (Hx : "ppt_agent" <> EmptyString) by discriminate.
  split; [apply registry_ok_after|].
  split; [exact Hx|].
  split; [vm_compute; reflexivity|].
  split; [vm_compute; reflexivity|].
  destruct (C3_explicit_agent_selected Sample.run (self := Sample.two_agents)
              "hello" (X := "ppt_agent")
              (registry_ok_after _) Hx eq_refl) as [H _].
  rewrite H. reflexivity.
Defined.

(** C10: for every registry, task and explicit agent name that is not a
    key of the registry, routing is the routing of the same task with no
    explicit agent. *)
Theorem C10_unknown_explicit_agent_ignored
    (run : A2AAgent -> string -> result (list Message))
    (self : MultiAgentOrchestrator) (task : string) (X : string) :
  Dict.has X (agents self) = false ->
  send_task run self task (Some X) = send_task run self task None.
Proof. apply send_task_unknown_name. Qed.

Lemma C10_witness :
  Dict.has "nobody" (agents Sample.two_agents) = false
  /\ send_task Sample.run Sample.two_agents "Create a PPT" (Some "nobody")
     = Return ("done by ppt_agent", "ppt_agent").
Proof.
  assert (H : Dict.has "nobody" (agents Sample.two_agents) = false)
    by (vm_compute; reflexivity).
  split; [exact H|].
  rewrite (@C10_unknown_explicit_agent_ignored Sample.run
             Sample.two_agents "Create a PPT" "nobody" H).
  vm_compute. reflexivity.
Defined.

(** C5, as stated, fails: the failure on an empty registry is the
    builtin [ValueError], not an error of a class [NoSuitableAgent], and
    it equals the failure of a routing whose chosen agent raised the same
    [ValueError] during its run. *)
Lemma C5_counterexample :
  send_task Sample.failing_run init "hello" None
  = Raise (PyExc "ValueError" "No suitable agent found for the task")
  /\ exn_class (PyExc "ValueError" "No suitable agent found for the task")
     <> "NoSuitableAgent"
  /\ send_task Sample.failing_run Sample.two_agents "hello"
       (Some "ppt_agent")
     = send_task Sample.failing_run init "hello" None.
Proof.
  split; [reflexivity|]. split; [discriminate|].
  vm_compute. reflexivity.
Qed.

(** C5, amended: for every task, routing with an empty registry, or with
    no registered explicit agent, no score above 0.1 and no default
    agent, returns no value: it raises the builtin [ValueError] with the
    message [No suitable agent found for the task]. *)
Theorem C5_no_agent_raises_ValueError
    (run : A2AAgent -> string -> result (list Message))
    (self : MultiAgentOrchestrator) (task : string)
    (agent_name : option string) :
  agents self = []
  \/ ((forall n, agent_name = Some n -> Dict.has n (agents self) = false)
      /\ default_agent self = None
      /\ Forall (fun e : string * float => gtb (snd e) f0_1 = false)
           (compute_scores self task)) ->
  send_task run self task agent_name = Raise (ValueError no_agent_msg).
Proof.
  intros Hc.
  assert (Hn : forall n, agent_name = Some n ->
                         Dict.has n (agents self) = false).
  { destruct Hc as [He|[Hn _]]; [|exact Hn].
    intros n _. now rewrite He. }
  assert (Hs : select_agent self task = Return None).
  { destruct Hc as [He|(_ & Hd & Hf)].
    - now apply select_agent_empty.
    - destruct (agents self) as [|a l] eqn:Ea.
      + apply select_agent_empty, Ea.
      + destruct (ranked_scores self task) as [|[bn bs] rest] eqn:Er.
        * exfalso.
          assert (P := ranked_perm self task). rewrite Er in P.
          apply Permutation_nil in P. rewrite compute_scores_eq, Ea in P.
          discriminate.
        * rewrite (@select_agent_ranked self task bn bs rest);
            [|rewrite Ea; discriminate|exact Er].
          rewrite Forall_forall in Hf.
          assert (Hb := Hf _ (ranked_head_in_scores _ _ Er)).
          cbn [snd] in Hb. rewrite Hb, Hd. reflexivity. }
  assert (Hn0 : send_task run self task agent_name
                = send_task run self task None).
  { destruct agent_name as [n|]; [|reflexivity].
    apply send_task_unknown_name, Hn. reflexivity. }
  rewrite Hn0. unfold send_task. rewrite Hs. reflexivity.
Qed.

(** Routing on the fresh orchestrator, with or without an explicit
    agent. *)
Lemma C5_witness :
  agents init = []
  /\ send_task Sample.run init "hello" (Some "blog_agent")
     = Raise (PyExc "ValueError" "No suitable agent found for the task").
Proof.
  split; [reflexivity|].
  exact (@C5_no_agent_raises_ValueError Sample.run init "hello"
           (Some "blog_agent") (or_introl eq_refl)).
Defined.

(** C4: at the hosts [anon, h1], where the card of [anon] has the
    empty name, discovery registers both agents and sets the default
    agent to the empty name.  For the task [hello] no score exceeds 0.1,
    and [select_agent] yields no agent, so that [send_task] raises,
    where the claim, as the docstring of [select_agent], says that the
    default agent is selected. *)
Theorem C4_default_with_empty_name_is_not_selected :
  Sample.anon_first
  = fst (fst (discover_all_agents Sample.net init
                ["http://anon"; "http://h1"]))
  /\ Dict.keys (agents Sample.anon_first) = [""; "blog_agent"]
  /\ default_agent Sample.anon_first = Some ""
  /\ Forall (fun e : string * float => gtb (snd e) f0_1 = false)
       (compute_scores Sample.anon_first "hello")
  /\ select_agent Sample.anon_first "hello" = Return None
  /\ send_task Sample.run Sample.anon_first "hello" None
     = Raise (ValueError no_agent_msg).
Proof.
  split; [reflexivity|]. split; [vm_compute; reflexivity|].
  split; [reflexivity|]. split.
  - vm_compute. repeat constructor.
  - split; vm_compute; reflexivity.
Qed.

(** C9, as stated, fails: the agents [two] and [three] tie at the top of
    the ranking with a score that does not exceed 0.1, and the agent
    selected is the default agent [one], not the first-discovered of the
    two. *)
Lemma C9_counterexample :
  ranked_scores Sample.three_agents "alpha beta gamma data"
  = [("two", S754_finite false 7205759403792796 (-57));
     ("three", S754_finite false 7205759403792796 (-57));
     ("one", f0_0)]
  /\ exists info,
       select_agent Sample.three_agents "alpha beta gamma data"
       = Return (Some info)
       /\ name info = "one".
Proof.
  split; [vm_compute; reflexivity|].
  eexists. split; vm_compute; reflexivity.
Qed.

(** C9, amended: for every registry and task, the ranking computed
    during selection is a rearrangement of the scores in descending order
    of score in which entries with exactly equal scores keep the
    insertion order of the registry; on a well-formed non-empty registry
    its head is the first registered agent among those with the greatest
    score, and that agent wins selection whenever its score is strictly
    greater than 0.1. *)
Theorem C9_ranking_descending_and_stable
    (self : MultiAgentOrchestrator) (task : string) :
  Permutation (ranked_scores self task) (compute_scores self task)
  /\ StronglySorted
       (fun a b : string * float => leb (snd b) (snd a) = true)
       (ranked_scores self task)
  /\ (forall v,
        filter (fun e : string * float => SFeqb (snd e) v)
          (ranked_scores self task)
        = filter (fun e : string * float => SFeqb (snd e) v)
            (compute_scores self task))
  /\ (registry_ok self -> agents self <> [] ->
      exists before best after rest,
        agents self = before ++ (name best, best) :: after
        /\ ranked_scores self task
           = (name best, score_of self task best) :: rest
        /\ Forall (fun e : string * AgentInfo =>
                     ltb (score_of self task (snd e))
                       (score_of self task best) = true) before
        /\ Forall (fun e : string * AgentInfo =>
                     leb (score_of self task (snd e))
                       (score_of self task best) = true) after
        /\ (gtb (score_of self task best) f0_1 = true ->
            select_agent self task = Return (Some best))).
Proof.
  split; [apply ranked_perm|]. split; [apply ranked_sorted|].
  split; [apply ranked_stable|].
  intros Hok Hne.
  destruct (select_agent_best task Hok Hne)
    as (before & best & after & rest & Ha & Hr & Hb & Haf & Hs).
  exists before, best, after, rest. repeat (split; trivial).
  intros Hg. now rewrite Hg in Hs.
Qed.

(** Two agents tie on a task that names both: the first
    registered heads the ranking and is selected. *)
Lemma C9_witness :
  registry_ok Sample.two_agents
  /\ agents Sample.two_agents <> []
  /\ ranked_scores Sample.two_agents "a blog_agent or a ppt_agent"
     = [("blog_agent", S754_finite false 8106479329266893 (-54));
        ("ppt_agent", S754_finite false 8106479329266893 (-54))]
  /\ (exists best rest,
        ranked_scores Sample.two_agents "a blog_agent or a ppt_agent"
        = (name best, score_of Sample.two_agents
                        "a blog_agent or a ppt_agent" best) :: rest
        /\ (gtb (score_of Sample.two_agents
                   "a blog_agent or a ppt_agent" best) f0_1 = true ->
            select_agent Sample.two_agents "a blog_agent or a ppt_agent"
            = Return (Some best))).
Proof.
  assert (Hne : agents Sample.two_agents <> []) by discriminate.
  split; [apply registry_ok_after|]. split; [exact Hne|].
  split; [vm_compute; reflexivity|].
  destruct (C9_ranking_descending_and_stable Sample.two_agents
              "a blog_agent or a ppt_agent") as (_ & _ & _ & H).
  destruct (H (registry_ok_after _) Hne)
    as (before & best & after & rest & _ & Hr & _ & _ & Hs).
  exists best, rest. split; [exact Hr|exact Hs].
Defined.

(* ================================================================== *)
(** * Further properties of the orchestrator *)

(** ** Routing returns registered agents only *)

Lemma subscript_Return_In {V} (d : Dict.dict V) (k : string) (v : V) :
  subscript d k = Return v -> In (k, v) d.
Proof.
  unfold subscript. destruct (Dict.get k d) as [v'|] eqn:E; [|discriminate].
  intros [= <-]. now apply get_In.
Qed.

Lemma select_agent_In (self : MultiAgentOrchestrator) (task : string)
    (info : AgentInfo) :
  select_agent self task = Return (Some info) ->
  exists k, In (k, info) (agents self).
Proof.
  unfold select_agent.
  destruct (negb (Dict.truthy (agents self))); [discriminate|].
  destruct (ranked_scores self task) as [|[bn bs] rest]; [discriminate|].
  destruct (gtb bs f0_1).
  - destruct (subscript (agents self) bn) as [i|e] eqn:E; simpl;
      [|discriminate].
    intros [= <-]. exists bn. now apply subscript_Return_In.
  - destruct (default_agent self) as [d|]; [|discriminate].
    destruct (PyStr.truthy d); [|discriminate].
    destruct (subscript (agents self) d) as [i|e] eqn:E; simpl;
      [|discriminate].
    intros [= <-]. exists d. now apply subscript_Return_In.
Qed.

(** The agent [send_task] settles on, before it is run. *)
Lemma send_task_chosen
    (run : A2AAgent -> string -> result (list Message))
    (self : MultiAgentOrchestrator) (task : string)
    (agent_name : option string) (r : result (string * string)) :
  send_task run self task agent_name = r ->
  (exists k info, In (k, info) (agents self) /\ r = invoke run info task)
  \/ r = Raise (ValueError no_agent_msg)
  \/ (exists e, select_agent self task = Raise e /\ r = Raise e).
Proof.
  intros <-. unfold send_task.
  assert (Hsel :
    (exists k info, In (k, info) (agents self)
       /\ (agent_info <- select_agent self task ;;
           match agent_info with
           | Some agent_info => invoke run agent_info task
           | None => Raise (ValueError no_agent_msg)
           end) = invoke run info task)
    \/ (agent_info <- select_agent self task ;;
        match agent_info with
        | Some agent_info => invoke run agent_info task
        | None => Raise (ValueError no_agent_msg)
        end) = Raise (ValueError no_agent_msg)
    \/ (exists e, select_agent self task = Raise e
          /\ (agent_info <- select_agent self task ;;
              match agent_info with
              | Some agent_info => invoke run agent_info task
              | None => Raise (ValueError no_agent_msg)
              end) = Raise e)).
  { destruct (select_agent self task) as [[info|]|e] eqn:E; simpl.
    - left. destruct (select_agent_In _ _ E) as [k Hk]. eauto.
    - right. now left.
    - right. right. eauto. }
  destruct agent_name as [n|]; [|exact Hsel].
  destruct (PyStr.truthy n && Dict.has n (agents self)) eqn:G; [|exact Hsel].
  apply andb_prop in G as [_ G]. unfold Dict.has in G.
  unfold subscript. destruct (Dict.get n (agents self)) as [info|] eqn:E;
    [|discriminate].
  simpl. left. exists n, info. split; [now apply get_In|reflexivity].
Qed.

Lemma invoke_Return (run : A2AAgent -> string -> result (list Message))
    (info : AgentInfo) (task txt n : string) :
  invoke run info task = Return (txt, n) ->
  exists messages,
    run (agent info) task = Return messages
    /\ txt = response_text messages /\ n = name info.
Proof.
  unfold invoke. destruct (run (agent info) task) as [m|e]; [|discriminate].
  intros [= <- <-]. eauto.
Qed.

Lemma invoke_Raise (run : A2AAgent -> string -> result (list Message))
    (info : AgentInfo) (task : string) (e : exn) :
  invoke run info task = Raise e -> run (agent info) task = Raise e.
Proof.
  unfold invoke. destruct (run (agent info) task) as [m|e']; [discriminate|].
  now intros [= <-].
Qed.

(** Selection on a well-formed registry does not raise. *)
Lemma select_agent_no_raise (self : MultiAgentOrchestrator) (task : string) :
  registry_ok self -> exists r, select_agent self task = Return r.
Proof.
  intros Hok. destruct (agents self) as [|a l] eqn:Ea.
  - exists None. now apply select_agent_empty.
  - assert (Hne : agents self <> []) by (rewrite Ea; discriminate).
    destruct (select_agent_best task Hok Hne)
      as (before & best & after & rest & _ & _ & _ & _ & Hs).
    rewrite Hs. destruct Hok as (_ & _ & Hd).
    destruct (gtb (score_of self task best) f0_1); [eauto|].
    destruct (default_agent self) as [d|] eqn:Ed; [|eauto].
    destruct (PyStr.truthy d); [|eauto].
    specialize (Hd d eq_refl). unfold Dict.has in Hd. unfold subscript.
    destruct (Dict.get d (agents self)); [simpl; eauto|discriminate].
Qed.

(** X1: whenever [send_task] returns, the name it returns is the name of
    a registered agent, that agent's run on the task returned, and the
    text is the text of the messages of that run. *)
Theorem X1_send_task_returns_a_registered_run
    (run : A2AAgent -> string -> result (list Message))
    (self : MultiAgentOrchestrator) (task : string)
    (agent_name : option string) (txt n : string) :
  send_task run self task agent_name = Return (txt, n) ->
  exists k info messages,
    In (k, info) (agents self)
    /\ name info = n
    /\ run (agent info) task = Return messages
    /\ txt = response_text messages.
Proof.
  intros H.
  destruct (send_task_chosen run self task agent_name H)
    as [(k & info & Hin & Hr)|[Hr|(e & _ & Hr)]]; try discriminate.
  symmetry in Hr. apply invoke_Return in Hr as (m & Hm & -> & ->).
  exists k, info, m. auto.
Qed.

Lemma X1_witness :
  send_task Sample.run Sample.two_agents "Create a PPT" None
  = Return ("done by ppt_agent", "ppt_agent")
  /\ exists k info messages,
       In (k, info) (agents Sample.two_agents)
       /\ name info = "ppt_agent"
       /\ Sample.run (agent info) "Create a PPT" = Return messages
       /\ "done by ppt_agent" = response_text messages.
Proof.
  assert (H : send_task Sample.run Sample.two_agents "Create a PPT" None
              = Return ("done by ppt_agent", "ppt_agent"))
    by (vm_compute; reflexivity).
  split; [exact H|].
  exact (X1_send_task_returns_a_registered_run Sample.run Sample.two_agents
           "Create a PPT" None H).
Defined.

(** X2: on a well-formed registry [send_task] raises in two ways only:
    the [ValueError] for no suitable agent, or the exception that the run
    of a registered agent raised, passed on unchanged.  It raises no
    [KeyError] and no [IndexError] of its own. *)
Theorem X2_send_task_raises_only_no_agent_or_run_error
    (run : A2AAgent -> string -> result (list Message))
    (self : MultiAgentOrchestrator) (task : string)
    (agent_name : option string) (e : exn) :
  registry_ok self ->
  send_task run self task agent_name = Raise e ->
  e = ValueError no_agent_msg
  \/ exists k info,
       In (k, info) (agents self) /\ run (agent info) task = Raise e.
Proof.
  intros Hok H.
  destruct (send_task_chosen run self task agent_name H)
    as [(k & info & Hin & Hr)|[Hr|(e' & Hs & Hr)]].
  - right. exists k, info. split; [exact Hin|].
    symmetry in Hr. now apply invoke_Raise.
  - left. now injection Hr.
  - destruct (select_agent_no_raise task Hok) as [r Hr']. congruence.
Qed.

Lemma X2_witness :
  registry_ok Sample.two_agents
  /\ send_task Sample2.timing_out_run Sample.two_agents "Create a PPT" None
     = Raise (PyExc "TimeoutError" "timed out")
  /\ (PyExc "TimeoutError" "timed out" = ValueError no_agent_msg
      \/ exists k info,
           In (k, info) (agents Sample.two_agents)
           /\ Sample2.timing_out_run (agent info) "Create a PPT"
              = Raise (PyExc "TimeoutError" "timed out")).
Proof.
  assert (H : send_task Sample2.timing_out_run Sample.two_agents
                "Create a PPT" None
              = Raise (PyExc "TimeoutError" "timed out"))
    by (vm_compute; reflexivity).
  split; [apply registry_ok_after|]. split; [exact H|].
  exact (X2_send_task_raises_only_no_agent_or_run_error
           Sample2.timing_out_run "Create a PPT" None
           (registry_ok_after _) H).
Defined.

Lemma select_agent_with_default (self : MultiAgentOrchestrator)
    (task d : string) :
  registry_ok self ->
  default_agent self = Some d -> d <> EmptyString ->
  exists info, select_agent self task = Return (Some info).
Proof.
  intros Hok Hd Hd0.
  destruct (agents self) as [|a l] eqn:Ea.
  - destruct Hok as (_ & _ & Hh). specialize (Hh d Hd).
    rewrite Ea in Hh. discriminate.
  - assert (Hne : agents self <> []) by (rewrite Ea; discriminate).
    destruct (select_agent_best task Hok Hne)
      as (before & best & after & rest & _ & _ & _ & _ & Hs).
    rewrite Hs, Hd, (truthy_nonempty Hd0).
    destruct (gtb (score_of self task best) f0_1); [eauto|].
    destruct Hok as (_ & _ & Hh). specialize (Hh d Hd).
    unfold Dict.has in Hh. unfold subscript.
    destruct (Dict.get d (agents self)) as [info|]; [|discriminate].
    simpl. eauto.
Qed.

(** X3: on a well-formed registry [select_agent] does not raise; the
    agent it returns, if any, is registered under its own name; and when
    the default agent has a non-empty name it returns an agent for
    every task. *)
Theorem X3_select_agent_total_on_registries
    (self : MultiAgentOrchestrator) (task : string) :
  registry_ok self ->
  exists r,
    select_agent self task = Return r
    /\ (forall info, r = Some info -> In (name info, info) (agents self))
    /\ (forall d, default_agent self = Some d -> d <> EmptyString ->
        r <> None).
Proof.
  intros Hok. destruct (select_agent_no_raise task Hok) as [r Hr].
  exists r. split; [exact Hr|]. split.
  - intros info ->. destruct (select_agent_In _ _ Hr) as [k Hk].
    destruct Hok as (_ & Hn & _). now rewrite (Hn k info Hk).
  - intros d Hd Hd0 ->.
    destruct (select_agent_with_default task Hok Hd Hd0) as [info Hi].
    congruence.
Qed.

Lemma X3_witness :
  registry_ok Sample.two_agents
  /\ exists r,
       select_agent Sample.two_agents "hello" = Return r
       /\ (forall info, r = Some info ->
           In (name info, info) (agents Sample.two_agents))
       /\ (forall d, default_agent Sample.two_agents = Some d ->
           d <> EmptyString -> r <> None).
Proof.
  split; [apply registry_ok_after|].
  exact (X3_select_agent_total_on_registries "hello" (registry_ok_after _)).
Defined.

(** ** The registry after a batch *)

Lemma insert_all_app (l1 l2 : list AgentInfo) (d : Dict.dict AgentInfo) :
  insert_all (l1 ++ l2) d = insert_all l2 (insert_all l1 d).
Proof. apply fold_left_app. Qed.

Lemma failures_app (net : string -> result AgentCard)
    (hosts1 hosts2 : list string) :
  failures net (hosts1 ++ hosts2) = failures net hosts1 ++ failures net hosts2.
Proof. apply flat_map_app. Qed.

Lemma find_append {A} (p : A -> bool) (l1 l2 : list A) :
  find p (l1 ++ l2)
  = match find p l1 with Some x => Some x | None => find p l2 end.
Proof.
  induction l1 as [|x l1 IH]; simpl; [reflexivity|].
  now destruct (p x).
Qed.

Lemma get_insert_all (n : string) (l : list AgentInfo)
    (d : Dict.dict AgentInfo) :
  Dict.get n (insert_all l d)
  = match last_named n l with
    | Some info => Some info
    | None => Dict.get n d
    end.
Proof.
  unfold last_named. revert d. induction l as [|i l IH]; intros d.
  - reflexivity.
  - cbn [insert_all fold_left]. fold (insert_all l (Dict.set (name i) i d)).
    rewrite IH. cbn [rev]. rewrite find_append.
    destruct (find (fun info => String.eqb (name info) n) (rev l));
      [reflexivity|].
    cbn [find]. destruct (String.eqb (name i) n) eqn:E.
    + apply String.eqb_eq in E. subst n. apply get_set_eq.
    + apply String.eqb_neq in E. apply get_set_neq. congruence.
Qed.

Lemma mem_keys {V} (n : string) (d : Dict.dict V) :
  PyStr.mem n (Dict.keys d) = Dict.has n d.
Proof.
  unfold PyStr.mem, Dict.has. induction d as [|[k v] d IH]; simpl.
  - reflexivity.
  - destruct (String.eqb n k); [reflexivity|exact IH].
Qed.

Lemma mem_In (n : string) (l : list string) :
  PyStr.mem n l = true <-> In n l.
Proof.
  unfold PyStr.mem. rewrite existsb_exists. split.
  - intros (x & Hx & E). apply String.eqb_eq in E. now subst.
  - intros H. exists n. split; [exact H|apply String.eqb_refl].
Qed.

Lemma fresh_names_ext (s1 s2 l : list string) :
  (forall x, PyStr.mem x s1 = PyStr.mem x s2) ->
  fresh_names s1 l = fresh_names s2 l.
Proof.
  revert s1 s2. induction l as [|n r IH]; intros s1 s2 H; simpl.
  - reflexivity.
  - rewrite <- (H n). destruct (PyStr.mem n s1); [now apply IH|].
    f_equal. apply IH. intros x. unfold PyStr.mem in *. simpl.
    now rewrite H.
Qed.

Lemma fresh_names_seen (seen l : list string) :
  (forall n, In n l -> In n seen) -> fresh_names seen l = [].
Proof.
  induction l as [|n r IH]; intros H; simpl.
  - reflexivity.
  - assert (Hn : PyStr.mem n seen = true) by (apply mem_In, H; now left).
    rewrite Hn. apply IH. intros x Hx. apply H. now right.
Qed.

Lemma keys_insert_all (l : list AgentInfo) (d : Dict.dict AgentInfo) :
  Dict.keys (insert_all l d)
  = Dict.keys d ++ fresh_names (Dict.keys d) (map name l).
Proof.
  revert d. induction l as [|i l IH]; intros d.
  - simpl. now rewrite app_nil_r.
  - cbn [insert_all fold_left map fresh_names].
    fold (insert_all l (Dict.set (name i) i d)).
    rewrite IH, keys_set, mem_keys.
    destruct (Dict.has (name i) d) eqn:E; [reflexivity|].
    rewrite <- app_assoc. cbn [app]. do 2 f_equal.
    apply fresh_names_ext. intros x. unfold PyStr.mem.
    rewrite existsb_app. simpl. rewrite orb_false_r. apply orb_comm.
Qed.

Lemma dict_ext {V} (d1 d2 : Dict.dict V) :
  NoDup (Dict.keys d1) ->
  Dict.keys d1 = Dict.keys d2 ->
  (forall k, Dict.get k d1 = Dict.get k d2) ->
  d1 = d2.
Proof.
  revert d2. induction d1 as [|[k1 v1] d1 IH]; intros [|[k2 v2] d2] Hn Hk Hg;
    try discriminate; [reflexivity|].
  simpl in Hk. injection Hk as <- Hk.
  inversion Hn as [|? ? Hk1 Hn1]; subst.
  assert (Hv := Hg k1). simpl in Hv. rewrite String.eqb_refl in Hv.
  injection Hv as <-. f_equal. apply IH; auto.
  intros k. specialize (Hg k). simpl in Hg.
  destruct (String.eqb k k1) eqn:E; [|exact Hg].
  apply String.eqb_eq in E. subst k.
  assert (H1 : Dict.has k1 d1 = false) by now apply has_false_In.
  assert (H2 : Dict.has k1 d2 = false)
    by (apply has_false_In; now rewrite <- Hk).
  unfold Dict.has in H1, H2.
  destruct (Dict.get k1 d1), (Dict.get k1 d2); congruence.
Qed.

Lemma insert_all_names_in (l : list AgentInfo) (d : Dict.dict AgentInfo)
    (n : string) :
  In n (map name l) -> In n (Dict.keys (insert_all l d)).
Proof.
  revert d. induction l as [|i l IH]; intros d; simpl; [tauto|].
  intros [<-|H].
  - apply has_In. apply (insert_all_has_head i l d).
  - apply (IH (Dict.set (name i) i d) H).
Qed.

Lemma last_named_twice (n : string) (l : list AgentInfo)
    (d : Dict.dict AgentInfo) :
  Dict.get n (insert_all l (insert_all l d)) = Dict.get n (insert_all l d).
Proof.
  rewrite (get_insert_all n l (insert_all l d)), get_insert_all.
  now destruct (last_named n l).
Qed.

Lemma insert_all_twice (l : list AgentInfo) (d : Dict.dict AgentInfo) :
  NoDup (Dict.keys d) ->
  (forall k info, In (k, info) d -> name info = k) ->
  insert_all l (insert_all l d) = insert_all l d.
Proof.
  intros Hn Hk. destruct (insert_all_ok l (conj Hn Hk)) as [Hn' _].
  apply dict_ext.
  - destruct (insert_all_ok l (insert_all_ok l (conj Hn Hk))) as [H _].
    exact H.
  - rewrite (keys_insert_all l (insert_all l d)).
    rewrite fresh_names_seen; [apply app_nil_r|].
    intros n. apply insert_all_names_in.
  - intros k. apply last_named_twice.
Qed.

(** X4: a batch over [hosts1 ++ hosts2] leaves the orchestrator as the
    batch over [hosts1] followed by the batch over [hosts2] does, logs
    what the two log, and returns what the second returns. *)
Theorem X4_discovery_composes
    (net : string -> result AgentCard) (self : MultiAgentOrchestrator)
    (hosts1 hosts2 : list string) :
  let r1 := discover_all_agents net self hosts1 in
  let r2 := discover_all_agents net (fst (fst r1)) hosts2 in
  discover_all_agents net self (hosts1 ++ hosts2)
  = (fst (fst r2), snd (fst r1) ++ snd (fst r2), snd r2).
Proof.
  cbv zeta. rewrite !discover_all_agents_eq. cbn [fst snd agents].
  rewrite discovered_app, failures_app, insert_all_app.
  do 2 f_equal. f_equal.
  unfold default_after. cbn [default_agent].
  destruct (default_agent self); [reflexivity|].
  destruct (discovered net hosts1); reflexivity.
Qed.

(** X5: after a batch, the agent registered under a name is the last
    agent of the batch that declared this name (later hosts of the list
    overwrite earlier ones), and the entry from before the batch when
    no agent of the batch declared it. *)
Theorem X5_last_discovered_agent_wins
    (net : string -> result AgentCard) (self : MultiAgentOrchestrator)
    (hosts : list string) (n : string) :
  Dict.get n (agents (fst (fst (discover_all_agents net self hosts))))
  = match last_named n (discovered net hosts) with
    | Some info => Some info
    | None => Dict.get n (agents self)
    end.
Proof.
  rewrite discover_all_agents_eq. cbn [fst agents]. apply get_insert_all.
Qed.

(** X6: a batch keeps the keys of the registry in place and appends the
    names that are new, each once, in the order in which the host list
    first yields them. *)
Theorem X6_keys_in_first_discovery_order
    (net : string -> result AgentCard) (self : MultiAgentOrchestrator)
    (hosts : list string) :
  Dict.keys (agents (fst (fst (discover_all_agents net self hosts))))
  = Dict.keys (agents self)
    ++ fresh_names (Dict.keys (agents self))
         (map name (discovered net hosts)).
Proof.
  rewrite discover_all_agents_eq. cbn [fst agents]. apply keys_insert_all.
Qed.

(** X7: running the same batch again on the orchestrator it produced
    changes nothing: the registry, the default agent and the value
    returned are those of the first run. *)
Theorem X7_rediscovery_is_idempotent
    (net : string -> result AgentCard) (self : MultiAgentOrchestrator)
    (hosts : list string) :
  registry_ok self ->
  let r1 := discover_all_agents net self hosts in
  discover_all_agents net (fst (fst r1)) hosts = r1.
Proof.
  intros (Hn & Hk & _). cbv zeta. rewrite !discover_all_agents_eq.
  cbn [fst snd agents default_agent].
  rewrite (@insert_all_twice (discovered net hosts) _ Hn Hk).
  do 2 f_equal. f_equal.
  unfold default_after. cbn [default_agent].
  destruct (default_agent self); [reflexivity|].
  destruct (discovered net hosts); reflexivity.
Qed.

Lemma X7_witness :
  registry_ok init
  /\ discover_all_agents Sample.net Sample.two_agents
       ["http://h1"; "http://h2"; "http://h3"]
     = discover_all_agents Sample.net init
         ["http://h1"; "http://h2"; "http://h3"].
Proof.
  split; [apply init_ok|].
  exact (X7_rediscovery_is_idempotent Sample.net
           ["http://h1"; "http://h2"; "http://h3"] init_ok).
Defined.

(** ** More on the scorer *)

Lemma count_map {A B} (f : A -> B) (p : B -> bool) (l : list A) :
  Spec.count (fun x => p (f x)) l = Spec.count p (map f l).
Proof.
  unfold Spec.count. induction l as [|x l IH]; simpl; [reflexivity|].
  destruct (p (f x)); simpl; now rewrite IH.
Qed.

Lemma flat_map_map {A B C} (f : A -> B) (g : B -> list C) (l : list A) :
  flat_map (fun x => g (f x)) l = flat_map g (map f l).
Proof.
  induction l as [|x l IH]; simpl; [reflexivity|]. now rewrite IH.
Qed.

Lemma contributions_case (sep : ascii -> bool) (a b : AgentInfo)
    (task1 task2 : string) (mapping : option (Dict.dict (list string))) :
  same_up_to_case a b ->
  PyStr.lower task1 = PyStr.lower task2 ->
  Spec.contributions sep a task1 mapping
  = Spec.contributions sep b task2 mapping.
Proof.
  intros (Hn & Hk & Ht & Hs) Hl.
  unfold Spec.contributions, Spec.skill_tokens, Spec.occurs,
    Spec.occurs_token.
  rewrite Hn, Hl.
  rewrite (count_map PyStr.lower
             (fun w => PyStr.contains w (PyStr.lower task2))
             (primary_keywords a)).
  rewrite (count_map PyStr.lower
             (fun w => PyStr.contains w (PyStr.lower task2))
             (primary_keywords b)).
  rewrite (count_map PyStr.lower
             (fun t => negb (PyStr.mem t generic_tags)
                       && PyStr.contains t (PyStr.lower task2))
             (tags a)).
  rewrite (count_map PyStr.lower
             (fun t => negb (PyStr.mem t generic_tags)
                       && PyStr.contains t (PyStr.lower task2))
             (tags b)).
  rewrite (flat_map_map (fun s => PyStr.lower (skill_get_id s))
             (PyStr.fields sep) (skills a)).
  rewrite (flat_map_map (fun s => PyStr.lower (skill_get_id s))
             (PyStr.fields sep) (skills b)).
  now rewrite Hk, Ht, Hs.
Qed.

(** X8: the score does not depend on letter case: two tasks with the
    same lower-casing, and two agents of the same name whose primary
    keywords, tags and skill ids agree after lower-casing, get the same
    score under the same sibling mapping. *)
Theorem X8_score_ignores_letter_case (a b : AgentInfo)
    (task1 task2 : string) (mapping : option (Dict.dict (list string))) :
  same_up_to_case a b ->
  PyStr.lower task1 = PyStr.lower task2 ->
  matches_task a task1 mapping = matches_task b task2 mapping.
Proof.
  intros Hab Hl. rewrite !matches_task_contributions. unfold Spec.score.
  now rewrite (@contributions_case Spec.is_underscore_or_space a b task1
                 task2 mapping Hab Hl).
Qed.

Lemma sibling_keywords_without (n : string) (d : Dict.dict (list string)) :
  Spec.sibling_keywords n (Some (without n d))
  = Spec.sibling_keywords n (Some d).
Proof.
  unfold Spec.sibling_keywords, without.
  induction d as [|[k kws] d IH]; simpl; [reflexivity|].
  destruct (String.eqb k n) eqn:E; simpl.
  - exact IH.
  - rewrite E. now rewrite IH.
Qed.

Lemma X8_witness :
  same_up_to_case (Sample.mk "helper" ["PPT"] ["Make_Slides"])
    (Sample.mk "helper" ["ppt"] ["make_slides"])
  /\ PyStr.lower "Create A PPT" = PyStr.lower "create a ppt"
  /\ matches_task (Sample.mk "helper" ["PPT"] ["Make_Slides"])
       "Create A PPT" None
     = matches_task (Sample.mk "helper" ["ppt"] ["make_slides"])
         "create a ppt" None.
Proof.
  assert (Hab : same_up_to_case (Sample.mk "helper" ["PPT"] ["Make_Slides"])
                  (Sample.mk "helper" ["ppt"] ["make_slides"]))
    by (repeat split).
  assert (Hl : PyStr.lower "Create A PPT" = PyStr.lower "create a ppt")
    by reflexivity.
  split; [exact Hab|]. split; [exact Hl|].
  exact (@X8_score_ignores_letter_case _ _ _ _ None Hab Hl).
Defined.

(** X9: an agent is not penalised for its own keywords: the entry of
    the sibling mapping under the candidate's own name has no effect on
    the score. *)
Theorem X9_own_keywords_do_not_penalise (self : AgentInfo) (task : string)
    (d : Dict.dict (list string)) :
  matches_task self task (Some d)
  = matches_task self task (Some (without (name self) d)).
Proof.
  rewrite !matches_task_contributions.
  unfold Spec.score, Spec.contributions.
  now rewrite sibling_keywords_without.
Qed.

(** ** A registry of one agent *)

(** X10: when a batch on the fresh orchestrator finds exactly one agent
    and its name is not empty, every task routed without an explicit
    agent is run on that agent, whatever it scores. *)
Theorem X10_single_agent_gets_every_task
    (net : string -> result AgentCard)
    (run : A2AAgent -> string -> result (list Message))
    (hosts : list string) (info : AgentInfo) (task : string) :
  discovered net hosts = [info] ->
  name info <> EmptyString ->
  let self := fst (fst (discover_all_agents net init hosts)) in
  select_agent self task = Return (Some info)
  /\ send_task run self task None = invoke run info task.
Proof.
  intros Hd Hname. cbv zeta.
  assert (Hok := discover_all_agents_ok net hosts init_ok).
  revert Hok. rewrite discover_all_agents_eq, Hd. cbn [fst].
  set (self := {| agents := insert_all [info] (agents init);
                  default_agent := default_after init [info] |}).
  intros Hok.
  assert (Ha : agents self = [(name info, info)]) by reflexivity.
  assert (Hne : agents self <> []) by (rewrite Ha; discriminate).
  assert (Hs : select_agent self task = Return (Some info)).
  { destruct (select_agent_best task Hok Hne)
      as (before & best & after & rest & Hb & _ & _ & _ & Hs).
    rewrite Ha in Hb.
    destruct before as [|x before].
    - injection Hb as _ Hb _. subst best. rewrite Hs.
      destruct (gtb _ f0_1); [reflexivity|].
      cbn [self default_agent default_after init option_map hd_error].
      rewrite (truthy_nonempty Hname). unfold subscript.
      rewrite Ha. cbn [Dict.get]. now rewrite String.eqb_refl.
    - exfalso. apply (f_equal (@List.length _)) in Hb.
      rewrite length_app in Hb. simpl in Hb. lia. }
  split; [exact Hs|]. unfold send_task. now rewrite Hs.
Qed.

Lemma X10_witness :
  exists info,
    discovered Sample.net ["http://h2"; "http://h3"] = [info]
    /\ name info <> EmptyString
    /\ score_of (Sample.after ["http://h2"; "http://h3"]) "write a blog" info
       = f0_0
    /\ select_agent (Sample.after ["http://h2"; "http://h3"]) "write a blog"
       = Return (Some info).
Proof.
  eexists.
  assert (Hd : discovered Sample.net ["http://h2"; "http://h3"] = [_])
    by (vm_compute; reflexivity).
  split; [exact Hd|].
  assert (Hn : "ppt_agent" <> EmptyString) by discriminate.
  split; [exact Hn|]. split; [vm_compute; reflexivity|].
  destruct (@X10_single_agent_gets_every_task Sample.net Sample.run
              ["http://h2"; "http://h3"] _ "write a blog" Hd Hn) as [H _].
  exact H.
Defined.

(** ** What discovery makes of a card *)

Lemma Forall2_map_left {A B} (R : B -> A -> Prop) (f : A -> B)
    (l : list A) :
  (forall x, R (f x) x) -> Forall2 R (map f l) l.
Proof. intros H. induction l; simpl; constructor; auto. Qed.

(** X11: a host whose card can be fetched yields, with nothing logged,
    an agent named as the card, reached at the stripped host, whose
    skills are the card's skills in order, each with the id, the name
    and the description of the card's skill and with its tags and its
    examples when these are not empty; its tags are the tags of the
    card's skills, each once, and its examples are the examples of the
    card's skills in order. *)
Theorem X11_profile_of_a_card
    (net : string -> result AgentCard) (agent_host : string)
    (card : AgentCard) :
  net (PyStr.strip agent_host) = Return card ->
  exists info,
    discover_agent net agent_host = ([], Some info)
    /\ name info = card_name card
    /\ host info = PyStr.strip agent_host
    /\ a2a_url (agent info) = PyStr.strip agent_host
    /\ map skill_id (skills info)
       = map cs_id (opt_list (attr_list (card_skills card)))
    /\ NoDup (tags info)
    /\ (forall t,
          In t (tags info) <->
          exists skill,
            In skill (opt_list (attr_list (card_skills card)))
            /\ In t (opt_list (attr_list (cs_tags skill))))
    /\ Forall2
         (fun (skill : Skill) (card_skill : CardSkill) =>
            skill_id skill = cs_id card_skill
            /\ skill_name skill = cs_name card_skill
            /\ skill_description skill = cs_description card_skill
            /\ skill_tags skill
               = match cs_tags card_skill with
                 | Attr (tag :: more) => Some (tag :: more)
                 | _ => None
                 end
            /\ skill_examples skill
               = match cs_examples card_skill with
                 | Attr (example :: more) => Some (example :: more)
                 | _ => None
                 end)
         (skills info)
         (match card_skills card with
          | Attr card_skills => card_skills
          | _ => []
          end)
    /\ examples info
       = flat_map
           (fun card_skill =>
              match cs_examples card_skill with
              | Attr more => more
              | _ => []
              end)
           (match card_skills card with
            | Attr card_skills => card_skills
            | _ => []
            end).
Proof.
  intros H. unfold discover_agent. rewrite H.
  unfold extract_skills.
  assert (Hex : forall l : list CardSkill,
            flat_map
              (fun skill => opt_list (attr_list (cs_examples skill))) l
            = flat_map
                (fun card_skill =>
                   match cs_examples card_skill with
                   | Attr more => more
                   | _ => []
                   end) l).
  { intros l. induction l as [|x l IH]; simpl; [reflexivity|].
    rewrite IH. f_equal. now destruct (cs_examples x) as [| |[|e m]]. }
  assert (Hs : attr_list (card_skills card) = None
               /\ match card_skills card with
                  | Attr card_skills => card_skills
                  | _ => []
                  end = []
               \/ exists l,
                    attr_list (card_skills card) = Some l
                    /\ match card_skills card with
                       | Attr card_skills => card_skills
                       | _ => []
                       end = l).
  { destruct (card_skills card) as [| |[|x l]]; simpl; eauto. }
  destruct Hs as [[-> ->]|(l & -> & ->)];
    eexists; (split; [reflexivity|]);
    cbn [name host agent a2a_url skills tags examples opt_list];
    (split; [reflexivity|]); (split; [reflexivity|]);
    (split; [reflexivity|]).
  - split; [reflexivity|]. split; [constructor|]. split.
    + intros t. split; [intros []|intros (skill & [] & _)].
    + split; [constructor|reflexivity].
  - split; [now rewrite map_map|]. split; [apply NoDup_nodup|]. split.
    + intros t. split; intros Ht.
      * apply nodup_In, in_flat_map in Ht. exact Ht.
      * apply nodup_In, in_flat_map. exact Ht.
    + split; [|apply Hex].
      apply Forall2_map_left. intros x. now repeat split.
Qed.

Lemma X11_witness :
  Sample.net (PyStr.strip " http://three ")
  = Return (Sample.card "three" ["gamma"] ["data"])
  /\ exists info,
       discover_agent Sample.net " http://three " = ([], Some info)
       /\ name info = "three"
       /\ host info = "http://three"
       /\ map skill_id (skills info) = [Some "data"].
Proof.
  assert (H : Sample.net (PyStr.strip " http://three ")
              = Return (Sample.card "three" ["gamma"] ["data"]))
    by reflexivity.
  split; [exact H|].
  destruct (X11_profile_of_a_card Sample.net " http://three " H)
    as (info & Hi & Hn & Hh & _ & Hsk & _).
  exists info. split; [exact Hi|]. split; [exact Hn|].
  split; [exact Hh|exact Hsk].
Defined.

(** ** The host list of the drivers *)

Lemma lstrip_head (s : string) :
  PyStr.lstrip s = EmptyString
  \/ exists c r, PyStr.lstrip s = String c r /\ PyStr.is_space c = false.
Proof.
  induction s as [|c s IH]; simpl.
  - now left.
  - destruct (PyStr.is_space c) eqn:E; [exact IH|].
    right. eauto.
Qed.

Lemma rstrip_cons (c : ascii) (r : string) :
  PyStr.is_space c = false ->
  PyStr.rstrip (String c r) = String c (PyStr.rstrip r).
Proof. intros H. simpl. rewrite H. now destruct (PyStr.rstrip r). Qed.

Lemma rstrip_cons_nonempty (c a : ascii) (r b : string) :
  PyStr.rstrip r = String a b ->
  PyStr.rstrip (String c r) = String c (PyStr.rstrip r).
Proof. intros H. simpl. now rewrite H. Qed.

Lemma rstrip_idem (s : string) :
  PyStr.rstrip (PyStr.rstrip s) = PyStr.rstrip s.
Proof.
  induction s as [|c s IH]; [reflexivity|].
  destruct (PyStr.rstrip s) as [|c' r'] eqn:E.
  - simpl. rewrite E. destruct (PyStr.is_space c) eqn:Hc; [reflexivity|].
    simpl. now rewrite Hc.
  - rewrite (@rstrip_cons_nonempty c c' s r' E), E.
    rewrite (@rstrip_cons_nonempty c c' (String c' r') r' IH).
    now rewrite IH.
Qed.

Lemma strip_idem (s : string) : PyStr.strip (PyStr.strip s) = PyStr.strip s.
Proof.
  unfold PyStr.strip.
  destruct (lstrip_head s) as [->|(c & r & -> & Hc)]; [reflexivity|].
  rewrite (@rstrip_cons c r Hc). cbn [PyStr.lstrip]. rewrite Hc.
  rewrite <- (@rstrip_cons c r Hc). apply rstrip_idem.
Qed.

Lemma lstrip_chars (s : string) (c : ascii) :
  In c (list_ascii_of_string (PyStr.lstrip s)) ->
  In c (list_ascii_of_string s).
Proof.
  induction s as [|a s IH]; simpl; [tauto|].
  destruct (PyStr.is_space a); simpl; auto.
Qed.

Lemma rstrip_chars (s : string) (c : ascii) :
  In c (list_ascii_of_string (PyStr.rstrip s)) ->
  In c (list_ascii_of_string s).
Proof.
  induction s as [|a s IH]; simpl; [tauto|].
  destruct (PyStr.rstrip s) as [|a' r'].
  - destruct (PyStr.is_space a); simpl; tauto.
  - simpl in *. intros [H|H]; auto.
Qed.

Lemma strip_comma_free (s : string) :
  comma_free s -> comma_free (PyStr.strip s).
Proof.
  intros H c Hc. apply H. unfold PyStr.strip in Hc.
  now apply lstrip_chars, rstrip_chars.
Qed.

Lemma chars_snoc (cur : string) (a c : ascii) :
  In c (list_ascii_of_string (cur ++ String a EmptyString)%string) ->
  In c (list_ascii_of_string cur) \/ c = a.
Proof.
  induction cur as [|b cur IH]; simpl.
  - intros [H|[]]; auto.
  - intros [H|H]; auto. destruct (IH H); auto.
Qed.

Lemma fields_from_comma_free (cur s : string) :
  comma_free cur ->
  Forall comma_free (PyStr.fields_from is_comma cur s).
Proof.
  revert cur. induction s as [|a s IH]; intros cur Hcur; simpl.
  - now repeat constructor.
  - destruct (is_comma a) eqn:E.
    + constructor; [exact Hcur|]. apply IH. intros c [].
    + apply IH. intros c Hc. apply chars_snoc in Hc as [Hc| ->]; auto.
Qed.

(** X12: every host that the drivers parse out of [A2A_AGENT_HOST] is
    non-empty, has no white space at either end and contains no comma;
    so the [strip] of [discover_agent] leaves it as it is. *)
Theorem X12_parsed_hosts_are_clean (a2a_agent_hosts_str h : string) :
  In h (parse_hosts a2a_agent_hosts_str) ->
  h <> EmptyString /\ PyStr.strip h = h /\ comma_free h.
Proof.
  unfold parse_hosts. rewrite in_flat_map. intros (f & Hf & Hh).
  destruct (PyStr.strip f) as [|c r] eqn:E; [destruct Hh|].
  cbn [PyStr.truthy] in Hh. destruct Hh as [<-|[]].
  split; [discriminate|]. split.
  - rewrite <- E. apply strip_idem.
  - rewrite <- E. apply strip_comma_free.
    assert (H := fields_from_comma_free (cur := EmptyString)
                   a2a_agent_hosts_str (fun c (H : False) => match H with end)).
    rewrite Forall_forall in H. now apply H.
Qed.

Lemma X12_witness :
  In "http://h3" (parse_hosts " http://h1 ,, http://h3,")
  /\ parse_hosts " http://h1 ,, http://h3," = ["http://h1"; "http://h3"]
  /\ PyStr.strip "http://h3" = "http://h3".
Proof.
  assert (H : In "http://h3" (parse_hosts " http://h1 ,, http://h3,"))
    by (vm_compute; auto).
  split; [exact H|]. split; [reflexivity|].
  destruct (X12_parsed_hosts_are_clean _ _ H) as (_ & Hs & _). exact Hs.
Defined.

Lemma append_snoc (cur : string) (c : ascii) (x : string) :
  ((cur ++ String c EmptyString) ++ x)%string = (cur ++ String c x)%string.
Proof. induction cur as [|b cur IH]; simpl; [reflexivity|now rewrite IH]. Qed.

Lemma append_empty_r (s : string) : (s ++ EmptyString)%string = s.
Proof. induction s as [|c s IH]; simpl; [reflexivity|now rewrite IH]. Qed.

Lemma comma_free_tail (c : ascii) (x : string) :
  comma_free (String c x) -> is_comma c = false /\ comma_free x.
Proof.
  intros H. split.
  - apply H. now left.
  - intros a Ha. apply H. now right.
Qed.

Lemma fields_from_last (cur x : string) :
  comma_free x ->
  PyStr.fields_from is_comma cur x = [(cur ++ x)%string].
Proof.
  revert cur. induction x as [|c x IH]; intros cur H; simpl.
  - now rewrite append_empty_r.
  - apply comma_free_tail in H as [Hc Hx]. rewrite Hc, IH by exact Hx.
    now rewrite append_snoc.
Qed.

Lemma fields_from_next (cur x rest : string) :
  comma_free x ->
  PyStr.fields_from is_comma cur (x ++ String ","%char rest)%string
  = (cur ++ x)%string :: PyStr.fields_from is_comma EmptyString rest.
Proof.
  revert cur. induction x as [|c x IH]; intros cur H; simpl.
  - now rewrite append_empty_r.
  - apply comma_free_tail in H as [Hc Hx]. rewrite Hc, IH by exact Hx.
    now rewrite append_snoc.
Qed.

Lemma fields_join (l : list string) :
  l <> [] -> Forall comma_free l ->
  PyStr.fields is_comma (PyStr.join "," l) = l.
Proof.
  unfold PyStr.fields. induction l as [|x l IH]; [contradiction|].
  intros _ H. inversion H as [|? ? Hx Hl]; subst.
  destruct l as [|y l].
  - simpl. now rewrite fields_from_last.
  - change (PyStr.join "," (x :: y :: l))
      with (x ++ String ","%char (PyStr.join "," (y :: l)))%string.
    rewrite fields_from_next by exact Hx. cbn [append].
    f_equal. apply IH; [discriminate|exact Hl].
Qed.

(** X13: the comma-separated configuration round-trips: joining with
    commas a list of hosts that are non-empty, free of commas and of
    white space at either end, and parsing the result as the drivers do,
    gives the list back. *)
Theorem X13_hosts_round_trip (hosts : list string) :
  Forall (fun h => h <> EmptyString /\ PyStr.strip h = h /\ comma_free h)
    hosts ->
  parse_hosts (PyStr.join "," hosts) = hosts.
Proof.
  intros H. destruct hosts as [|h0 hosts0]; [reflexivity|].
  unfold parse_hosts. rewrite fields_join.
  - induction H as [|h l (Hne & Hs & _) _ IH]; [reflexivity|].
    cbn [flat_map]. rewrite Hs, (truthy_nonempty Hne). cbn [app].
    now rewrite IH.
  - discriminate.
  - eapply Forall_impl; [|exact H]. now intros h (_ & _ & Hc).
Qed.

Lemma X13_witness :
  Forall (fun h => h <> EmptyString /\ PyStr.strip h = h /\ comma_free h)
    ["https://ppt-agent.example.com"; "https://blog-agent.example.com"]
  /\ parse_hosts
       "https://ppt-agent.example.com,https://blog-agent.example.com"
     = ["https://ppt-agent.example.com"; "https://blog-agent.example.com"].
Proof.
  assert (H : Forall
                (fun h => h <> EmptyString /\ PyStr.strip h = h
                          /\ comma_free h)
                ["https://ppt-agent.example.com";
                 "https://blog-agent.example.com"]).
  { repeat constructor; try discriminate;
      intros c Hc; simpl in Hc;
      repeat (destruct Hc as [<-|Hc]; [reflexivity|]); destruct Hc. }
  split; [exact H|].
  exact (X13_hosts_round_trip H).
Defined.

(** ** Before the first task *)

Lemma insert_all_nil_length (l : list AgentInfo) (d : Dict.dict AgentInfo) :
  l <> [] -> insert_all l d <> [].
Proof.
  destruct l as [|i l]; [contradiction|]. intros _ H.
  assert (Hh := insert_all_has_head i l d). rewrite H in Hh. discriminate.
Qed.

(** X14: the drivers raise only when [A2A_AGENT_HOST] is unset or empty;
    and when they go on to route tasks, the registry is well formed and
    not empty and a default agent is set, so that [select_agent] returns
    an agent for every task provided the default agent's name is not
    empty. *)
Theorem X14_routing_starts_with_a_default
    (not_set_msg : string) (net : string -> result AgentCard)
    (env : option string) :
  (forall e, startup not_set_msg net env = Raise e ->
     e = ValueError not_set_msg /\ (env = None \/ env = Some EmptyString))
  /\ (forall orchestrator,
        startup not_set_msg net env = Return (Some orchestrator) ->
        registry_ok orchestrator
        /\ agents orchestrator <> []
        /\ exists d,
             default_agent orchestrator = Some d
             /\ (d <> EmptyString ->
                 forall task,
                 exists info,
                   select_agent orchestrator task = Return (Some info))).
Proof.
  unfold startup. split.
  - intros e. destruct env as [[|c s]|]; cbn [PyStr.truthy negb].
    + intros [= <-]. auto.
    + destruct (discover_all_agents net init _) as [[o lg] n].
      destruct (n =? 0)%nat; discriminate.
    + intros [= <-]. auto.
  - intros o. destruct env as [[|c s]|]; cbn [PyStr.truthy negb];
      try discriminate.
    assert (Hok := discover_all_agents_ok net (parse_hosts (String c s))
                     init_ok).
    revert Hok. rewrite discover_all_agents_eq. cbn [fst].
    destruct (discovered net (parse_hosts (String c s))) as [|i l] eqn:Ed.
    + cbn. intros _ [=].
    + destruct (List.length (insert_all (i :: l) (agents init)) =? 0)%nat
        eqn:En.
      * intros _ [=].
      * intros Hok [= <-]. split; [exact Hok|]. split.
        -- cbn [agents].
           assert (Hil : i :: l <> []) by discriminate.
           exact (@insert_all_nil_length (i :: l) (agents init) Hil).
        -- exists (name i). split; [reflexivity|].
           intros Hn task.
           apply (@select_agent_with_default _ task (name i) Hok eq_refl Hn).
Qed.

Lemma X14_witness :
  exists orchestrator,
    startup interactive_not_set_msg Sample.net
      (Some "http://h1, http://h2 ,http://h3")
    = Return (Some orchestrator)
    /\ Dict.keys (agents orchestrator) = ["blog_agent"; "ppt_agent"]
    /\ default_agent orchestrator = Some "blog_agent"
    /\ exists info,
         select_agent orchestrator "hello" = Return (Some info).
Proof.
  eexists.
  assert (H : startup interactive_not_set_msg Sample.net
                (Some "http://h1, http://h2 ,http://h3") = Return (Some _))
    by (vm_compute; reflexivity).
  split; [exact H|]. split; [reflexivity|]. split; [reflexivity|].
  destruct (X14_routing_starts_with_a_default interactive_not_set_msg
              Sample.net (Some "http://h1, http://h2 ,http://h3"))
    as [_ Hs].
  destruct (Hs _ H) as (_ & _ & d & Hd & Hsel).
  injection Hd as <-. apply Hsel. discriminate.
Defined.

(** ** Routing below the threshold, and batches with failures *)

(** X29: on a well-formed, non-empty registry, for a task routed
    without an explicit agent, let best be the first registered agent
    with the greatest score.  If that score is strictly greater than
    0.1, best is selected and run.  Otherwise a default agent with a
    non-empty name is selected and run, whatever it scores; and when the
    name of the default agent is empty, or no default agent is set,
    selection yields no agent and [send_task] raises the [ValueError]
    for no suitable agent. *)
Theorem X29_threshold_then_default
    (run : A2AAgent -> string -> result (list Message))
    (self : MultiAgentOrchestrator) (task : string) :
  registry_ok self ->
  agents self <> [] ->
  exists before best after,
    agents self = before ++ (name best, best) :: after
    /\ Forall (fun e : string * AgentInfo =>
                 ltb (score_of self task (snd e)) (score_of self task best)
                 = true) before
    /\ Forall (fun e : string * AgentInfo =>
                 leb (score_of self task (snd e)) (score_of self task best)
                 = true) after
    /\ (gtb (score_of self task best) f0_1 = true ->
        select_agent self task = Return (Some best)
        /\ send_task run self task None = invoke run best task)
    /\ (gtb (score_of self task best) f0_1 = false ->
        (forall d, default_agent self = Some d -> d <> EmptyString ->
           exists info,
             Dict.get d (agents self) = Some info
             /\ select_agent self task = Return (Some info)
             /\ send_task run self task None = invoke run info task)
        /\ (default_agent self = Some EmptyString
            \/ default_agent self = None ->
            select_agent self task = Return None
            /\ send_task run self task None
               = Raise (ValueError no_agent_msg))).
Proof.
  intros Hok Hne.
  destruct (select_agent_best task Hok Hne)
    as (before & best & after & rest & Ha & _ & Hb & Haf & Hs).
  exists before, best, after.
  split; [exact Ha|]. split; [exact Hb|]. split; [exact Haf|].
  destruct Hok as (_ & _ & Hd).
  split; intros Hg; rewrite Hg in Hs.
  - split; [exact Hs|]. unfold send_task. now rewrite Hs.
  - split.
    + intros d Ed Hd0. rewrite Ed, (truthy_nonempty Hd0) in Hs.
      specialize (Hd d Ed). unfold Dict.has in Hd. unfold subscript in Hs.
      destruct (Dict.get d (agents self)) as [info|]; [|discriminate].
      exists info. split; [reflexivity|]. split; [exact Hs|].
      unfold send_task. now rewrite Hs.
    + intros [Ed|Ed]; rewrite Ed in Hs; cbn [PyStr.truthy] in Hs;
        (split; [exact Hs|]); unfold send_task; now rewrite Hs.
Qed.

(** The end-to-end scenario: the PPT task goes to [ppt_agent]; a task
    that matches nothing goes to the default agent [blog_agent]. *)
Lemma X29_witness :
  registry_ok Sample.two_agents
  /\ agents Sample.two_agents <> []
  /\ (exists before best after,
        agents Sample.two_agents = before ++ (name best, best) :: after
        /\ (gtb (score_of Sample.two_agents "Create a PPT about Kubernetes"
                   best) f0_1 = true ->
            select_agent Sample.two_agents "Create a PPT about Kubernetes"
            = Return (Some best)))
  /\ (exists info,
        select_agent Sample.two_agents "Create a PPT about Kubernetes"
        = Return (Some info) /\ name info = "ppt_agent")
  /\ (exists info,
        select_agent Sample.two_agents "hello" = Return (Some info)
        /\ name info = "blog_agent").
Proof.
  assert (Hne : agents Sample.two_agents <> []) by discriminate.
  split; [apply registry_ok_after|]. split; [exact Hne|]. split.
  - destruct (X29_threshold_then_default Sample.run
                "Create a PPT about Kubernetes"
                (registry_ok_after _) Hne)
      as (before & best & after & Ha & _ & _ & Hhi & _).
    exists before, best, after. split; [exact Ha|].
    intros Hg. apply Hhi, Hg.
  - split; eexists; split; vm_compute; reflexivity.
Defined.



(* ================================================================== *)
(** * Properties of the agent services *)

Import AgentFiles.

(** ** Names, suffixes and patterns *)

Lemma substring_full (s : string) : substring 0 (String.length s) s = s.
Proof. induction s as [|c s IH]; simpl; [reflexivity|now rewrite IH]. Qed.

Lemma substring_app_r (p x : string) :
  substring (String.length p) (String.length x) (p ++ x)%string = x.
Proof. induction p as [|c p IH]; simpl; [apply substring_full|exact IH]. Qed.

Lemma length_app_string (p x : string) :
  String.length (p ++ x)%string = String.length p + String.length x.
Proof. induction p as [|c p IH]; simpl; [reflexivity|now rewrite IH]. Qed.

Lemma prefix_split (p s : string) :
  prefix p s = true -> exists r, s = (p ++ r)%string.
Proof.
  revert s. induction p as [|c p IH]; intros s H.
  - now exists s.
  - destruct s as [|c' s]; simpl in H; [discriminate|].
    destruct (ascii_dec c c') as [->|]; [|discriminate].
    destruct (IH s H) as [r ->]. now exists r.
Qed.

Lemma split_at (n : nat) (s : string) :
  n <= String.length s ->
  s = (substring 0 n s ++ substring n (String.length s - n) s)%string.
Proof.
  revert s. induction n as [|n IH]; intros s H.
  - rewrite Nat.sub_0_r, substring_full. now destruct s.
  - destruct s as [|c s]; simpl in *; [lia|].
    f_equal. apply IH. lia.
Qed.

Lemma length_substring_0 (n : nat) (s : string) :
  n <= String.length s -> String.length (substring 0 n s) = n.
Proof.
  revert s. induction n as [|n IH]; intros s H.
  - now destruct s.
  - destruct s as [|c s]; simpl in *; [lia|]. rewrite IH; lia.
Qed.

Lemma ends_with_split (suf s : string) :
  ends_with suf s = true -> exists pre, s = (pre ++ suf)%string.
Proof.
  unfold ends_with. intros H. apply andb_prop in H as [Hl He].
  apply Nat.leb_le in Hl. apply String.eqb_eq in He.
  set (n := String.length s - String.length suf) in *.
  exists (substring 0 n s).
  transitivity (substring 0 n s ++ substring n (String.length s - n) s)%string.
  - apply split_at. unfold n. lia.
  - f_equal. replace (String.length s - n) with (String.length suf)
      by (unfold n; lia).
    exact He.
Qed.

Lemma matches_pattern_split (pre suf name : string) :
  matches_pattern pre suf name = true ->
  exists mid, name = (pre ++ mid ++ suf)%string.
Proof.
  unfold matches_pattern. intros H. apply andb_prop in H as [Hp He].
  apply prefix_split in Hp as [r ->].
  rewrite length_app_string in He.
  replace (String.length pre + String.length r - String.length pre)
    with (String.length r) in He by lia.
  rewrite substring_app_r in He.
  apply ends_with_split in He as [mid ->]. now exists mid.
Qed.

Lemma rfind_dot_app (p e : string) :
  rfind_dot e = None ->
  rfind_dot (p ++ String "."%char e)%string = Some (String.length p).
Proof.
  intros He. induction p as [|c p IH]; simpl.
  - now rewrite He.
  - now rewrite IH.
Qed.

(** The suffix of a name that ends with a dot and a non-empty extension
    without dots, after a non-empty stem, is that dot and extension. *)
Lemma suffix_ext (p e : string) :
  p <> EmptyString -> e <> EmptyString -> rfind_dot e = None ->
  suffix (p ++ String "."%char e)%string = String "."%char e.
Proof.
  intros Hp He Hd. unfold suffix. rewrite (@rfind_dot_app p e Hd).
  rewrite length_app_string. cbn [String.length].
  assert (0 < String.length p) by (destruct p; simpl; [contradiction|lia]).
  assert (0 < String.length e) by (destruct e; simpl; [contradiction|lia]).
  replace ((0 <? String.length p)%nat) with true
    by (symmetry; apply Nat.ltb_lt; lia).
  replace ((String.length p <? String.length p + S (String.length e) - 1)%nat)
    with true by (symmetry; apply Nat.ltb_lt; lia).
  cbn [andb].
  replace (String.length p + S (String.length e) - String.length p)
    with (String.length (String "."%char e)) by (simpl; lia).
  apply substring_app_r.
Qed.

Lemma rfind_dot_bound (name : string) (i : nat) :
  rfind_dot name = Some i -> i < String.length name.
Proof.
  revert i. induction name as [|c r IH]; intros i; simpl; [discriminate|].
  destruct (rfind_dot r) as [j|].
  - intros [= <-]. specialize (IH j eq_refl). lia.
  - destruct (Ascii.eqb c "."%char); [|discriminate]. intros [= <-]. lia.
Qed.

(** A non-empty suffix is what the name ends with, after a non-empty
    stem. *)
Lemma suffix_split (name s : string) :
  suffix name = s -> s <> EmptyString ->
  exists stem, stem <> EmptyString /\ name = (stem ++ s)%string.
Proof.
  unfold suffix. destruct (rfind_dot name) as [i|] eqn:E;
    [|intros <- H; now contradiction H].
  destruct ((0 <? i)%nat && (i <? String.length name - 1)%nat) eqn:C;
    [|intros <- H; now contradiction H].
  apply andb_prop in C as [C1 C2].
  apply Nat.ltb_lt in C1. apply Nat.ltb_lt in C2.
  intros <- _. exists (substring 0 i name). split.
  - intros H0. assert (L := @length_substring_0 i name ltac:(lia)).
    rewrite H0 in L. simpl in L. lia.
  - apply split_at. lia.
Qed.

Lemma path_exists_entry (d : folder) (filename : string) :
  filename <> "." -> filename <> ".." ->
  path_exists d filename = true ->
  folder_exists d = true
  /\ exists f, In f (entries d) /\ file_name f = filename.
Proof.
  intros H1 H2. unfold path_exists.
  apply String.eqb_neq in H1, H2. rewrite H1, H2. cbn [orb].
  intros H. apply andb_prop in H as [He Hx]. split; [exact He|].
  apply existsb_exists in Hx as (f & Hf & E).
  apply String.eqb_eq in E. eauto.
Qed.

Lemma entry_path_exists (d : folder) (f : file) :
  folder_exists d = true -> In f (entries d) ->
  path_exists d (file_name f) = true.
Proof.
  intros He Hf. unfold path_exists. rewrite He.
  destruct (_ || _); [reflexivity|]. cbn [andb].
  apply existsb_exists. exists f. split; [exact Hf|apply String.eqb_refl].
Qed.

(** ** Downloads *)

(** X15: [download_ppt] serves a file only when the folder has an
    entry of that name whose suffix, lower-cased, is one of [.pptx],
    [.ppt], [.pdf], [.md]; the path served is that entry of the folder
    (never the folder itself or its parent), and the media type is the
    one the table gives for the suffix, never the fallback
    [application/octet-stream]. *)
Theorem X15_download_ppt_serves_presentations_only
    (d : folder) (filename : string) (r : FileResponse) :
  download_ppt d filename = Ok r ->
  folder_exists d = true
  /\ (exists f, In f (entries d) /\ file_name f = filename)
  /\ fr_path r = (folder_path d ++ "/" ++ filename)%string
  /\ fr_filename r = filename
  /\ In (PyStr.lower (suffix filename)) allowed_extensions
  /\ Dict.get (PyStr.lower (suffix filename)) media_types
     = Some (fr_media_type r)
  /\ exists stem,
       stem <> EmptyString /\ filename = (stem ++ suffix filename)%string.
Proof.
  unfold download_ppt.
  destruct (path_exists d filename) eqn:Ex; [|discriminate]. cbn [negb].
  destruct (PyStr.mem (PyStr.lower (suffix (path_name "ppt" filename)))
              allowed_extensions) eqn:Em; [|discriminate].
  cbn [negb]. intros [= <-]. cbn [fr_path fr_filename fr_media_type].
  assert (H1 : filename <> ".").
  { intros ->. vm_compute in Em. discriminate. }
  assert (H2 : filename <> "..").
  { intros ->. vm_compute in Em. discriminate. }
  destruct (@path_exists_entry d filename H1 H2 Ex) as [He Hf].
  unfold path_name, path_str in *.
  apply String.eqb_neq in H1. rewrite H1 in *.
  apply mem_In in Em.
  split; [exact He|]. split; [exact Hf|]. split; [reflexivity|].
  split; [reflexivity|]. split; [exact Em|]. split.
  - unfold get_default.
    simpl in Em. destruct Em as [<-|[<-|[<-|[<-|[]]]]]; reflexivity.
  - apply (@suffix_split filename (suffix filename) eq_refl).
    intros E. rewrite E in Em. simpl in Em.
    destruct Em as [?|[?|[?|[?|[]]]]]; discriminate.
Qed.

(** X16: [download_blog] serves a file only when the folder has an
    entry of that name that ends, after a non-empty stem, with [.md] in
    exactly this letter case; it is served as [text/markdown]. *)
Theorem X16_download_blog_serves_md_only
    (d : folder) (filename : string) (r : FileResponse) :
  download_blog d filename = Ok r ->
  folder_exists d = true
  /\ (exists f, In f (entries d) /\ file_name f = filename)
  /\ suffix filename = ".md"
  /\ (exists stem,
        stem <> EmptyString /\ filename = (stem ++ ".md")%string)
  /\ r = {| fr_path := (folder_path d ++ "/" ++ filename)%string;
            fr_filename := filename;
            fr_media_type := "text/markdown" |}.
Proof.
  unfold download_blog.
  destruct (path_exists d filename) eqn:Ex; [|discriminate]. cbn [negb].
  destruct (String.eqb (suffix (path_name "blog" filename)) ".md") eqn:Es;
    [|discriminate].
  cbn [negb]. intros [= <-].
  assert (H1 : filename <> ".").
  { intros ->. vm_compute in Es. discriminate. }
  assert (H2 : filename <> "..").
  { intros ->. vm_compute in Es. discriminate. }
  destruct (@path_exists_entry d filename H1 H2 Ex) as [He Hf].
  unfold path_name, path_str in *.
  apply String.eqb_neq in H1. rewrite H1 in *.
  apply String.eqb_eq in Es.
  split; [exact He|]. split; [exact Hf|]. split; [exact Es|].
  split; [|reflexivity].
  apply (@suffix_split filename ".md" Es). discriminate.
Qed.

Lemma X15_witness :
  download_ppt SampleFiles.ppt_folder "OLD.PPTX"
  = Ok {| fr_path := "/app/ppt/OLD.PPTX";
          fr_filename := "OLD.PPTX";
          fr_media_type :=
            "application/vnd.openxmlformats-officedocument.presentationml.presentation" |}
  /\ In (PyStr.lower (suffix "OLD.PPTX")) allowed_extensions.
Proof.
  assert (H : download_ppt SampleFiles.ppt_folder "OLD.PPTX"
              = Ok {| fr_path := "/app/ppt/OLD.PPTX";
                      fr_filename := "OLD.PPTX";
                      fr_media_type :=
                        "application/vnd.openxmlformats-officedocument.presentationml.presentation" |})
    by reflexivity.
  split; [exact H|].
  destruct (X15_download_ppt_serves_presentations_only _ _ H)
    as (_ & _ & _ & _ & Hin & _).
  exact Hin.
Defined.

Lemma X16_witness :
  download_blog SampleFiles.blog_folder "draft.md"
  = Ok {| fr_path := "/app/blog/draft.md";
          fr_filename := "draft.md";
          fr_media_type := "text/markdown" |}
  /\ suffix "draft.md" = ".md"
  /\ download_blog SampleFiles.blog_folder "README.MD"
     = HTTPException 400 "Only .md files are allowed".
Proof.
  assert (H : download_blog SampleFiles.blog_folder "draft.md"
              = Ok {| fr_path := "/app/blog/draft.md";
                      fr_filename := "draft.md";
                      fr_media_type := "text/markdown" |})
    by reflexivity.
  split; [exact H|].
  destruct (X16_download_blog_serves_md_only _ _ H) as (_ & _ & Hs & _).
  split; [exact Hs|reflexivity].
Defined.

(** ** Sorting with an order on the elements *)

Section SortedByFacts.

Variable A : Type.
Variable lt : A -> A -> bool.

Lemma insert_by_perm (x : A) (l : list A) :
  Permutation (insert_by lt x l) (x :: l).
Proof.
  induction l as [|y r IH]; simpl; [reflexivity|].
  destruct (lt y x); [|reflexivity].
  rewrite IH. apply perm_swap.
Qed.

Lemma sort_by_perm (l : list A) : Permutation (sort_by lt l) l.
Proof.
  induction l as [|x r IH]; simpl; [reflexivity|].
  rewrite insert_by_perm. now constructor.
Qed.

Lemma sorted_reverse_perm (l : list A) :
  Permutation (sorted_reverse lt l) l.
Proof.
  unfold sorted_reverse.
  rewrite <- Permutation_rev, sort_by_perm. symmetry. apply Permutation_rev.
Qed.

Hypothesis lt_irrefl : forall a, lt a a = false.
Hypothesis lt_trans :
  forall a b c, lt a b = true -> lt b c = true -> lt a c = true.
Hypothesis lt_negtrans :
  forall a b c, lt a b = false -> lt b c = false -> lt a c = false.

Lemma lt_asym (a b : A) : lt a b = true -> lt b a = false.
Proof.
  intros H. destruct (lt b a) eqn:E; [|reflexivity].
  rewrite <- (lt_irrefl a). symmetry. exact (lt_trans H E).
Qed.

Lemma insert_by_sorted (x : A) (l : list A) :
  StronglySorted (fun a b => lt b a = false) l ->
  StronglySorted (fun a b => lt b a = false) (insert_by lt x l).
Proof.
  intros Hs. induction Hs as [|y r Hr IH Hy]; simpl.
  - repeat constructor.
  - destruct (lt y x) eqn:E.
    + constructor; [exact IH|].
      eapply Permutation_Forall; [symmetry; apply insert_by_perm|].
      constructor; [now apply lt_asym|exact Hy].
    + constructor; [now constructor|].
      constructor; [exact E|].
      rewrite Forall_forall in Hy |- *. intros b Hb.
      apply (@lt_negtrans b y x); auto.
Qed.

Lemma sort_by_sorted (l : list A) :
  StronglySorted (fun a b => lt b a = false) (sort_by lt l).
Proof.
  induction l as [|x r IH]; simpl; [constructor|].
  now apply insert_by_sorted.
Qed.

(** No element of a reverse-sorted list is smaller than a later one. *)
Lemma sorted_reverse_sorted (l : list A) :
  StronglySorted (fun a b => lt a b = false) (sorted_reverse lt l).
Proof.
  unfold sorted_reverse.
  apply (StronglySorted_rev_flip (R := fun a b => lt b a = false)).
  apply sort_by_sorted.
Qed.

End SortedByFacts.

(** ** The order of [str] *)

Lemma ascii_compare_refl (a : ascii) : Ascii.compare a a = Eq.
Proof. unfold Ascii.compare. apply N.compare_refl. Qed.

Lemma string_compare_refl (s : string) : String.compare s s = Eq.
Proof.
  induction s as [|c s IH]; simpl; [reflexivity|].
  now rewrite ascii_compare_refl.
Qed.

Lemma ascii_compare_trans (a b c : ascii) (o : comparison) :
  Ascii.compare a b = o -> Ascii.compare b c = o -> Ascii.compare a c = o.
Proof.
  unfold Ascii.compare. intros <-.
  destruct (N.compare_spec (N_of_ascii a) (N_of_ascii b)) as [E|L|G];
    intros H; [now rewrite E| |].
  - rewrite N.compare_lt_iff in H. apply N.compare_lt_iff. lia.
  - rewrite N.compare_gt_iff in H. apply N.compare_gt_iff. lia.
Qed.

Lemma string_compare_trans (o : comparison) (s1 s2 s3 : string) :
  String.compare s1 s2 = o -> String.compare s2 s3 = o ->
  String.compare s1 s3 = o.
Proof.
  revert s2 s3.
  induction s1 as [|a s1 IH]; intros [|b s2] [|c s3]; simpl;
    try congruence.
  destruct (Ascii.compare a b) eqn:Eab; destruct (Ascii.compare b c) eqn:Ebc;
    try congruence.
  - apply Ascii.compare_eq_iff in Eab, Ebc. subst.
    rewrite ascii_compare_refl. apply IH.
  - apply Ascii.compare_eq_iff in Eab. subst. now rewrite Ebc.
  - apply Ascii.compare_eq_iff in Eab. subst. now rewrite Ebc.
  - apply Ascii.compare_eq_iff in Ebc. subst. now rewrite Eab.
  - now rewrite (ascii_compare_trans _ _ _ Eab Ebc).
  - apply Ascii.compare_eq_iff in Ebc. subst. now rewrite Eab.
  - now rewrite (ascii_compare_trans _ _ _ Eab Ebc).
Qed.

Lemma string_ltb_irrefl (s : string) : String.ltb s s = false.
Proof. unfold String.ltb. now rewrite string_compare_refl. Qed.

Lemma string_ltb_trans (a b c : string) :
  String.ltb a b = true -> String.ltb b c = true -> String.ltb a c = true.
Proof.
  unfold String.ltb. intros H1 H2.
  destruct (String.compare a b) eqn:E1; try discriminate.
  destruct (String.compare b c) eqn:E2; try discriminate.
  now rewrite (string_compare_trans _ _ _ E1 E2).
Qed.

Lemma string_ltb_negtrans (a b c : string) :
  String.ltb a b = false -> String.ltb b c = false ->
  String.ltb a c = false.
Proof.
  unfold String.ltb. intros H1 H2.
  destruct (String.compare a b) eqn:E1; try discriminate;
    destruct (String.compare b c) eqn:E2; try discriminate.
  - apply String.compare_eq_iff in E1, E2. subst.
    now rewrite string_compare_refl.
  - apply String.compare_eq_iff in E1. subst. now rewrite E2.
  - apply String.compare_eq_iff in E2. subst. now rewrite E1.
  - now rewrite (string_compare_trans _ _ _ E1 E2).
Qed.

(** ** Listings *)

Lemma In_glob (d : folder) (pre suf : string) (f : file) :
  In f (glob d pre suf) ->
  folder_exists d = true
  /\ In f (entries d)
  /\ matches_pattern pre suf (file_name f) = true.
Proof.
  unfold glob. destruct (folder_exists d); [|intros []].
  rewrite filter_In. tauto.
Qed.

Lemma long_name_not_dot (p e : string) :
  (p ++ String "."%char e)%string = "." -> p = EmptyString /\ e = EmptyString.
Proof.
  destruct p as [|c p]; simpl.
  - intros [= ->]. auto.
  - intros [= -> H]. destruct p; discriminate.
Qed.

(** A folder entry named [blog-*.md] can be downloaded. *)
Lemma blog_entry_downloads (d : folder) (f : file) :
  folder_exists d = true -> In f (entries d) ->
  matches_pattern "blog-" ".md" (file_name f) = true ->
  download_blog d (file_name f)
  = Ok {| fr_path := (folder_path d ++ "/" ++ file_name f)%string;
          fr_filename := file_name f;
          fr_media_type := "text/markdown" |}.
Proof.
  intros He Hf Hm. unfold download_blog.
  rewrite (entry_path_exists d f He Hf). cbn [negb].
  apply matches_pattern_split in Hm as [mid Hn].
  assert (Hs : suffix (file_name f) = ".md").
  { rewrite Hn.
    change ("blog-" ++ mid ++ ".md")%string
      with (("blog-" ++ mid) ++ String "."%char "md")%string.
    apply suffix_ext; [discriminate|discriminate|reflexivity]. }
  assert (Hd : String.eqb (file_name f) "." = false).
  { apply String.eqb_neq. rewrite Hn. discriminate. }
  unfold path_name, path_str. rewrite Hd, Hs. reflexivity.
Qed.

(** X17: every file that [list_blogs] lists can be downloaded: its
    [download_url] is [/blog/] followed by its name, and [download_blog]
    on that name serves the entry of the folder as [text/markdown]. *)
Theorem X17_listed_blogs_download
    (isoformat : float -> string) (d : folder) (l : listing)
    (item : listed) :
  list_blogs isoformat d = Ok l ->
  In item (items l) ->
  l_download_url item = ("/blog/" ++ l_filename item)%string
  /\ download_blog d (l_filename item)
     = Ok {| fr_path := (folder_path d ++ "/" ++ l_filename item)%string;
             fr_filename := l_filename item;
             fr_media_type := "text/markdown" |}.
Proof.
  unfold list_blogs. intros [= <-]. cbn [items].
  rewrite in_map_iff. intros (f & <- & Hf). cbn [l_download_url l_filename].
  split; [reflexivity|].
  apply (Permutation_in _ (sorted_reverse_perm path_lt _)) in Hf.
  apply In_glob in Hf as (He & Hin & Hm).
  now apply blog_entry_downloads.
Qed.

Lemma X17_witness :
  exists l item,
    list_blogs SampleFiles.isoformat SampleFiles.blog_folder = Ok l
    /\ map l_filename (items l)
       = ["blog-2026-02-02.md"; "blog-2026-01-30.md"]
    /\ In item (items l)
    /\ l_download_url item = "/blog/blog-2026-02-02.md"
    /\ download_blog SampleFiles.blog_folder "blog-2026-02-02.md"
       = Ok {| fr_path := "/app/blog/blog-2026-02-02.md";
               fr_filename := "blog-2026-02-02.md";
               fr_media_type := "text/markdown" |}.
Proof.
  eexists. eexists.
  assert (H : list_blogs SampleFiles.isoformat SampleFiles.blog_folder
              = Ok _) by reflexivity.
  assert (Hi : In (mkListed "blog-2026-02-02.md" "/blog/blog-2026-02-02.md"
                     1200 "1970-01-01T00:00:00")
                 (items (mkListing
                    [mkListed "blog-2026-02-02.md" "/blog/blog-2026-02-02.md"
                       1200 "1970-01-01T00:00:00";
                     mkListed "blog-2026-01-30.md" "/blog/blog-2026-01-30.md"
                       900 "1970-01-01T00:00:00"] 2))) by (now left).
  split; [exact H|]. split; [reflexivity|]. split; [exact Hi|].
  exact (@X17_listed_blogs_download SampleFiles.isoformat
           SampleFiles.blog_folder _ _ H Hi).
Defined.

(** X18: [list_blogs] lists exactly the entries of the folder named
    [blog-*.md], in descending order of name, and [total] is their
    number. *)
Theorem X18_blogs_listed_in_descending_name_order
    (isoformat : float -> string) (d : folder) (l : listing) :
  list_blogs isoformat d = Ok l ->
  Permutation (map l_filename (items l))
    (map file_name (glob d "blog-" ".md"))
  /\ StronglySorted
       (fun a b => String.ltb (l_filename a) (l_filename b) = false)
       (items l)
  /\ total l = List.length (glob d "blog-" ".md").
Proof.
  unfold list_blogs. intros [= <-]. cbn [items total].
  assert (P := sorted_reverse_perm path_lt (glob d "blog-" ".md")).
  split; [|split].
  - rewrite map_map. cbn [l_filename]. now apply Permutation_map.
  - assert (S : StronglySorted (fun a b => path_lt a b = false)
                  (sorted_reverse path_lt (glob d "blog-" ".md"))).
    { apply sorted_reverse_sorted; unfold path_lt; intros.
      - apply string_ltb_irrefl.
      - eapply string_ltb_trans; eauto.
      - eapply string_ltb_negtrans; eauto. }
    clear P. induction S as [|x r Sr IH Hx]; cbn [map]; constructor.
    + exact IH.
    + rewrite Forall_map. exact Hx.
  - rewrite length_map. now apply Permutation_length.
Qed.

Lemma X18_witness :
  exists l,
    list_blogs SampleFiles.isoformat SampleFiles.blog_folder = Ok l
    /\ map l_filename (items l)
       = ["blog-2026-02-02.md"; "blog-2026-01-30.md"]
    /\ total l = 2.
Proof.
  eexists.
  assert (H : list_blogs SampleFiles.isoformat SampleFiles.blog_folder
              = Ok _) by reflexivity.
  split; [exact H|]. split; [reflexivity|].
  destruct (@X18_blogs_listed_in_descending_name_order
              SampleFiles.isoformat SampleFiles.blog_folder _ H)
    as (_ & _ & Ht).
  rewrite Ht. reflexivity.
Defined.

Lemma In_ppt_files (d : folder) (f : file) :
  In f (ppt_files d) ->
  folder_exists d = true
  /\ In f (entries d)
  /\ exists ext mid,
       In ext allowed_extensions /\ file_name f = (mid ++ ext)%string.
Proof.
  unfold ppt_files. rewrite in_flat_map. intros (ext & He & Hf).
  apply In_glob in Hf as (Hd & Hin & Hm).
  apply matches_pattern_split in Hm as [mid Hn].
  split; [exact Hd|]. split; [exact Hin|]. now exists ext, mid.
Qed.

(** A name with a non-empty stem before one of the four extensions is
    not itself one of them. *)
Lemma stem_ext_not_bare (c : ascii) (mid ext : string) :
  In ext allowed_extensions ->
  ~ In (String c mid ++ ext)%string allowed_extensions.
Proof.
  intros He Hn. simpl in He, Hn.
  destruct He as [<-|[<-|[<-|[<-|[]]]]];
    destruct Hn as [Hn|[Hn|[Hn|[Hn|[]]]]];
    injection Hn as _ Hn;
    repeat (destruct mid as [|? mid]; simpl in Hn;
            [discriminate|injection Hn as _ Hn]);
    destruct mid; discriminate.
Qed.

(** X19: every file that [list_ppts] lists has the download URL [/ppt/]
    followed by its name.  [download_ppt] on that name serves the file
    with the media type of its suffix, except when the whole name is one
    of [.pptx], [.ppt], [.pdf], [.md]: such a file is listed, but its
    download is refused with the status 400. *)
Theorem X19_listed_ppts_download
    (isoformat : float -> string) (d : folder) (l : listing)
    (item : listed) :
  list_ppts isoformat d = Ok l ->
  In item (items l) ->
  l_download_url item = ("/ppt/" ++ l_filename item)%string
  /\ ((In (l_filename item) allowed_extensions
       /\ download_ppt d (l_filename item)
          = HTTPException 400 "Only presentation files are allowed")
      \/ (~ In (l_filename item) allowed_extensions
          /\ exists media,
               In (suffix (l_filename item), media) media_types
               /\ download_ppt d (l_filename item)
                  = Ok {| fr_path :=
                            (folder_path d ++ "/" ++ l_filename item)%string;
                          fr_filename := l_filename item;
                          fr_media_type := media |})).
Proof.
  unfold list_ppts. intros [= <-]. cbn [items].
  rewrite in_map_iff. intros (f & <- & Hf). cbn [l_download_url l_filename].
  split; [reflexivity|].
  apply (Permutation_in _ (list_sort_reverse_perm st_mtime _)) in Hf.
  apply In_ppt_files in Hf as (Hd & Hin & ext & mid & He & Hn).
  assert (Ex := entry_path_exists d f Hd Hin).
  unfold download_ppt. rewrite Ex. cbn [negb].
  destruct mid as [|c mid].
  - left. simpl in Hn. rewrite Hn. split; [exact He|].
    simpl in He. destruct He as [<-|[<-|[<-|[<-|[]]]]]; reflexivity.
  - right. rewrite Hn. split; [now apply stem_ext_not_bare|].
    assert (Hd' : String.eqb (String c mid ++ ext) "." = false).
    { apply String.eqb_neq. simpl in He.
      destruct He as [<-|[<-|[<-|[<-|[]]]]]; simpl; intros [= _ H];
        destruct mid; discriminate. }
    unfold path_name, path_str. rewrite Hd'.
    simpl in He.
    destruct He as [<-|[<-|[<-|[<-|[]]]]];
      rewrite suffix_ext by (reflexivity || discriminate);
      eexists; (split; [|reflexivity]); simpl; tauto.
Qed.

Lemma X19_witness :
  exists l,
    list_ppts SampleFiles.isoformat SampleFiles.ppt_folder = Ok l
    /\ map l_filename (items l) = [".md"; "k8s.pdf"; "intro.pptx"]
    /\ download_ppt SampleFiles.ppt_folder ".md"
       = HTTPException 400 "Only presentation files are allowed"
    /\ download_ppt SampleFiles.ppt_folder "k8s.pdf"
       = Ok {| fr_path := "/app/ppt/k8s.pdf";
               fr_filename := "k8s.pdf";
               fr_media_type := "application/pdf" |}.
Proof.
  eexists.
  assert (H : list_ppts SampleFiles.isoformat SampleFiles.ppt_folder
              = Ok _) by reflexivity.
  split; [exact H|]. split; [reflexivity|].
  assert (H1 : In (mkListed ".md" "/ppt/.md" 7 "1970-01-01T00:00:00")
                 (items (mkListing
                    [mkListed ".md" "/ppt/.md" 7 "1970-01-01T00:00:00";
                     mkListed "k8s.pdf" "/ppt/k8s.pdf" 4096
                       "1970-01-01T00:00:00";
                     mkListed "intro.pptx" "/ppt/intro.pptx" 2048
                       "1970-01-01T00:00:00"] 3))) by (now left).
  assert (H2 : In (mkListed "k8s.pdf" "/ppt/k8s.pdf" 4096
                     "1970-01-01T00:00:00")
                 (items (mkListing
                    [mkListed ".md" "/ppt/.md" 7 "1970-01-01T00:00:00";
                     mkListed "k8s.pdf" "/ppt/k8s.pdf" 4096
                       "1970-01-01T00:00:00";
                     mkListed "intro.pptx" "/ppt/intro.pptx" 2048
                       "1970-01-01T00:00:00"] 3)))
    by (right; now left).
  split.
  - destruct (@X19_listed_ppts_download SampleFiles.isoformat
                SampleFiles.ppt_folder _ _ H H1) as [_ [[_ E]|[N _]]].
    + exact E.
    + exfalso. apply N. cbn. tauto.
  - destruct (@X19_listed_ppts_download SampleFiles.isoformat
                SampleFiles.ppt_folder _ _ H H2) as [_ [[I _]|[_ [m [_ E]]]]].
    + exfalso. cbn in I.
      destruct I as [I|[I|[I|[I|[]]]]]; discriminate.
    + reflexivity.
Defined.

(** X20: [list_ppts] lists exactly the entries of the folder that match
    one of the four patterns, the most recently modified first, files
    modified at the same time in the order of the patterns and of the
    folder; [total] is their number. *)
Theorem X20_ppts_listed_newest_first
    (isoformat : float -> string) (d : folder) (l : listing) :
  Forall (fun f => is_nan (st_mtime f) = false) (entries d) ->
  list_ppts isoformat d = Ok l ->
  exists files,
    items l
    = map (fun f => {| l_filename := file_name f;
                       l_download_url := ("/ppt/" ++ file_name f)%string;
                       l_size := st_size f;
                       l_modified := isoformat (st_mtime f) |}) files
    /\ Permutation files (ppt_files d)
    /\ StronglySorted
         (fun a b => ltb (st_mtime a) (st_mtime b) = false) files
    /\ (forall t, is_nan t = false ->
          filter (tied st_mtime t) files
          = filter (tied st_mtime t) (ppt_files d))
    /\ total l = List.length (ppt_files d).
Proof.
  intros Hn. unfold list_ppts. intros [= <-]. cbn [items total].
  assert (Hc : Forall (comparable st_mtime) (ppt_files d)).
  { apply Forall_forall. intros f Hf.
    apply In_ppt_files in Hf as (_ & Hin & _).
    rewrite Forall_forall in Hn. exact (Hn f Hin). }
  exists (list_sort_reverse st_mtime (ppt_files d)).
  split; [reflexivity|]. split; [apply list_sort_reverse_perm|].
  split; [now apply list_sort_reverse_sorted|]. split.
  - intros t Ht. now apply list_sort_reverse_stable.
  - rewrite length_map.
    apply Permutation_length, list_sort_reverse_perm.
Qed.

Lemma X20_witness :
  Forall (fun f => is_nan (st_mtime f) = false)
    (entries SampleFiles.ppt_folder)
  /\ exists l,
       list_ppts SampleFiles.isoformat SampleFiles.ppt_folder = Ok l
       /\ map l_filename (items l) = [".md"; "k8s.pdf"; "intro.pptx"]
       /\ total l = 3.
Proof.
  assert (Hn : Forall (fun f => is_nan (st_mtime f) = false)
                 (entries SampleFiles.ppt_folder))
    by (repeat constructor).
  split; [exact Hn|]. eexists.
  assert (H : list_ppts SampleFiles.isoformat SampleFiles.ppt_folder
              = Ok _) by reflexivity.
  split; [exact H|]. split; [reflexivity|].
  destruct (@X20_ppts_listed_newest_first SampleFiles.isoformat
              SampleFiles.ppt_folder _ Hn H) as (fs & _ & _ & _ & _ & Ht).
  rewrite Ht. reflexivity.
Defined.

(* ================================================================== *)
(** ** The agent services: the A2A stream *)

Import A2AService.

Lemma is_final_status (jsonrpc request_id context_id task_id : json)
    (final : bool) (state message_id text : string) :
  is_final
    (status_update jsonrpc request_id context_id task_id final state
       message_id text) = final.
Proof. destruct final; reflexivity. Qed.

Lemma heartbeats_length (uuid4 : nat -> string) (t : agent_texts)
    (jsonrpc request_id task_id context_id : json) (received : list nat) :
  forall n heartbeat_count,
    List.length
      (heartbeats uuid4 t jsonrpc request_id task_id context_id n
         heartbeat_count received)
    = List.length received.
Proof.
  induction received as [|c rest IH]; intros n k; simpl;
    [reflexivity|now rewrite IH].
Qed.

(** Every heartbeat is a working status that is not final, is no error
    and carries no artifact. *)
Lemma heartbeats_working (uuid4 : nat -> string) (t : agent_texts)
    (jsonrpc request_id task_id context_id : json) (received : list nat) :
  forall n heartbeat_count,
    Forall
      (fun ev =>
         is_final ev = false /\ is_error ev = false
         /\ state_of ev = Some (JStr "working")
         /\ artifact_parts ev = None)
      (heartbeats uuid4 t jsonrpc request_id task_id context_id n
         heartbeat_count received).
Proof.
  induction received as [|c rest IH]; intros n k; simpl; constructor.
  - repeat split; reflexivity.
  - apply IH.
Qed.

Lemma response_text_nonempty (t : agent_texts) (r : Run) :
  completed t <> EmptyString -> response_text t r <> EmptyString.
Proof.
  intros Ht. unfold response_text.
  destruct (PyStr.join EmptyString (chunks r)) eqn:E; simpl;
    [exact Ht|discriminate].
Qed.

(** The events of a stream: the opening status, events that are not
    final, and one closing status. *)
Lemma streaming_events_shape (uuid4 : nat -> string) (t : agent_texts)
    (copilot_client : option CopilotClient) (message_text : string)
    (jsonrpc request_id task_id context_id : json) (n : nat) :
  exists middle last,
    streaming_events uuid4 t copilot_client message_text jsonrpc request_id
      task_id context_id n
    = status_update jsonrpc request_id context_id task_id false "working"
        (uuid4 n) (processing t) :: middle ++ [last]
    /\ Forall (fun ev => is_final ev = false /\ is_error ev = false) middle
    /\ is_final last = true /\ is_error last = false
    /\ status_parts last
       = Some (text_parts
                 (process_a2a_message t copilot_client message_text))
    /\ Forall
         (fun ev =>
            artifact_parts ev = None
            \/ artifact_parts ev
               = Some (text_parts
                         (process_a2a_message t copilot_client message_text)))
         middle
    /\ ((state_of last = Some (JStr "completed")
         /\ exists session,
              copilot_client = Some (Return session)
              /\ raised (session message_text) = None)
        \/ (state_of last = Some (JStr "failed")
            /\ forall session,
                 copilot_client = Some (Return session) ->
                 raised (session message_text) <> None)).
Proof.
  unfold streaming_events, process_a2a_message.
  destruct copilot_client as [[session|e]|].
  - pose proof (heartbeats_working uuid4 t jsonrpc request_id task_id
                  context_id (beats (session message_text)) (n + 3) 0) as Hb.
    destruct (raised (session message_text)) as [e|] eqn:Er.
    + eexists. eexists. split; [reflexivity|].
      split; [eapply Forall_impl; [|exact Hb]; cbv beta; tauto|].
      split; [reflexivity|]. split; [reflexivity|].
      split; [reflexivity|].
      split; [eapply Forall_impl; [|exact Hb]; cbv beta; tauto|].
      right. split; [reflexivity|].
      intros s [= <-]. rewrite Er. discriminate.
    + exists (heartbeats uuid4 t jsonrpc request_id task_id context_id
                (n + 3) 0 (beats (session message_text))
              ++ [artifact_update jsonrpc request_id context_id task_id
                    (uuid4 (n + 2)) (response_text t (session message_text))]).
      eexists. split; [now rewrite <- app_assoc|].
      split.
      { apply Forall_app. split.
        - eapply Forall_impl; [|exact Hb]; cbv beta; tauto.
        - repeat constructor. }
      split; [reflexivity|]. split; [reflexivity|].
      split; [reflexivity|].
      split.
      { apply Forall_app. split.
        - eapply Forall_impl; [|exact Hb]; cbv beta; tauto.
        - constructor; [right; reflexivity|constructor]. }
      left. split; [reflexivity|]. now exists session.
  - exists []. eexists. split; [reflexivity|].
    split; [constructor|]. split; [reflexivity|]. split; [reflexivity|].
    split; [reflexivity|]. split; [constructor|].
    right. split; [reflexivity|]. intros s [=].
  - exists []. eexists. split; [reflexivity|].
    split; [constructor|]. split; [reflexivity|]. split; [reflexivity|].
    split; [reflexivity|]. split; [constructor|].
    right. split; [reflexivity|]. intros s [=].
Qed.

(** X21: the stream of [process_a2a_message_streaming] opens with the
    working status of the agent, which is not final, and closes with
    exactly one final status, its last event.  That status is
    [completed] when the client is initialised, the session was created
    and [send_and_wait] raised nothing, and [failed] otherwise. *)
Theorem X21_stream_opens_working_and_closes_once
    (dumps : json -> string) (uuid4 : nat -> string) (t : agent_texts)
    (copilot_client : option CopilotClient) (message_text : string)
    (jsonrpc request_id task_id context_id : json) (n : nat) :
  exists middle last,
    process_a2a_message_streaming dumps uuid4 t copilot_client message_text
      jsonrpc request_id task_id context_id n
    = map (sse dumps)
        (status_update jsonrpc request_id context_id task_id false "working"
           (uuid4 n) (processing t) :: middle ++ [last])
    /\ Forall (fun ev => is_final ev = false) middle
    /\ is_final last = true
    /\ ((state_of last = Some (JStr "completed")
         /\ exists session,
              copilot_client = Some (Return session)
              /\ raised (session message_text) = None)
        \/ (state_of last = Some (JStr "failed")
            /\ forall session,
                 copilot_client = Some (Return session) ->
                 raised (session message_text) <> None)).
Proof.
  destruct (streaming_events_shape uuid4 t copilot_client message_text
              jsonrpc request_id task_id context_id n)
    as (middle & last & E & Hm & Hl & _ & _ & _ & Hs).
  exists middle, last. unfold process_a2a_message_streaming. rewrite E.
  split; [reflexivity|]. split; [|split; assumption].
  eapply Forall_impl; [|exact Hm]. cbv beta. tauto.
Qed.

(** X22: the text of the closing status of the stream is what
    [process_a2a_message] returns for the same client and message,
    whether the run succeeds or fails; an artifact of the stream carries
    that same text; and the text is never empty. *)
Theorem X22_stream_closes_with_the_legacy_result
    (dumps : json -> string) (uuid4 : nat -> string) (t : agent_texts)
    (copilot_client : option CopilotClient) (message_text : string)
    (jsonrpc request_id task_id context_id : json) (n : nat) :
  completed t <> EmptyString ->
  let answer := process_a2a_message t copilot_client message_text in
  answer <> EmptyString
  /\ exists events last,
       process_a2a_message_streaming dumps uuid4 t copilot_client
         message_text jsonrpc request_id task_id context_id n
       = map (sse dumps) (events ++ [last])
       /\ status_parts last = Some (text_parts answer)
       /\ forall ev parts,
            In ev events -> artifact_parts ev = Some parts ->
            parts = text_parts answer.
Proof.
  intros Ht answer. split.
  - unfold answer, process_a2a_message.
    destruct copilot_client as [[session|e]|]; try discriminate.
    destruct (raised (session message_text)); [discriminate|].
    now apply response_text_nonempty.
  - destruct (streaming_events_shape uuid4 t copilot_client message_text
                jsonrpc request_id task_id context_id n)
      as (middle & last & E & _ & _ & _ & Hp & Ha & _).
    eexists (_ :: middle), last.
    unfold process_a2a_message_streaming. rewrite E.
    split; [reflexivity|]. split; [exact Hp|].
    intros ev parts [<-|Hin] Hev.
    + discriminate Hev.
    + rewrite Forall_forall in Ha. destruct (Ha ev Hin) as [H|H];
        rewrite H in Hev; [discriminate|now injection Hev as <-].
Qed.

(** X23: when the run succeeds, the stream is what
    [generate_sse_response] yields for the result of
    [process_a2a_message], with one working heartbeat inserted after
    the opening status for every check of the heartbeat loop. *)
Theorem X23_stream_is_sse_response_plus_heartbeats
    (dumps : json -> string) (uuid4 : nat -> string) (t : agent_texts)
    (session : Session) (message_text : string)
    (jsonrpc request_id task_id context_id : json) (n : nat) :
  raised (session message_text) = None ->
  exists opening heartbeat_events artifact closing,
    generate_sse_response dumps uuid4 t jsonrpc request_id task_id context_id
      (process_a2a_message t (Some (Return session)) message_text) n
    = map (sse dumps) [opening; artifact; closing]
    /\ process_a2a_message_streaming dumps uuid4 t (Some (Return session))
         message_text jsonrpc request_id task_id context_id n
       = map (sse dumps) (opening :: heartbeat_events ++ [artifact; closing])
    /\ List.length heartbeat_events
       = List.length (beats (session message_text))
    /\ Forall
         (fun ev =>
            is_final ev = false /\ state_of ev = Some (JStr "working"))
         heartbeat_events.
Proof.
  intros Hr.
  unfold generate_sse_response, sse_response_events,
    process_a2a_message_streaming, streaming_events, process_a2a_message.
  rewrite Hr.
  eexists. eexists. eexists. eexists.
  split; [reflexivity|]. split; [reflexivity|].
  split; [apply heartbeats_length|].
  eapply Forall_impl; [|apply heartbeats_working]. cbv beta. tauto.
Qed.

(** ** The agent services: the A2A endpoint *)

Lemma join_empty_cons (x : string) (l : list string) :
  PyStr.join EmptyString (x :: l) = (x ++ PyStr.join EmptyString l)%string.
Proof.
  destruct l; simpl; [now rewrite append_empty_r|reflexivity].
Qed.

Lemma string_app_assoc (a b c : string) :
  ((a ++ b) ++ c)%string = (a ++ b ++ c)%string.
Proof. induction a as [|x a IH]; simpl; [reflexivity|now rewrite IH]. Qed.

(** The loop over parts that are all accepted appends their texts. *)
Lemma extract_text_ok (parts : list json) :
  forall message_text,
    forallb part_ok parts = true ->
    extract_text message_text parts
    = Return (message_text
              ++ PyStr.join EmptyString (part_texts parts))%string.
Proof.
  induction parts as [|part rest IH]; intros m H.
  - simpl. now rewrite append_empty_r.
  - cbn [forallb] in H. apply andb_prop in H as [Hp Hr].
    destruct part as [| | | | |l|d]; try discriminate.
    cbn [extract_text get bind part_ok] in *.
    unfold Dict.has, part_texts. cbn [flat_map part_text].
    destruct (Dict.get "text" d) as [[| | | |s| |]|] eqn:Et;
      try discriminate.
    + rewrite orb_true_r. cbn [bind add_str]. rewrite (IH _ Hr).
      cbn [app]. fold (part_texts rest).
      now rewrite join_empty_cons, string_app_assoc.
    + rewrite orb_false_r.
      destruct (eq_str _ "text"); cbn [bind add_str];
        [rewrite append_empty_r|]; now rewrite (IH _ Hr).
Qed.

(** The loop raises at the first part that is not accepted. *)
Lemma extract_text_bad (parts : list json) :
  forall message_text,
    forallb part_ok parts = false ->
    exists e, extract_text message_text parts = Raise e.
Proof.
  induction parts as [|part rest IH]; intros m H; [discriminate|].
  cbn [forallb] in H.
  destruct (part_ok part) eqn:Hp.
  - cbn [andb] in H.
    destruct part as [| | | | |l|d]; try discriminate.
    cbn [extract_text get bind part_ok] in *. unfold Dict.has.
    destruct (Dict.get "text" d) as [[| | | |s| |]|] eqn:Et;
      try discriminate.
    + rewrite orb_true_r. cbn [bind add_str]. now apply IH.
    + rewrite orb_false_r.
      destruct (eq_str _ "text"); cbn [bind add_str]; now apply IH.
  - clear H IH.
    destruct part as [| | | | |l|d];
      try (eexists; reflexivity).
    cbn [extract_text get bind part_ok] in *. unfold Dict.has.
    destruct (Dict.get "text" d) as [[| | | |s| |]|] eqn:Et;
      try discriminate;
      rewrite orb_true_r; cbn [bind add_str]; eexists; reflexivity.
Qed.

(** X24: for a streaming method whose parts are objects with [str]
    texts, the prompt that the endpoint passes to the agent is the
    concatenation of the [text] fields of the parts, in order, whatever
    their [kind]; when that is empty, it is [str(params)]. *)
Theorem X24_prompt_is_the_joined_part_texts
    (dumps repr : json -> string) (uuid4 : nat -> string) (t : agent_texts)
    (copilot_client : option CopilotClient)
    (body method params message parts : json) (items : list json) :
  get body "method" (JStr EmptyString) = Return method ->
  in_strs method streaming_methods = true ->
  get body "params" (JObj []) = Return params ->
  get params "message" (JObj []) = Return message ->
  get message "parts" (JArr []) = Return parts ->
  iter parts = Return items ->
  forallb part_ok items = true ->
  let joined := PyStr.join EmptyString (part_texts items) in
  exists jsonrpc request_id task_id context_id n,
    content
      (a2a_jsonrpc_endpoint dumps repr uuid4 t copilot_client (Return body))
    = process_a2a_message_streaming dumps uuid4 t copilot_client
        (if PyStr.truthy joined then joined else py_str repr params)
        jsonrpc request_id task_id context_id n.
Proof.
  intros Hm Hs Hp Hmsg Hparts Hit Hok joined.
  unfold a2a_jsonrpc_endpoint, a2a_dispatch. cbn [bind].
  destruct body as [| | | | | |bd]; try discriminate.
  cbn [get bind] in *. injection Hm as Hm. injection Hp as Hp.
  rewrite Hm, Hs, Hp.
  destruct params as [| | | | | |pd]; try discriminate.
  rewrite Hmsg. cbn [bind]. rewrite Hparts. cbn [bind]. rewrite Hit.
  cbn [bind]. rewrite (extract_text_ok items _ Hok). cbn [bind get].
  cbn [append]. fold joined.
  destruct (or_uuid4 uuid4 _ 0) as [task_id n1].
  destruct (or_uuid4 uuid4 _ n1) as [context_id n2].
  cbn [content]. now eexists _, _, task_id, context_id, n2.
Qed.

(** X26: for a streaming method, one part that is not an object, or
    whose [text] is not a [str], breaks the answer: the agent is not
    run, and the stream of the answer yields no event, not the error of
    code -32603 either, and ends with a [NameError]. *)
Theorem X26_bad_part_breaks_the_stream
    (dumps repr : json -> string) (uuid4 : nat -> string) (t : agent_texts)
    (copilot_client : option CopilotClient)
    (body method params message parts : json) (items : list json) :
  get body "method" (JStr EmptyString) = Return method ->
  in_strs method streaming_methods = true ->
  get body "params" (JObj []) = Return params ->
  get params "message" (JObj []) = Return message ->
  get message "parts" (JArr []) = Return parts ->
  iter parts = Return items ->
  forallb part_ok items = false ->
  exists e,
    exn_class e = "NameError"
    /\ a2a_jsonrpc_endpoint dumps repr uuid4 t copilot_client (Return body)
       = {| content := [];
            raises := Some e;
            media_type := "text/event-stream";
            headers := [] |}.
Proof.
  intros Hm Hs Hp Hmsg Hparts Hit Hbad.
  unfold a2a_jsonrpc_endpoint, a2a_dispatch. cbn [bind].
  destruct body as [| | | | | |bd]; try discriminate.
  cbn [get bind] in *. injection Hm as Hm. injection Hp as Hp.
  rewrite Hm, Hs, Hp.
  destruct params as [| | | | | |pd]; try discriminate.
  rewrite Hmsg. cbn [bind]. rewrite Hparts. cbn [bind]. rewrite Hit.
  cbn [bind].
  destruct (extract_text_bad items EmptyString Hbad) as [e ->].
  cbn [bind]. exists unbound_e. split; reflexivity.
Qed.

Ltac step_bind :=
  match goal with
  | |- context [bind ?m _] =>
      let E := fresh "E" in
      destruct m eqn:E; cbn [bind]; [|discriminate]
  end.

(** What the [try] of the endpoint returns: the stream of the agent, or
    a single event that is final or an error. *)
Lemma a2a_dispatch_cases
    (dumps repr : json -> string) (uuid4 : nat -> string) (t : agent_texts)
    (copilot_client : option CopilotClient) (request_json : result json)
    (response : StreamingResponse) :
  a2a_dispatch dumps repr uuid4 t copilot_client request_json
  = Return response ->
  media_type response = "text/event-stream"
  /\ raises response = None
  /\ ((exists message_text jsonrpc request_id task_id context_id n,
         content response
         = process_a2a_message_streaming dumps uuid4 t copilot_client
             message_text jsonrpc request_id task_id context_id n)
      \/ (exists ev,
            content response = [sse dumps ev]
            /\ (is_final ev = true /\ is_error ev = false
                \/ is_final ev = false /\ is_error ev = true))).
Proof.
  unfold a2a_dispatch. repeat step_bind.
  destruct (in_strs _ streaming_methods).
  - repeat step_bind.
    destruct (or_uuid4 uuid4 _ 0) as [task_id n1]. step_bind.
    destruct (or_uuid4 uuid4 _ n1) as [context_id n2].
    intros [= <-]. split; [reflexivity|]. split; [reflexivity|].
    left. cbn [content]. now eexists _, _, _, _, _, _.
  - destruct (eq_str _ "tasks/get").
    + repeat step_bind. destruct (or_uuid4 uuid4 _ 0) as [context_id n1].
      intros [= <-]. split; [reflexivity|]. split; [reflexivity|].
      right. eexists. split; [reflexivity|]. left. split; reflexivity.
    + intros [= <-]. split; [reflexivity|]. split; [reflexivity|].
      right. eexists. split; [reflexivity|]. right. split; reflexivity.
Qed.

(** X25: every answer of the endpoint is an event stream.  When the
    [try] of the handler completes, the stream raises nothing, is not
    empty, and ends with its only closing event: a final status or a
    JSON-RPC error.  When the [try] raises (a body that is no JSON or no
    object, ill-formed parameters), the stream yields nothing and ends
    with a [NameError]: the error of code -32603 that the handler
    builds is not sent. *)
Theorem X25_answer_closes_once_or_breaks
    (dumps repr : json -> string) (uuid4 : nat -> string) (t : agent_texts)
    (copilot_client : option CopilotClient) (request_json : result json) :
  let response :=
    a2a_jsonrpc_endpoint dumps repr uuid4 t copilot_client request_json in
  media_type response = "text/event-stream"
  /\ match a2a_dispatch dumps repr uuid4 t copilot_client request_json with
     | Return _ =>
         raises response = None
         /\ exists events last,
              content response = map (sse dumps) (events ++ [last])
              /\ Forall
                   (fun ev => is_final ev = false /\ is_error ev = false)
                   events
              /\ xorb (is_final last) (is_error last) = true
     | Raise _ =>
         content response = []
         /\ exists e, raises response = Some e /\ exn_class e = "NameError"
     end.
Proof.
  unfold a2a_jsonrpc_endpoint.
  destruct (a2a_dispatch dumps repr uuid4 t copilot_client request_json)
    as [response|e] eqn:E.
  - apply a2a_dispatch_cases in E as (Hm & Hr & [Hs|Hs]).
    + split; [exact Hm|]. split; [exact Hr|].
      destruct Hs as (m & j & rid & tid & cid & n & ->).
      destruct (streaming_events_shape uuid4 t copilot_client m j rid tid
                  cid n)
        as (middle & last & Ev & Hmid & Hl & Hle & _).
      eexists (_ :: middle), last.
      unfold process_a2a_message_streaming. rewrite Ev.
      split; [reflexivity|]. split.
      * constructor; [split; reflexivity|exact Hmid].
      * now rewrite Hl, Hle.
    + split; [exact Hm|]. split; [exact Hr|].
      destruct Hs as (ev & -> & H). exists [], ev.
      split; [reflexivity|]. split; [constructor|].
      destruct H as [[-> ->]|[-> ->]]; reflexivity.
  - cbn [media_type content raises]. split; [reflexivity|].
    split; [reflexivity|]. eexists. split; reflexivity.
Qed.

(** ** The agent services: the task endpoint *)

Lemma max_by_mtime_In (l : list file) :
  forall best, In (max_by_mtime best l) (best :: l).
Proof.
  induction l as [|f r IH]; intros best; cbn [max_by_mtime].
  - now left.
  - destruct (gtb (st_mtime f) (st_mtime best)).
    + right. apply IH.
    + destruct (IH best) as [H|H]; [now left|right; now right].
Qed.

(** No file is newer than the one that [max] returns. *)
Lemma max_by_mtime_newest (l : list file) :
  forall best seen,
    Forall (fun g => ltb (st_mtime best) (st_mtime g) = false) seen ->
    Forall
      (fun g => ltb (st_mtime (max_by_mtime best l)) (st_mtime g) = false)
      (seen ++ best :: l).
Proof.
  induction l as [|f r IH]; intros best seen Hs; cbn [max_by_mtime].
  - apply Forall_app. split; [exact Hs|].
    constructor; [apply ltb_irrefl|constructor].
  - unfold gtb. fold (ltb (st_mtime best) (st_mtime f)).
    destruct (ltb (st_mtime best) (st_mtime f)) eqn:E.
    + replace (seen ++ best :: f :: r) with ((seen ++ [best]) ++ f :: r)
        by now rewrite <- app_assoc.
      apply IH. apply Forall_app. split.
      * eapply Forall_impl; [|exact Hs]. cbv beta. intros g Hg.
        destruct (ltb (st_mtime f) (st_mtime g)) eqn:Eg; [|reflexivity].
        now rewrite (ltb_trans _ _ _ E Eg) in Hg.
      * constructor; [now apply ltb_asym|constructor].
    + assert (H := IH best (seen ++ [f])).
      rewrite <- app_assoc in H. cbn [app] in H.
      assert (H' : Forall
                (fun g => ltb (st_mtime (max_by_mtime best r)) (st_mtime g)
                          = false) (seen ++ f :: best :: r)).
      { apply H. apply Forall_app. split; [exact Hs|].
        constructor; [exact E|constructor]. }
      rewrite Forall_forall in H'. apply Forall_forall. intros g Hg.
      apply H'. rewrite in_app_iff in *. cbn [In] in *. tauto.
Qed.

(** [max] returns the file that a stable sort in descending order puts
    first. *)
Lemma max_by_mtime_first (b : file) (l2 : list file) :
  Forall (fun a => ltb (st_mtime b) (st_mtime a) = false) l2 ->
  forall l1 best,
    ltb (st_mtime best) (st_mtime b) = true ->
    Forall (fun a => ltb (st_mtime a) (st_mtime b) = true) l1 ->
    max_by_mtime best (l1 ++ b :: l2) = b.
Proof.
  intros H2.
  assert (Hb : max_by_mtime b l2 = b).
  { induction H2 as [|a r Ha Hr IH]; cbn [max_by_mtime]; [reflexivity|].
    unfold gtb. fold (ltb (st_mtime b) (st_mtime a)). now rewrite Ha. }
  induction l1 as [|a r IH]; intros best Hbest H1; cbn [app max_by_mtime].
  - unfold gtb. fold (ltb (st_mtime best) (st_mtime b)). now rewrite Hbest.
  - inversion H1 as [|? ? Ha Hr]; subst.
    destruct (gtb (st_mtime a) (st_mtime best)); now apply IH.
Qed.

Lemma latest_is_sorted_head (f : file) (rest : list file) :
  Forall (comparable st_mtime) (f :: rest) ->
  hd_error (list_sort_reverse st_mtime (f :: rest))
  = Some (max_by_mtime f rest).
Proof.
  intros Hc.
  destruct (list_sort_reverse st_mtime (f :: rest)) as [|b r] eqn:E.
  - apply (f_equal (@List.length file)) in E.
    rewrite (Permutation_length (list_sort_reverse_perm st_mtime _)) in E.
    discriminate.
  - destruct (list_sort_reverse_head (key := st_mtime) Hc E)
      as (l1 & l2 & El & H1 & H2).
    cbn [hd_error]. f_equal. symmetry.
    destruct l1 as [|a l1]; cbn [app] in El; injection El as -> ->.
    + clear - H2. induction H2 as [|a r' Ha Hr IH]; cbn [max_by_mtime];
        [reflexivity|].
      unfold gtb. fold (ltb (st_mtime b) (st_mtime a)). now rewrite Ha.
    + inversion H1; subst. now apply max_by_mtime_first.
Qed.

(** X27: the file that [execute_task] of the PPT agent reports after a
    run is the one that [list_ppts] lists first for the same folder: the
    same download URL, and the path of that file; both report nothing
    when the folder has no presentation. *)
Theorem X27_task_reports_the_first_listed_ppt
    (isoformat : float -> string) (copilot_client : option CopilotClient)
    (d : folder) (task : string) (r : TaskResponse) (l : listing) :
  Forall (fun f => is_nan (st_mtime f) = false) (entries d) ->
  execute_task ppt_task_agent copilot_client d task = Ok r ->
  list_ppts isoformat d = Ok l ->
  download_url r = option_map l_download_url (hd_error (items l))
  /\ file_path r
     = option_map
         (fun item => (folder_path d ++ "/" ++ l_filename item)%string)
         (hd_error (items l)).
Proof.
  intros Hn He. unfold list_ppts. intros [= <-]. cbn [items].
  unfold execute_task in He.
  destruct copilot_client as [[session|e]|]; try discriminate.
  destruct (raised _); [discriminate|].
  injection He as <-. cbn [download_url file_path ppt_task_agent
                             generated_files route].
  assert (Hc : Forall (comparable st_mtime) (ppt_files d)).
  { apply Forall_forall. intros f Hf.
    apply In_ppt_files in Hf as (_ & Hin & _).
    rewrite Forall_forall in Hn. exact (Hn f Hin). }
  destruct (ppt_files d) as [|f rest] eqn:Ef.
  - split; reflexivity.
  - pose proof (latest_is_sorted_head Hc) as Hh.
    destruct (list_sort_reverse st_mtime (f :: rest)) as [|b s];
      [discriminate|].
    cbn [hd_error] in Hh. injection Hh as ->.
    split; reflexivity.
Qed.

(** X28: the file that [execute_task] of the blog agent reports is an
    entry of the folder named [blog-*.md] than which none is newer; its
    download URL is [/blog/] followed by its name, [download_blog]
    serves it from the reported path, and [list_blogs] lists it. *)
Theorem X28_task_reports_a_newest_downloadable_blog
    (isoformat : float -> string) (today : string)
    (copilot_client : option CopilotClient)
    (d : folder) (task : string) (r : TaskResponse) (url : string) :
  execute_task (blog_task_agent today) copilot_client d task = Ok r ->
  download_url r = Some url ->
  exists f path,
    In f (glob d "blog-" ".md")
    /\ Forall (fun g => ltb (st_mtime f) (st_mtime g) = false)
         (glob d "blog-" ".md")
    /\ url = ("/blog/" ++ file_name f)%string
    /\ file_path r = Some path
    /\ download_blog d (file_name f)
       = Ok {| fr_path := path;
               fr_filename := file_name f;
               fr_media_type := "text/markdown" |}
    /\ exists l item,
         list_blogs isoformat d = Ok l
         /\ In item (items l)
         /\ l_download_url item = url.
Proof.
  unfold execute_task.
  destruct copilot_client as [[session|e]|]; try discriminate.
  destruct (raised _); [discriminate|].
  intros [= <-]. cbn [download_url file_path blog_task_agent
                        generated_files route].
  destruct (glob d "blog-" ".md") as [|f rest] eqn:Eg; [discriminate|].
  cbn [option_map]. intros [= <-].
  pose proof (max_by_mtime_In rest f) as Hin.
  pose proof (@max_by_mtime_newest rest f [] (Forall_nil _)) as Hnew.
  cbn [app] in Hnew.
  assert (Hg : In (max_by_mtime f rest) (glob d "blog-" ".md"))
    by now rewrite Eg.
  destruct (In_glob _ _ _ _ Hg) as (Hd & He & Hm).
  exists (max_by_mtime f rest). eexists.
  split; [exact Hin|]. split; [exact Hnew|]. split; [reflexivity|].
  split; [reflexivity|]. split; [now apply blog_entry_downloads|].
  eexists. eexists. split; [reflexivity|]. cbn [items]. split.
  - apply in_map. apply (Permutation_in _ (Permutation_sym
                            (sorted_reverse_perm path_lt _))).
    exact Hg.
  - reflexivity.
Qed.

(** ** The statements at work *)

Lemma X22_witness :
  completed ppt_texts <> EmptyString
  /\ process_a2a_message ppt_texts (Some SampleService.silent) "make slides"
     = "PPT generation completed successfully."
  /\ process_a2a_message ppt_texts (Some SampleService.silent) "make slides"
     <> EmptyString
  /\ exists events last,
       process_a2a_message_streaming SampleService.dumps SampleService.uuid4
         ppt_texts (Some SampleService.silent) "make slides" (JStr "2.0")
         (JStr "req-1") (JStr "task-1") (JStr "ctx-1") 0
       = map (sse SampleService.dumps) (events ++ [last])
       /\ status_parts last
          = Some (text_parts
                    (process_a2a_message ppt_texts
                       (Some SampleService.silent) "make slides"))
       /\ forall ev parts,
            In ev events -> artifact_parts ev = Some parts ->
            parts
            = text_parts
                (process_a2a_message ppt_texts (Some SampleService.silent)
                   "make slides").
Proof.
  assert (H : completed ppt_texts <> EmptyString) by discriminate.
  split; [exact H|]. split; [reflexivity|].
  exact (@X22_stream_closes_with_the_legacy_result SampleService.dumps
           SampleService.uuid4 ppt_texts (Some SampleService.silent)
           "make slides" (JStr "2.0") (JStr "req-1") (JStr "task-1")
           (JStr "ctx-1") 0 H).
Defined.

Lemma X23_witness :
  raised (SampleService.answering_session "make slides") = None
  /\ process_a2a_message blog_texts (Some SampleService.answering)
       "make slides" = "Slides ready"
  /\ exists opening heartbeat_events artifact closing,
       generate_sse_response SampleService.dumps SampleService.uuid4
         blog_texts (JStr "2.0") (JStr "req-1") (JStr "task-1")
         (JStr "ctx-1")
         (process_a2a_message blog_texts
            (Some (Return SampleService.answering_session)) "make slides") 0
       = map (sse SampleService.dumps) [opening; artifact; closing]
       /\ process_a2a_message_streaming SampleService.dumps
            SampleService.uuid4 blog_texts
            (Some (Return SampleService.answering_session)) "make slides"
            (JStr "2.0") (JStr "req-1") (JStr "task-1") (JStr "ctx-1") 0
          = map (sse SampleService.dumps)
              (opening :: heartbeat_events ++ [artifact; closing])
       /\ List.length heartbeat_events
          = List.length (beats (SampleService.answering_session "make slides"))
       /\ Forall
            (fun ev =>
               is_final ev = false /\ state_of ev = Some (JStr "working"))
            heartbeat_events.
Proof.
  assert (H : raised (SampleService.answering_session "make slides") = None)
    by reflexivity.
  split; [exact H|]. split; [reflexivity|].
  exact (@X23_stream_is_sse_response_plus_heartbeats SampleService.dumps
           SampleService.uuid4 blog_texts SampleService.answering_session
           "make slides" (JStr "2.0") (JStr "req-1") (JStr "task-1")
           (JStr "ctx-1") 0 H).
Defined.

Lemma X24_witness :
  exists jsonrpc request_id task_id context_id n,
    content
      (a2a_jsonrpc_endpoint SampleService.dumps SampleService.repr
         SampleService.uuid4 ppt_texts (Some SampleService.answering)
         (Return
            (SampleService.request "message/send"
               (SampleService.message_of
                  [JObj [("kind", JStr "text"); ("text", JStr "Make ")];
                   JObj [("kind", JStr "text")];
                   JObj [("kind", JStr "data"); ("text", JStr "slides")]]))))
    = process_a2a_message_streaming SampleService.dumps SampleService.uuid4
        ppt_texts (Some SampleService.answering) "Make slides"
        jsonrpc request_id task_id context_id n.
Proof.
  exact (@X24_prompt_is_the_joined_part_texts SampleService.dumps
           SampleService.repr SampleService.uuid4 ppt_texts
           (Some SampleService.answering)
           (SampleService.request "message/send"
              (SampleService.message_of
                 [JObj [("kind", JStr "text"); ("text", JStr "Make ")];
                  JObj [("kind", JStr "text")];
                  JObj [("kind", JStr "data"); ("text", JStr "slides")]]))
           (JStr "message/send")
           (SampleService.message_of
              [JObj [("kind", JStr "text"); ("text", JStr "Make ")];
               JObj [("kind", JStr "text")];
               JObj [("kind", JStr "data"); ("text", JStr "slides")]])
           (JObj [("role", JStr "user");
                  ("parts",
                   JArr
                     [JObj [("kind", JStr "text"); ("text", JStr "Make ")];
                      JObj [("kind", JStr "text")];
                      JObj [("kind", JStr "data");
                            ("text", JStr "slides")]])])
           (JArr
              [JObj [("kind", JStr "text"); ("text", JStr "Make ")];
               JObj [("kind", JStr "text")];
               JObj [("kind", JStr "data"); ("text", JStr "slides")]])
           [JObj [("kind", JStr "text"); ("text", JStr "Make ")];
            JObj [("kind", JStr "text")];
            JObj [("kind", JStr "data"); ("text", JStr "slides")]]
           eq_refl eq_refl eq_refl eq_refl eq_refl eq_refl eq_refl).
Defined.

Lemma X26_witness :
  exists e,
    exn_class e = "NameError"
    /\ a2a_jsonrpc_endpoint SampleService.dumps SampleService.repr
         SampleService.uuid4 ppt_texts (Some SampleService.answering)
         (Return
            (SampleService.request "tasks/send"
               (SampleService.message_of
                  [JObj [("kind", JStr "text"); ("text", JStr "Make ")];
                   JObj [("kind", JStr "text"); ("text", JInt 5)]])))
       = {| content := [];
            raises := Some e;
            media_type := "text/event-stream";
            headers := [] |}.
Proof.
  exact (@X26_bad_part_breaks_the_stream SampleService.dumps
           SampleService.repr SampleService.uuid4 ppt_texts
           (Some SampleService.answering)
           (SampleService.request "tasks/send"
              (SampleService.message_of
                 [JObj [("kind", JStr "text"); ("text", JStr "Make ")];
                  JObj [("kind", JStr "text"); ("text", JInt 5)]]))
           (JStr "tasks/send")
           (SampleService.message_of
              [JObj [("kind", JStr "text"); ("text", JStr "Make ")];
               JObj [("kind", JStr "text"); ("text", JInt 5)]])
           (JObj [("role", JStr "user");
                  ("parts",
                   JArr
                     [JObj [("kind", JStr "text"); ("text", JStr "Make ")];
                      JObj [("kind", JStr "text"); ("text", JInt 5)]])])
           (JArr
              [JObj [("kind", JStr "text"); ("text", JStr "Make ")];
               JObj [("kind", JStr "text"); ("text", JInt 5)]])
           [JObj [("kind", JStr "text"); ("text", JStr "Make ")];
            JObj [("kind", JStr "text"); ("text", JInt 5)]]
           eq_refl eq_refl eq_refl eq_refl eq_refl eq_refl eq_refl).
Defined.

Lemma X27_witness :
  Forall (fun f => is_nan (st_mtime f) = false)
    (entries SampleFiles.ppt_folder)
  /\ exists r l,
       execute_task ppt_task_agent (Some SampleService.answering)
         SampleFiles.ppt_folder "make slides" = Ok r
       /\ list_ppts SampleFiles.isoformat SampleFiles.ppt_folder = Ok l
       /\ result_text r = "Slides ready"
       /\ download_url r = Some "/ppt/.md"
       /\ download_url r = option_map l_download_url (hd_error (items l))
       /\ file_path r
          = option_map
              (fun item => ("/app/ppt" ++ "/" ++ l_filename item)%string)
              (hd_error (items l)).
Proof.
  assert (Hn : Forall (fun f => is_nan (st_mtime f) = false)
                 (entries SampleFiles.ppt_folder))
    by (repeat constructor).
  split; [exact Hn|]. eexists. eexists.
  assert (He : execute_task ppt_task_agent (Some SampleService.answering)
                 SampleFiles.ppt_folder "make slides" = Ok _)
    by reflexivity.
  assert (Hl : list_ppts SampleFiles.isoformat SampleFiles.ppt_folder = Ok _)
    by reflexivity.
  split; [exact He|]. split; [exact Hl|]. split; [reflexivity|].
  split; [reflexivity|].
  exact (@X27_task_reports_the_first_listed_ppt SampleFiles.isoformat
           (Some SampleService.answering) SampleFiles.ppt_folder
           "make slides" _ _ Hn He Hl).
Defined.

Lemma X28_witness :
  exists r,
    execute_task (blog_task_agent "2026-02-02")
      (Some SampleService.silent) SampleFiles.blog_folder "write a post"
    = Ok r
    /\ result_text r
       = "Blog post generated successfully. Check the blog folder."
    /\ download_url r = Some "/blog/blog-2026-02-02.md"
    /\ exists f path,
         In f (glob SampleFiles.blog_folder "blog-" ".md")
         /\ Forall (fun g => ltb (st_mtime f) (st_mtime g) = false)
              (glob SampleFiles.blog_folder "blog-" ".md")
         /\ "/blog/blog-2026-02-02.md" = ("/blog/" ++ file_name f)%string
         /\ file_path r = Some path
         /\ download_blog SampleFiles.blog_folder (file_name f)
            = Ok {| fr_path := path;
                    fr_filename := file_name f;
                    fr_media_type := "text/markdown" |}
         /\ exists l item,
              list_blogs SampleFiles.isoformat SampleFiles.blog_folder = Ok l
              /\ In item (items l)
              /\ l_download_url item = "/blog/blog-2026-02-02.md".
Proof.
  eexists.
  assert (He : execute_task (blog_task_agent "2026-02-02")
                 (Some SampleService.silent) SampleFiles.blog_folder
                 "write a post" = Ok _)
    by reflexivity.
  split; [exact He|]. split; [reflexivity|].
  assert (Hu : download_url
                 (mkTaskResponse
                    "Blog post generated successfully. Check the blog folder."
                    "blog_agent" (Some "/app/blog/blog-2026-02-02.md")
                    (Some "/blog/blog-2026-02-02.md"))
               = Some "/blog/blog-2026-02-02.md") by reflexivity.
  split; [reflexivity|].
  exact (@X28_task_reports_a_newest_downloadable_blog SampleFiles.isoformat
           "2026-02-02" (Some SampleService.silent) SampleFiles.blog_folder
           "write a post" _ _ He Hu).
Defined.
